(** * MBO to MBP-10 order book reconstruction: model and verification

    A shallow embedding of the order book ([order.h], [orderbook.h],
    [orderbook.cpp]), of the MBP projection ([records.h], [records.cpp]) and
    of the processing driver ([mbo_processor.h], [mbo_processor.cpp]).

    Conventions of the embedding:
    - fixed-width integers are [Z]; arithmetic that can wrap in the source
      ([uint32_t], [uint64_t]) is written with an explicit [mod];
    - [char] is [ascii], [std::string] is [string];
    - [std::unordered_map] and [std::map] are [gmap]; iterating a [std::map]
      visits its entries in the order of its comparator, which is written
      out by [OrderBook.iterate_bids] and [OrderBook.iterate_asks];
    - a C++ member function that mutates [*this] or throws is a computation
      in the monad [M St], which threads the object and keeps the state
      reached at the point of a [throw];
    - a [PriceLevel&] obtained from [GetOrCreateLevel] is a [LevelRef], the
      path of the level inside the book; mutating through the reference is
      [OrderBook.update_level]. *)

From Stdlib Require Import Ascii String.
From stdpp Require Import gmap strings list fin_maps sorting.

Local Open Scope Z_scope.

(** ** Exceptions and the state-and-exception monad *)

(** The two standard exception classes the sources throw. The numbers
    that the sources append to the messages are left out of [what]. *)
Inductive exception : Type :=
| invalid_argument (what : string)
| runtime_error (what : string).

Definition M (St A : Type) : Type := St → (exception + A) * St.

Global Instance M_ret {St} : MRet (M St) := λ A a s, (inr a, s).

Global Instance M_bind {St} : MBind (M St) := λ A B k c s,
  match c s with
  | (inl e, s') => (inl e, s')
  | (inr a, s') => k a s'
  end.

Definition throw {St A} (e : exception) : M St A := λ s, (inl e, s).
Definition get {St} : M St St := λ s, (inr s, s).
Definition gets {St A} (f : St → A) : M St A := λ s, (inr (f s), s).
Definition modify {St} (f : St → St) : M St unit := λ s, (inr tt, f s).

(** The object as the call leaves it, whether it returned or threw. *)
Definition state_after {St A} (r : (exception + A) * St) : St := r.2.

(** Whether the call threw. *)
Definition threw {St A} (r : (exception + A) * St) : bool :=
  match r.1 with inl _ => true | inr _ => false end.

(** ** types.h *)

Definition u32 (z : Z) : Z := z mod 2 ^ 32.
Definition u64 (z : Z) : Z := z mod 2 ^ 64.

Definition MBP_LEVELS : nat := 10.
Definition kUndefPrice : Z := 9223372036854775807.

Definition BID_SIDE : ascii := "B"%char.
Definition ASK_SIDE : ascii := "A"%char.
Definition NEUTRAL_SIDE : ascii := "N"%char.

Definition ACTION_ADD : ascii := "A"%char.
Definition ACTION_CANCEL : ascii := "C"%char.
Definition ACTION_MODIFY : ascii := "M"%char.
Definition ACTION_TRADE : ascii := "T"%char.
Definition ACTION_FILL : ascii := "F"%char.
Definition ACTION_CLEAR : ascii := "R"%char.
Definition ACTION_NONE : ascii := "N"%char.

(** ** utils.cpp: the validity predicates *)

Module utils.

Definition IsValidPrice (price : Z) : bool :=
  negb (price =? kUndefPrice) && (price >? 0).

Definition IsValidSize (size : Z) : bool := size >? 0.

Definition IsValidSide (side : ascii) : bool :=
  Ascii.eqb side BID_SIDE || Ascii.eqb side ASK_SIDE
  || Ascii.eqb side NEUTRAL_SIDE.

Definition IsValidAction (action : ascii) : bool :=
  Ascii.eqb action ACTION_ADD || Ascii.eqb action ACTION_CANCEL
  || Ascii.eqb action ACTION_MODIFY || Ascii.eqb action ACTION_TRADE
  || Ascii.eqb action ACTION_FILL || Ascii.eqb action ACTION_CLEAR
  || Ascii.eqb action ACTION_NONE.

(** [c >= '0' && c <= '9']. *)
Definition is_digit (c : ascii) : bool :=
(48 <=? nat_of_ascii c)%nat && (nat_of_ascii c <=? 57)%nat.

(** [c - '0']. *)
Definition digit_value (c : ascii) : Z := Z.of_nat (nat_of_ascii c) - 48.

(** The loop of [ParseUint64] over the characters still to read, [result]
being the [uint64_t] accumulated so far. *)
Fixpoint parse_digits (result : Z) (str : string) : Z :=
match str with
| EmptyString => result
| String c rest =>
    parse_digits
      (if is_digit c then u64 (result * 10 + digit_value c) else result)
      rest
end.

Definition ParseUint64 (str : string) : Z := parse_digits 0 str.

(** The [static_cast]s to the narrower unsigned types. *)
Definition ParseUint32 (str : string) : Z := ParseUint64 str mod 2 ^ 32.
Definition ParseUint16 (str : string) : Z := ParseUint64 str mod 2 ^ 16.
Definition ParseUint8 (str : string) : Z := ParseUint64 str mod 2 ^ 8.

(** [SplitCSVLine]: each turn of the [while] loop pushes the characters
between [start] and the next comma, and the last [emplace_back] pushes
what follows the last comma. Read one character at a time: a comma
closes the field being read and opens the next one. *)
Fixpoint SplitCSVLine (line : string) : list string :=
match line with
| EmptyString => [EmptyString]
| String c rest =>
    if Ascii.eqb c ","
    then EmptyString :: SplitCSVLine rest
    else match SplitCSVLine rest with
         | field :: fields => String c field :: fields
         | [] => [String c EmptyString]
         end
end.

End utils.

(** ** order.h: PriceLevel and CompactPriceLevel *)

Module PriceLevel.

(** [total_size] has type [Size], that is [uint32_t], like
    [order_count]. *)
Record t : Type := mk {
  price : Z;
  total_size : Z;
  order_count : Z;
  orders : gmap Z Z
}.

(** The default member initialisers. *)
Definition new : t :=
  {| price := kUndefPrice; total_size := 0; order_count := 0; orders := ∅ |}.

Definition set_price (p : Z) (l : t) : t :=
  {| price := p; total_size := total_size l;
     order_count := order_count l; orders := orders l |}.

Definition IsEmpty (l : t) : bool :=
  (price l =? kUndefPrice) || (order_count l =? 0).

Definition AddOrder (order_id size : Z) (l : t) : t :=
  {| price := price l;
     total_size := u32 (total_size l + size);
     order_count := u32 (order_count l + 1);
     orders := <[order_id := size]> (orders l) |}.

Definition RemoveOrder (order_id : Z) (l : t) : t :=
  match orders l !! order_id with
  | Some sz =>
      let total := u32 (total_size l - sz) in
      let count := u32 (order_count l - 1) in
      let rest := delete order_id (orders l) in
      if count =? 0
      then {| price := kUndefPrice; total_size := 0;
              order_count := count; orders := rest |}
      else {| price := price l; total_size := total;
              order_count := count; orders := rest |}
  | None => l
  end.

Definition ModifyOrder (order_id new_size : Z) (l : t) : t :=
  match orders l !! order_id with
  | Some old =>
      {| price := price l;
         total_size := u32 (u32 (total_size l - old) + new_size);
         order_count := order_count l;
         orders := <[order_id := new_size]> (orders l) |}
  | None => l
  end.

Definition GetOrderSize (order_id : Z) (l : t) : Z :=
  match orders l !! order_id with Some sz => sz | None => 0 end.

Definition HasOrder (order_id : Z) (l : t) : bool :=
  match orders l !! order_id with Some _ => true | None => false end.

Definition Clear (l : t) : t :=
{| price := kUndefPrice; total_size := 0; order_count := 0; orders := ∅ |}.

End PriceLevel.

Module CompactPriceLevel.

Record t : Type := mk { price : Z; size : Z; count : Z }.

Definition of_level (level : PriceLevel.t) : t :=
  {| price := PriceLevel.price level;
     size := PriceLevel.total_size level;
     count := PriceLevel.order_count level |}.

Definition IsEmpty (c : t) : bool := price c =? kUndefPrice.

(** The default member initialisers. *)
Definition new : t := {| price := kUndefPrice; size := 0; count := 0 |}.

End CompactPriceLevel.

(** ** records.h: MBORecord and MBPRecord *)

Module MBORecord.

Record t : Type := mk {
  ts_recv : string;
  ts_event : string;
  rtype : Z;
  publisher_id : Z;
  instrument_id : Z;
  action : ascii;
  side : ascii;
  price : Z;
  size : Z;
  channel_id : Z;
  order_id : Z;
  flags : Z;
  ts_in_delta : Z;
  sequence : Z;
  symbol : string
}.

Definition IsValid (r : t) : bool :=
  utils.IsValidAction (action r)
  && utils.IsValidSide (side r)
  && (Ascii.eqb (action r) ACTION_CLEAR || utils.IsValidPrice (price r))
  && (Ascii.eqb (action r) ACTION_CLEAR || utils.IsValidSize (size r)).

Definition AffectsOrderBook (r : t) : bool :=
Ascii.eqb (action r) ACTION_ADD || Ascii.eqb (action r) ACTION_CANCEL
|| Ascii.eqb (action r) ACTION_MODIFY || Ascii.eqb (action r) ACTION_CLEAR.

Definition set_action (a : ascii) (r : t) : t :=
{| ts_recv := ts_recv r; ts_event := ts_event r; rtype := rtype r;
   publisher_id := publisher_id r; instrument_id := instrument_id r;
   action := a; side := side r; price := price r; size := size r;
   channel_id := channel_id r; order_id := order_id r; flags := flags r;
   ts_in_delta := ts_in_delta r; sequence := sequence r;
   symbol := symbol r |}.

End MBORecord.

Module MBPRecord.

(** The six [std::array]s are lists; the constructor gives each its
    [MBP_LEVELS] entries. *)
Record t : Type := mk {
  ts_recv : string;
  ts_event : string;
  rtype : Z;
  publisher_id : Z;
  instrument_id : Z;
  action : ascii;
  side : ascii;
  depth : Z;
  price : Z;
  size : Z;
  flags : Z;
  ts_in_delta : Z;
  sequence : Z;
  bid_prices : list Z;
  bid_sizes : list Z;
  bid_counts : list Z;
  ask_prices : list Z;
  ask_sizes : list Z;
  ask_counts : list Z;
  symbol : string;
  order_id : Z
}.

Definition set_bids (ps ss cs : list Z) (r : t) : t :=
  {| ts_recv := ts_recv r; ts_event := ts_event r; rtype := rtype r;
     publisher_id := publisher_id r; instrument_id := instrument_id r;
     action := action r; side := side r; depth := depth r;
     price := price r; size := size r; flags := flags r;
     ts_in_delta := ts_in_delta r; sequence := sequence r;
     bid_prices := ps; bid_sizes := ss; bid_counts := cs;
     ask_prices := ask_prices r; ask_sizes := ask_sizes r;
     ask_counts := ask_counts r;
     symbol := symbol r; order_id := order_id r |}.

Definition set_asks (ps ss cs : list Z) (r : t) : t :=
  {| ts_recv := ts_recv r; ts_event := ts_event r; rtype := rtype r;
     publisher_id := publisher_id r; instrument_id := instrument_id r;
     action := action r; side := side r; depth := depth r;
     price := price r; size := size r; flags := flags r;
     ts_in_delta := ts_in_delta r; sequence := sequence r;
     bid_prices := bid_prices r; bid_sizes := bid_sizes r;
     bid_counts := bid_counts r;
     ask_prices := ps; ask_sizes := ss; ask_counts := cs;
     symbol := symbol r; order_id := order_id r |}.

(** [level] is in range exactly when [level < MBP_LEVELS]; the list
    update does nothing out of range, like the guarded assignment. *)
Definition SetBidLevel (level : nat) (p sz ct : Z) (r : t) : t :=
  if (level <? MBP_LEVELS)%nat
  then set_bids (<[level := p]> (bid_prices r))
                (<[level := sz]> (bid_sizes r))
                (<[level := ct]> (bid_counts r)) r
  else r.

Definition SetAskLevel (level : nat) (p sz ct : Z) (r : t) : t :=
  if (level <? MBP_LEVELS)%nat
  then set_asks (<[level := p]> (ask_prices r))
                (<[level := sz]> (ask_sizes r))
                (<[level := ct]> (ask_counts r)) r
  else r.

(** [for (i = 0; i < bids.size() && i < MBP_LEVELS; ++i) SetBidLevel(i, ...)],
    with [levels] the part of the vector from index [i] on. *)
Fixpoint copy_bid_levels (i : nat) (levels : list CompactPriceLevel.t)
    (r : t) : t :=
  match levels with
  | [] => r
  | l :: rest =>
      if (i <? MBP_LEVELS)%nat
      then copy_bid_levels (S i) rest
             (SetBidLevel i (CompactPriceLevel.price l)
                (CompactPriceLevel.size l) (CompactPriceLevel.count l) r)
      else r
  end.

Fixpoint copy_ask_levels (i : nat) (levels : list CompactPriceLevel.t)
    (r : t) : t :=
  match levels with
  | [] => r
  | l :: rest =>
      if (i <? MBP_LEVELS)%nat
      then copy_ask_levels (S i) rest
             (SetAskLevel i (CompactPriceLevel.price l)
                (CompactPriceLevel.size l) (CompactPriceLevel.count l) r)
      else r
  end.

Definition FromOrderBook (mbo : MBORecord.t)
    (bids asks : list CompactPriceLevel.t) : t :=
  let r :=
    {| ts_recv := MBORecord.ts_recv mbo;
       ts_event := MBORecord.ts_event mbo;
       rtype := 10;
       publisher_id := MBORecord.publisher_id mbo;
       instrument_id := MBORecord.instrument_id mbo;
       action := MBORecord.action mbo;
       side := MBORecord.side mbo;
       depth := if Ascii.eqb (MBORecord.action mbo) ACTION_CANCEL
                then 1 else 0;
       price := MBORecord.price mbo;
       size := MBORecord.size mbo;
       flags := MBORecord.flags mbo;
       ts_in_delta := MBORecord.ts_in_delta mbo;
       sequence := MBORecord.sequence mbo;
       bid_prices := replicate MBP_LEVELS kUndefPrice;
       bid_sizes := replicate MBP_LEVELS 0;
       bid_counts := replicate MBP_LEVELS 0;
       ask_prices := replicate MBP_LEVELS kUndefPrice;
       ask_sizes := replicate MBP_LEVELS 0;
       ask_counts := replicate MBP_LEVELS 0;
       symbol := MBORecord.symbol mbo;
       order_id := MBORecord.order_id mbo |} in
  copy_ask_levels 0 asks (copy_bid_levels 0 bids r).

(** [level] is an [int] here: negative values are out of range. *)
Definition GetBidLevel (level : Z) (r : t) : CompactPriceLevel.t :=
if (0 <=? level) && (level <? Z.of_nat MBP_LEVELS)
then {| CompactPriceLevel.price := bid_prices r !!! Z.to_nat level;
        CompactPriceLevel.size := bid_sizes r !!! Z.to_nat level;
        CompactPriceLevel.count := bid_counts r !!! Z.to_nat level |}
else CompactPriceLevel.new.

Definition GetAskLevel (level : Z) (r : t) : CompactPriceLevel.t :=
if (0 <=? level) && (level <? Z.of_nat MBP_LEVELS)
then {| CompactPriceLevel.price := ask_prices r !!! Z.to_nat level;
        CompactPriceLevel.size := ask_sizes r !!! Z.to_nat level;
        CompactPriceLevel.count := ask_counts r !!! Z.to_nat level |}
else CompactPriceLevel.new.

End MBPRecord.

(** ** orderbook.h, orderbook.cpp: OrderBook *)

(** Entries of a [std::map] are visited in the order of its comparator:
    [std::greater] for the bids, [std::less] for the asks. *)
Definition key_ge {A} (a b : Z * A) : Prop := b.1 ≤ a.1.
Definition key_le {A} (a b : Z * A) : Prop := a.1 ≤ b.1.

Global Instance key_ge_dec {A} : RelDecision (@key_ge A).
Proof. intros a b. unfold key_ge. apply _. Defined.

Global Instance key_le_dec {A} : RelDecision (@key_le A).
Proof. intros a b. unfold key_le. apply _. Defined.

(** Which of the two maps a level lives in. *)
Inductive book_side : Type := Bid | Ask.

Global Instance book_side_eq_dec : EqDecision book_side.
Proof. solve_decision. Defined.

Definition side_char (s : book_side) : ascii :=
  match s with Bid => BID_SIDE | Ask => ASK_SIDE end.

(** A [PriceLevel&] into [bids_] or [asks_]. *)
Definition LevelRef : Type := book_side * Z.

Module OrderBook.

Record OrderLocation : Type := Loc { price : Z; side : ascii }.

Record t : Type := mk {
  bids_ : gmap Z PriceLevel.t;
  asks_ : gmap Z PriceLevel.t;
  order_lookup_ : gmap Z OrderLocation;
  has_changes_ : bool;
  bid_levels_cache_ : list CompactPriceLevel.t;
  ask_levels_cache_ : list CompactPriceLevel.t
}.

(** The constructor: everything empty, [has_changes_] false. *)
Definition new : t :=
  {| bids_ := ∅; asks_ := ∅; order_lookup_ := ∅; has_changes_ := false;
     bid_levels_cache_ := []; ask_levels_cache_ := [] |}.

Definition levels (s : book_side) (b : t) : gmap Z PriceLevel.t :=
  match s with Bid => bids_ b | Ask => asks_ b end.

Definition set_levels (s : book_side) (m : gmap Z PriceLevel.t) (b : t) : t :=
  match s with
  | Bid => {| bids_ := m; asks_ := asks_ b;
              order_lookup_ := order_lookup_ b;
              has_changes_ := has_changes_ b;
              bid_levels_cache_ := bid_levels_cache_ b;
              ask_levels_cache_ := ask_levels_cache_ b |}
  | Ask => {| bids_ := bids_ b; asks_ := m;
              order_lookup_ := order_lookup_ b;
              has_changes_ := has_changes_ b;
              bid_levels_cache_ := bid_levels_cache_ b;
              ask_levels_cache_ := ask_levels_cache_ b |}
  end.

Definition set_order_lookup (m : gmap Z OrderLocation) (b : t) : t :=
  {| bids_ := bids_ b; asks_ := asks_ b; order_lookup_ := m;
     has_changes_ := has_changes_ b;
     bid_levels_cache_ := bid_levels_cache_ b;
     ask_levels_cache_ := ask_levels_cache_ b |}.

Definition set_has_changes (c : bool) (b : t) : t :=
  {| bids_ := bids_ b; asks_ := asks_ b;
     order_lookup_ := order_lookup_ b; has_changes_ := c;
     bid_levels_cache_ := bid_levels_cache_ b;
     ask_levels_cache_ := ask_levels_cache_ b |}.

Definition set_bid_cache (c : list CompactPriceLevel.t) (b : t) : t :=
  {| bids_ := bids_ b; asks_ := asks_ b;
     order_lookup_ := order_lookup_ b; has_changes_ := has_changes_ b;
     bid_levels_cache_ := c;
     ask_levels_cache_ := ask_levels_cache_ b |}.

Definition set_ask_cache (c : list CompactPriceLevel.t) (b : t) : t :=
  {| bids_ := bids_ b; asks_ := asks_ b;
     order_lookup_ := order_lookup_ b; has_changes_ := has_changes_ b;
     bid_levels_cache_ := bid_levels_cache_ b;
     ask_levels_cache_ := c |}.

Definition HasChanges (b : t) : bool := has_changes_ b.
Definition ResetChanges : M t unit := modify (set_has_changes false).
Definition MarkChanged : M t unit := modify (set_has_changes true).

(** [m[price]] followed by the initialisation of [price] on a level that
    still carries [kUndefPrice]. *)
Definition touch_level (p : Z) (m : gmap Z PriceLevel.t) : gmap Z PriceLevel.t :=
  let level := default PriceLevel.new (m !! p) in
  <[p := if PriceLevel.price level =? kUndefPrice
         then PriceLevel.set_price p level else level]> m.

Definition GetOrCreateLevel (side : ascii) (price : Z) : M t LevelRef :=
  if Ascii.eqb side BID_SIDE then
    modify (λ b, set_levels Bid (touch_level price (bids_ b)) b);;
    mret (Bid, price)
  else if Ascii.eqb side ASK_SIDE then
    modify (λ b, set_levels Ask (touch_level price (asks_ b)) b);;
    mret (Ask, price)
  else throw (invalid_argument "Invalid side").

(** A member call on the level behind a reference. *)
Definition update_level (r : LevelRef) (f : PriceLevel.t → PriceLevel.t)
    : M t unit :=
  modify (λ b, set_levels r.1 (alter f r.2 (levels r.1 b)) b).

Definition GetLevel (side : ascii) (price : Z) (b : t)
    : exception + PriceLevel.t :=
  if Ascii.eqb side BID_SIDE then
    match bids_ b !! price with
    | Some level => inr level
    | None => inl (runtime_error "Bid level not found")
    end
  else if Ascii.eqb side ASK_SIDE then
    match asks_ b !! price with
    | Some level => inr level
    | None => inl (runtime_error "Ask level not found")
    end
  else inl (invalid_argument "Invalid side").

Definition erase_if_empty (p : Z) (m : gmap Z PriceLevel.t) : gmap Z PriceLevel.t :=
  match m !! p with
  | Some level => if PriceLevel.IsEmpty level then delete p m else m
  | None => m
  end.

Definition RemoveEmptyLevel (side : ascii) (price : Z) : M t unit :=
  if Ascii.eqb side BID_SIDE then
    modify (λ b, set_levels Bid (erase_if_empty price (bids_ b)) b)
  else if Ascii.eqb side ASK_SIDE then
    modify (λ b, set_levels Ask (erase_if_empty price (asks_ b)) b)
  else mret tt.

Definition AddOrder (record : MBORecord.t) : M t unit :=
  lookup ← gets order_lookup_;
  match lookup !! MBORecord.order_id record with
  | Some _ => throw (runtime_error "Order ID already exists")
  | None =>
      level ← GetOrCreateLevel (MBORecord.side record) (MBORecord.price record);
      update_level level
        (PriceLevel.AddOrder (MBORecord.order_id record) (MBORecord.size record));;
      modify (λ b, set_order_lookup
                     (<[MBORecord.order_id record :=
                          Loc (MBORecord.price record) (MBORecord.side record)]>
                        (order_lookup_ b)) b);;
      MarkChanged
  end.

Definition CancelOrder (record : MBORecord.t) : M t unit :=
  lookup ← gets order_lookup_;
  match lookup !! MBORecord.order_id record with
  | None => mret tt
  | Some loc =>
      level ← GetOrCreateLevel (side loc) (price loc);
      update_level level (PriceLevel.RemoveOrder (MBORecord.order_id record));;
      modify (λ b, set_order_lookup
                     (delete (MBORecord.order_id record) (order_lookup_ b)) b);;
      RemoveEmptyLevel (side loc) (price loc);;
      MarkChanged
  end.

Definition ModifyOrder (record : MBORecord.t) : M t unit :=
  lookup ← gets order_lookup_;
  match lookup !! MBORecord.order_id record with
  | None => AddOrder record
  | Some loc =>
      (if negb (price loc =? MBORecord.price record)
          || negb (Ascii.eqb (side loc) (MBORecord.side record))
       then
         old_level ← GetOrCreateLevel (side loc) (price loc);
         update_level old_level
           (PriceLevel.RemoveOrder (MBORecord.order_id record));;
         RemoveEmptyLevel (side loc) (price loc);;
         new_level ← GetOrCreateLevel (MBORecord.side record)
                                      (MBORecord.price record);
         update_level new_level
           (PriceLevel.AddOrder (MBORecord.order_id record)
                                (MBORecord.size record));;
         modify (λ b, set_order_lookup
                        (<[MBORecord.order_id record :=
                             Loc (MBORecord.price record)
                                 (MBORecord.side record)]>
                           (order_lookup_ b)) b)
       else
         level ← GetOrCreateLevel (MBORecord.side record)
                                  (MBORecord.price record);
         update_level level
           (PriceLevel.ModifyOrder (MBORecord.order_id record)
                                   (MBORecord.size record)));;
      MarkChanged
  end.

Definition Clear : M t unit :=
  modify (λ b, set_order_lookup ∅ (set_levels Ask ∅ (set_levels Bid ∅ b)));;
  MarkChanged.

Definition Apply (record : MBORecord.t) : M t unit :=
  if negb (MBORecord.IsValid record)
  then throw (invalid_argument "Invalid MBO record")
  else
    let action := MBORecord.action record in
    if Ascii.eqb action ACTION_ADD then AddOrder record
    else if Ascii.eqb action ACTION_CANCEL then CancelOrder record
    else if Ascii.eqb action ACTION_MODIFY then ModifyOrder record
    else if Ascii.eqb action ACTION_CLEAR then Clear
    else if Ascii.eqb action ACTION_TRADE || Ascii.eqb action ACTION_FILL
            || Ascii.eqb action ACTION_NONE then mret tt
    else throw (invalid_argument "Unknown action").

(** The entries of [bids_] and of [asks_] in iteration order. *)
Definition iterate_bids (b : t) : list (Z * PriceLevel.t) :=
  merge_sort key_ge (map_to_list (bids_ b)).

Definition iterate_asks (b : t) : list (Z * PriceLevel.t) :=
  merge_sort key_le (map_to_list (asks_ b)).

(** The body of the range-for of [GetTopBids] and [GetTopAsks] over the
    entries still to visit, [cache] being the vector filled so far. *)
Fixpoint collect_levels (n : nat) (entries : list (Z * PriceLevel.t))
    (cache : list CompactPriceLevel.t) : list CompactPriceLevel.t :=
  match entries with
  | [] => cache
  | (_, level) :: rest =>
      if (n <=? length cache)%nat then cache
      else if negb (PriceLevel.IsEmpty level)
      then collect_levels n rest (cache ++ [CompactPriceLevel.of_level level])
      else collect_levels n rest cache
  end.

(** [const], but the caches are [mutable]: the call overwrites one. *)
Definition GetTopBids (n : nat) : M t (list CompactPriceLevel.t) :=
  b ← get;
  let cache := collect_levels n (iterate_bids b) [] in
  modify (set_bid_cache cache);;
  mret cache.

Definition GetTopAsks (n : nat) : M t (list CompactPriceLevel.t) :=
  b ← get;
  let cache := collect_levels n (iterate_asks b) [] in
  modify (set_ask_cache cache);;
  mret cache.

(** The early [return false] of each loop makes it a conjunction over
    the entries, whatever the order an [unordered_map] yields them in. *)
Definition ValidateConsistency (b : t) : bool :=
  forallb (λ e : Z * OrderLocation,
             match GetLevel (side e.2) (price e.2) b with
             | inr level => PriceLevel.HasOrder e.1 level
             | inl _ => false
             end)
          (map_to_list (order_lookup_ b))
  && forallb (λ l : Z * PriceLevel.t,
                forallb (λ o : Z * Z,
                           match order_lookup_ b !! o.1 with
                           | None => false
                           | Some loc =>
                               negb (negb (price loc =? l.1)
                                     || negb (Ascii.eqb (side loc) BID_SIDE))
                           end)
                        (map_to_list (PriceLevel.orders l.2)))
             (map_to_list (bids_ b))
  && forallb (λ l : Z * PriceLevel.t,
                forallb (λ o : Z * Z,
                           match order_lookup_ b !! o.1 with
                           | None => false
                           | Some loc =>
                               negb (negb (price loc =? l.1)
                                     || negb (Ascii.eqb (side loc) ASK_SIDE))
                           end)
                        (map_to_list (PriceLevel.orders l.2)))
             (map_to_list (asks_ b)).

(** The state a sequence of [Apply] calls leaves, each call keeping
    what it had done when it threw. *)
Definition apply_all (records : list MBORecord.t) (b : t) : t :=
  foldl (λ b r, state_after (Apply r b)) b records.

Record Statistics : Type := mkStatistics {
total_bid_levels : nat;
total_ask_levels : nat;
total_orders : nat;
best_bid : Z;
best_ask : Z
}.

(** [m.empty()] is an empty iteration, [m.begin()] its first entry. *)
Definition GetStatistics (b : t) : Statistics :=
{| total_bid_levels := size (bids_ b);
   total_ask_levels := size (asks_ b);
   total_orders := size (order_lookup_ b);
   best_bid := match iterate_bids b with
               | (p, _) :: _ => p
               | [] => kUndefPrice
               end;
   best_ask := match iterate_asks b with
               | (p, _) :: _ => p
               | [] => kUndefPrice
               end |}.

Definition best_of (entries : list (Z * PriceLevel.t)) : CompactPriceLevel.t :=
match entries with
| (_, level) :: _ =>
    if negb (PriceLevel.IsEmpty level)
    then CompactPriceLevel.of_level level
    else CompactPriceLevel.new
| [] => CompactPriceLevel.new
end.

Definition GetBestBidAsk (b : t) : CompactPriceLevel.t * CompactPriceLevel.t :=
(best_of (iterate_bids b), best_of (iterate_asks b)).

End OrderBook.

(** ** mbo_processor.h, mbo_processor.cpp: MBOProcessor *)

Module MBOProcessor.

(** [output] is what has been appended to [output_buffer_] so far, one
    entry per row: the index written in front of it and the record that
    [ToCSV] renders. Flushing moves text from the buffer to the file and
    does not change the sequence of rows. The performance monitor only
    counts and reports, and is left out. *)
Record t : Type := mk {
  order_book_ : OrderBook.t;
  output : list (Z * MBPRecord.t);
  record_count_ : Z;
  mbp_record_count_ : Z;
  validate_output_ : bool
}.

(** The constructor, with the default member initialisers. *)
Definition new : t :=
  {| order_book_ := OrderBook.new; output := [];
     record_count_ := 0; mbp_record_count_ := 0;
     validate_output_ := true |}.

Definition set_order_book (b : OrderBook.t) (p : t) : t :=
  {| order_book_ := b; output := output p;
     record_count_ := record_count_ p;
     mbp_record_count_ := mbp_record_count_ p;
     validate_output_ := validate_output_ p |}.

Definition set_output (o : list (Z * MBPRecord.t)) (p : t) : t :=
  {| order_book_ := order_book_ p; output := o;
     record_count_ := record_count_ p;
     mbp_record_count_ := mbp_record_count_ p;
     validate_output_ := validate_output_ p |}.

Definition set_record_count (n : Z) (p : t) : t :=
  {| order_book_ := order_book_ p; output := output p;
     record_count_ := n;
     mbp_record_count_ := mbp_record_count_ p;
     validate_output_ := validate_output_ p |}.

Definition set_mbp_record_count (n : Z) (p : t) : t :=
  {| order_book_ := order_book_ p; output := output p;
     record_count_ := record_count_ p;
     mbp_record_count_ := n;
     validate_output_ := validate_output_ p |}.

Definition SetValidateOutput (validate : bool) (p : t) : t :=
  {| order_book_ := order_book_ p; output := output p;
     record_count_ := record_count_ p;
     mbp_record_count_ := mbp_record_count_ p;
     validate_output_ := validate |}.

(** A member call on [order_book_]. *)
Definition on_book {A} (c : M OrderBook.t A) : M t A := λ p,
  let r := c (order_book_ p) in (r.1, set_order_book r.2 p).

(** One turn of the loop over the price levels. *)
Definition validate_level (r : MBPRecord.t) (i : nat) : option exception :=
  if negb (MBPRecord.bid_prices r !!! i =? kUndefPrice)
     && ((MBPRecord.bid_sizes r !!! i =? 0)
         || (MBPRecord.bid_counts r !!! i =? 0))
  then Some (runtime_error "Invalid bid level: price set but size/count is 0")
  else if negb (MBPRecord.ask_prices r !!! i =? kUndefPrice)
          && ((MBPRecord.ask_sizes r !!! i =? 0)
              || (MBPRecord.ask_counts r !!! i =? 0))
  then Some (runtime_error "Invalid ask level: price set but size/count is 0")
  else None.

(** [for (i = ...; i < MBP_LEVELS; ++i)] over the indices still to do. *)
Fixpoint validate_levels (r : MBPRecord.t) (indices : list nat)
    : option exception :=
  match indices with
  | [] => None
  | i :: rest =>
      match validate_level r i with
      | Some e => Some e
      | None => validate_levels r rest
      end
  end.

(** The exception [ValidateMBPRecord] throws, if any. *)
Definition validation_error (r : MBPRecord.t) : option exception :=
  if negb (MBPRecord.rtype r =? 10)
  then Some (runtime_error "Invalid MBP record type")
  else if negb (utils.IsValidAction (MBPRecord.action r))
  then Some (runtime_error "Invalid action in MBP record")
  else if negb (utils.IsValidSide (MBPRecord.side r))
  then Some (runtime_error "Invalid side in MBP record")
  else validate_levels r (seq 0 MBP_LEVELS).

Definition ValidateMBPRecord (r : MBPRecord.t) : M t unit :=
  match validation_error r with
  | Some e => throw e
  | None => mret tt
  end.

Definition WriteMBPRecord (r : MBPRecord.t) : M t unit :=
  p ← get;
  (if validate_output_ p then ValidateMBPRecord r else mret tt);;
  modify (λ p, set_output (output p ++ [(mbp_record_count_ p, r)]) p).

Definition CreateMBPRecord (mbo : MBORecord.t) : M t MBPRecord.t :=
  bids ← on_book (OrderBook.GetTopBids MBP_LEVELS);
  asks ← on_book (OrderBook.GetTopAsks MBP_LEVELS);
  mret (MBPRecord.FromOrderBook mbo bids asks).

Definition HandleSpecialCase (record : MBORecord.t) : M t bool :=
  if Ascii.eqb (MBORecord.action record) ACTION_CLEAR then
    on_book OrderBook.Clear;;
    modify (λ p, set_record_count (u64 (record_count_ p + 1)) p);;
    mbp_record ← CreateMBPRecord record;
    WriteMBPRecord mbp_record;;
    modify (λ p, set_mbp_record_count (u64 (mbp_record_count_ p + 1)) p);;
    mret true
  else mret false.

Definition ProcessRecord (record : MBORecord.t) : M t unit :=
  special ← HandleSpecialCase record;
  if special : bool then mret tt
  else
    on_book (OrderBook.Apply record);;
    modify (λ p, set_record_count (u64 (record_count_ p + 1)) p);;
    let action := MBORecord.action record in
    if Ascii.eqb action ACTION_ADD || Ascii.eqb action ACTION_CANCEL
       || Ascii.eqb action ACTION_CLEAR || Ascii.eqb action ACTION_TRADE
    then
      p ← get;
      if OrderBook.HasChanges (order_book_ p) then
        mbp_record ← CreateMBPRecord record;
        WriteMBPRecord mbp_record;;
        on_book OrderBook.ResetChanges;;
        modify (λ p, set_mbp_record_count (u64 (mbp_record_count_ p + 1)) p)
      else mret tt
    else mret tt.

(** The loop of [ProcessFile] over the parsed lines: an exception from
    [ProcessRecord] is caught and reported, and the loop goes on with
    the processor as the throwing call left it. *)
Definition ProcessFile (records : list MBORecord.t) (p : t) : t :=
  foldl (λ p r, state_after (ProcessRecord r p)) p records.

End MBOProcessor.

(** ** Events of the scenarios *)

(** An event with the given action, side, order id, price and size; the
    other fields are echoed and play no part in the book. *)
Definition event (action side : ascii) (order_id price size : Z) : MBORecord.t :=
  {| MBORecord.ts_recv := EmptyString; MBORecord.ts_event := EmptyString;
     MBORecord.rtype := 160; MBORecord.publisher_id := 2;
     MBORecord.instrument_id := 1108;
     MBORecord.action := action; MBORecord.side := side;
     MBORecord.price := price; MBORecord.size := size;
     MBORecord.channel_id := 0; MBORecord.order_id := order_id;
     MBORecord.flags := 0; MBORecord.ts_in_delta := 0;
     MBORecord.sequence := 0; MBORecord.symbol := EmptyString |}.

(** Prices are scaled by 10^9. *)
Definition px (units : Z) : Z := units * 1000000000.

(** ** Specification predicates *)

Global Instance OrderLocation_eq_dec : EqDecision OrderBook.OrderLocation.
Proof. solve_decision. Defined.

Global Instance PriceLevel_eq_dec : EqDecision PriceLevel.t.
Proof. solve_decision. Defined.

(** The sum of the per-order sizes of a level, as an exact integer. *)
Definition sum_sizes (m : gmap Z Z) : Z := map_fold (λ _ sz acc, sz + acc) 0 m.

(** The side a [char] selects in [GetOrCreateLevel], if any. *)
Definition side_of_char (c : ascii) : option book_side :=
  if Ascii.eqb c BID_SIDE then Some Bid
  else if Ascii.eqb c ASK_SIDE then Some Ask
  else None.

(** Level sum, with [total_size] an exact sum. *)
Definition level_sum_exact (level : PriceLevel.t) : Prop :=
  PriceLevel.total_size level = sum_sizes (PriceLevel.orders level)
  ∧ PriceLevel.order_count level = Z.of_nat (size (PriceLevel.orders level)).

(** Level sum, with [total_size] the sum reduced to 32 bits. *)
Definition level_sum_u32 (level : PriceLevel.t) : Prop :=
  PriceLevel.total_size level = u32 (sum_sizes (PriceLevel.orders level))
  ∧ PriceLevel.order_count level = Z.of_nat (size (PriceLevel.orders level)).

(** An entry of the order index points at a non-empty level that holds the
    order with a positive size. *)
Definition index_entry_coherent (b : OrderBook.t) (oid : Z)
    (loc : OrderBook.OrderLocation) : Prop :=
  match side_of_char (OrderBook.side loc) with
  | Some s =>
      match OrderBook.levels s b !! OrderBook.price loc with
      | Some level =>
          PriceLevel.IsEmpty level = false
          ∧ match PriceLevel.orders level !! oid with
            | Some sz => 0 < sz
            | None => False
            end
      | None => False
      end
  | None => False
  end.

(** Every order stored in a level of side [s] is in the order index with
    that level's price and side. *)
Definition levels_indexed (s : book_side) (b : OrderBook.t) : Prop :=
  map_Forall (λ p level,
    map_Forall (λ oid _,
      OrderBook.order_lookup_ b !! oid = Some (OrderBook.Loc p (side_char s)))
      (PriceLevel.orders level))
    (OrderBook.levels s b).

Definition coherent (b : OrderBook.t) : Prop :=
  map_Forall (index_entry_coherent b) (OrderBook.order_lookup_ b)
  ∧ levels_indexed Bid b ∧ levels_indexed Ask b.

(** What every level resting in a side book satisfies: it carries its
    key as price, its aggregates agree with its orders, it holds at most
    [n] orders, each with a positive size. *)
Definition level_shape (n : Z) (p : Z) (level : PriceLevel.t) : Prop :=
  PriceLevel.price level = p
  ∧ p ≠ kUndefPrice
  ∧ level_sum_u32 level
  ∧ Z.of_nat (size (PriceLevel.orders level)) ≤ n
  ∧ map_Forall (λ _ sz, 0 < sz) (PriceLevel.orders level).

Definition index_entry_valid (oid : Z) (loc : OrderBook.OrderLocation) : Prop :=
  is_Some (side_of_char (OrderBook.side loc))
  ∧ OrderBook.price loc ≠ kUndefPrice.

(** The invariant of every state the book can be left in, after at most
    [n] calls of [Apply]. *)
Definition book_inv (n : Z) (b : OrderBook.t) : Prop :=
  map_Forall (level_shape n) (OrderBook.bids_ b)
  ∧ map_Forall (level_shape n) (OrderBook.asks_ b)
  ∧ levels_indexed Bid b ∧ levels_indexed Ask b
  ∧ map_Forall index_entry_valid (OrderBook.order_lookup_ b).

Definition no_empty_level (m : gmap Z PriceLevel.t) : Prop :=
  map_Forall (λ _ level, PriceLevel.IsEmpty level = false) m.

(** The data model of the book: the invariant above, coherence of the two
    indices, and no empty level resting in a side book. *)
Definition book_wf (b : OrderBook.t) : Prop :=
  book_inv (2 ^ 32 - 1) b
  ∧ coherent b
  ∧ no_empty_level (OrderBook.bids_ b)
  ∧ no_empty_level (OrderBook.asks_ b).

(** A snapshot slot with a price has a positive size and count. *)
Definition slot_ok (p sz ct : Z) : Prop := p ≠ kUndefPrice → 0 < sz ∧ 0 < ct.

Definition row_well_formed (r : MBPRecord.t) : Prop :=
  ∀ i : nat, (i < MBP_LEVELS)%nat →
    slot_ok (MBPRecord.bid_prices r !!! i) (MBPRecord.bid_sizes r !!! i)
            (MBPRecord.bid_counts r !!! i)
    ∧ slot_ok (MBPRecord.ask_prices r !!! i) (MBPRecord.ask_sizes r !!! i)
              (MBPRecord.ask_counts r !!! i).

(** The fields of a snapshot that hold unsigned integers are not negative. *)
Definition row_unsigned (r : MBPRecord.t) : Prop :=
  Forall (λ z, 0 ≤ z) (MBPRecord.bid_sizes r)
  ∧ Forall (λ z, 0 ≤ z) (MBPRecord.bid_counts r)
  ∧ Forall (λ z, 0 ≤ z) (MBPRecord.ask_sizes r)
  ∧ Forall (λ z, 0 ≤ z) (MBPRecord.ask_counts r).

(** The snapshot [CreateMBPRecord] builds for an event on a book. *)
Definition snapshot_of (record : MBORecord.t) (b : OrderBook.t) : MBPRecord.t :=
  MBPRecord.FromOrderBook record
    (OrderBook.collect_levels MBP_LEVELS (OrderBook.iterate_bids b) [])
    (OrderBook.collect_levels MBP_LEVELS (OrderBook.iterate_asks b) []).

(** Whether [WriteMBPRecord] gets past its validation step. *)
Definition passes_validation (p : MBOProcessor.t) (r : MBPRecord.t) : bool :=
  negb (MBOProcessor.validate_output_ p)
  || match MBOProcessor.validation_error r with None => true | Some _ => false end.

(** ** The effect of [Apply] on the book, as a function

    [OrderBook.step] is the state [Apply] leaves, written without the
    monad. [Apply_step] below proves that it is; the invariants are then
    proved on it. *)

Definition init_level (p : Z) (o : option PriceLevel.t) : PriceLevel.t :=
  let level := default PriceLevel.new o in
  if PriceLevel.price level =? kUndefPrice
  then PriceLevel.set_price p level else level.

Definition put_order (s : book_side) (p oid sz : Z) (c : ascii)
    (b : OrderBook.t) : OrderBook.t :=
  OrderBook.set_order_lookup
    (<[oid := OrderBook.Loc p c]> (OrderBook.order_lookup_ b))
    (OrderBook.set_levels s
       (alter (PriceLevel.AddOrder oid sz) p
          (OrderBook.touch_level p (OrderBook.levels s b))) b).

Definition take_order (s : book_side) (p oid : Z) (b : OrderBook.t)
    : OrderBook.t :=
  OrderBook.set_levels s
    (OrderBook.erase_if_empty p
       (alter (PriceLevel.RemoveOrder oid) p
          (OrderBook.touch_level p (OrderBook.levels s b)))) b.

Definition forget_order (oid : Z) (b : OrderBook.t) : OrderBook.t :=
  OrderBook.set_order_lookup (delete oid (OrderBook.order_lookup_ b)) b.

Definition resize_order (s : book_side) (p oid sz : Z) (b : OrderBook.t)
    : OrderBook.t :=
  OrderBook.set_levels s
    (alter (PriceLevel.ModifyOrder oid sz) p
       (OrderBook.touch_level p (OrderBook.levels s b))) b.

Definition clear_book (b : OrderBook.t) : OrderBook.t :=
  OrderBook.set_order_lookup ∅
    (OrderBook.set_levels Ask ∅ (OrderBook.set_levels Bid ∅ b)).

Definition changed (b : OrderBook.t) : OrderBook.t :=
  OrderBook.set_has_changes true b.

Definition add_step (r : MBORecord.t) (b : OrderBook.t) : OrderBook.t :=
  match OrderBook.order_lookup_ b !! MBORecord.order_id r with
  | Some _ => b
  | None =>
      match side_of_char (MBORecord.side r) with
      | Some s =>
          changed (put_order s (MBORecord.price r) (MBORecord.order_id r)
                     (MBORecord.size r) (MBORecord.side r) b)
      | None => b
      end
  end.

Definition cancel_step (r : MBORecord.t) (b : OrderBook.t) : OrderBook.t :=
  match OrderBook.order_lookup_ b !! MBORecord.order_id r with
  | None => b
  | Some loc =>
      match side_of_char (OrderBook.side loc) with
      | Some s =>
          changed (forget_order (MBORecord.order_id r)
                     (take_order s (OrderBook.price loc)
                        (MBORecord.order_id r) b))
      | None => b
      end
  end.

Definition modify_step (r : MBORecord.t) (b : OrderBook.t) : OrderBook.t :=
  match OrderBook.order_lookup_ b !! MBORecord.order_id r with
  | None => add_step r b
  | Some loc =>
      if negb (OrderBook.price loc =? MBORecord.price r)
         || negb (Ascii.eqb (OrderBook.side loc) (MBORecord.side r))
      then
        match side_of_char (OrderBook.side loc) with
        | None => b
        | Some s0 =>
            let b1 := take_order s0 (OrderBook.price loc)
                        (MBORecord.order_id r) b in
            match side_of_char (MBORecord.side r) with
            | None => b1
            | Some s =>
                changed (put_order s (MBORecord.price r) (MBORecord.order_id r)
                           (MBORecord.size r) (MBORecord.side r) b1)
            end
        end
      else
        match side_of_char (MBORecord.side r) with
        | None => b
        | Some s =>
            changed (resize_order s (MBORecord.price r) (MBORecord.order_id r)
                       (MBORecord.size r) b)
        end
  end.

Definition step (r : MBORecord.t) (b : OrderBook.t) : OrderBook.t :=
  if negb (MBORecord.IsValid r) then b
  else if Ascii.eqb (MBORecord.action r) ACTION_ADD then add_step r b
  else if Ascii.eqb (MBORecord.action r) ACTION_CANCEL then cancel_step r b
  else if Ascii.eqb (MBORecord.action r) ACTION_MODIFY then modify_step r b
  else if Ascii.eqb (MBORecord.action r) ACTION_CLEAR then changed (clear_book b)
  else b.

(** An event that cannot trigger the failing move of a Modify: it is not
    a Modify, or its side is one [GetOrCreateLevel] accepts. *)
Definition two_sided (r : MBORecord.t) : Prop :=
  MBORecord.action r ≠ ACTION_MODIFY ∨ is_Some (side_of_char (MBORecord.side r)).

(** The aggregates of every level are not negative. *)
Definition level_unsigned (level : PriceLevel.t) : Prop :=
  0 ≤ PriceLevel.total_size level ∧ 0 ≤ PriceLevel.order_count level.

Definition levels_unsigned (b : OrderBook.t) : Prop :=
  map_Forall (λ _ level, level_unsigned level) (OrderBook.bids_ b)
  ∧ map_Forall (λ _ level, level_unsigned level) (OrderBook.asks_ b).

(** No order rests in any level under the id [oid]. *)
Definition not_resting (oid : Z) (b : OrderBook.t) : Prop :=
  ∀ s p level, OrderBook.levels s b !! p = Some level →
               PriceLevel.orders level !! oid = None.

(** The predicates above are decidable, so that a concrete book can be
    checked by computation. *)

Global Instance level_shape_dec n p level : Decision (level_shape n p level).
Proof. unfold level_shape, level_sum_u32. apply _. Defined.

Global Instance index_entry_valid_dec oid loc :
  Decision (index_entry_valid oid loc).
Proof. unfold index_entry_valid. apply _. Defined.

Global Instance index_entry_coherent_dec b oid loc :
  Decision (index_entry_coherent b oid loc).
Proof.
  unfold index_entry_coherent.
  destruct (side_of_char (OrderBook.side loc)) as [s |]; [| apply _].
  destruct (OrderBook.levels s b !! OrderBook.price loc) as [level |]; [| apply _].
  destruct (PriceLevel.orders level !! oid); apply _.
Defined.

Global Instance levels_indexed_dec s b : Decision (levels_indexed s b).
Proof. unfold levels_indexed. apply _. Defined.

Global Instance coherent_dec b : Decision (coherent b).
Proof. unfold coherent. apply _. Defined.

Global Instance book_inv_dec n b : Decision (book_inv n b).
Proof. unfold book_inv. apply _. Defined.

Global Instance no_empty_level_dec m : Decision (no_empty_level m).
Proof. unfold no_empty_level. apply _. Defined.

Global Instance book_wf_dec b : Decision (book_wf b).
Proof. unfold book_wf. apply _. Defined.

(** Every entry of the index but the one of [oid] is coherent. *)
Definition coherent_except (oid : Z) (b : OrderBook.t) : Prop :=
  ∀ o loc, o ≠ oid → OrderBook.order_lookup_ b !! o = Some loc →
           index_entry_coherent b o loc.

Definition no_empty_levels (b : OrderBook.t) : Prop :=
  ∀ s, no_empty_level (OrderBook.levels s b).

(** Coherence of the index entries and no empty level at rest: the part
    of the data model that a failed move of a Modify breaks. *)
Definition strong (b : OrderBook.t) : Prop :=
  map_Forall (index_entry_coherent b) (OrderBook.order_lookup_ b)
  ∧ no_empty_levels b.

Definition compact_unsigned (c : CompactPriceLevel.t) : Prop :=
  0 ≤ CompactPriceLevel.size c ∧ 0 ≤ CompactPriceLevel.count c.

(** Unfolding the monad and the operations of the book. *)
Ltac run_monad :=
  unfold mbind, M_bind, mret, M_ret, throw, get, gets, modify, state_after,
    threw, MBOProcessor.on_book in *; simpl in *.

Ltac unfold_book_ops :=
  unfold OrderBook.AddOrder, OrderBook.CancelOrder, OrderBook.ModifyOrder,
    OrderBook.Clear, OrderBook.GetOrCreateLevel, OrderBook.update_level,
    OrderBook.RemoveEmptyLevel, OrderBook.MarkChanged,
    add_step, cancel_step, modify_step, put_order, take_order, forget_order,
    resize_order, clear_book, changed, side_of_char.

(** ** Specification predicates for the parsing helpers and the records *)

(** How many times a character occurs in a string, and whether it does. *)
Fixpoint count_char (c : ascii) (s : string) : nat :=
  match s with
  | EmptyString => 0
  | String c' rest => (if Ascii.eqb c' c then 1 else 0) + count_char c rest
  end.

(** The decimal digits of a string, in order, other characters left out. *)
Fixpoint digits_of (s : string) : list Z :=
  match s with
  | EmptyString => []
  | String c rest =>
      if utils.is_digit c then utils.digit_value c :: digits_of rest
      else digits_of rest
  end.

(** The number a sequence of digits denotes, most significant first. *)
Fixpoint decimal (digits : list Z) : Z :=
  match digits with
  | [] => 0
  | d :: rest => d * 10 ^ Z.of_nat (length rest) + decimal rest
  end.

(** The six arrays of a snapshot have their [MBP_LEVELS] entries. *)
Definition arrays_ok (r : MBPRecord.t) : Prop :=
  length (MBPRecord.bid_prices r) = MBP_LEVELS
  ∧ length (MBPRecord.bid_sizes r) = MBP_LEVELS
  ∧ length (MBPRecord.bid_counts r) = MBP_LEVELS
  ∧ length (MBPRecord.ask_prices r) = MBP_LEVELS
  ∧ length (MBPRecord.ask_sizes r) = MBP_LEVELS
  ∧ length (MBPRecord.ask_counts r) = MBP_LEVELS.

(** What [ValidateConsistency] checks: every entry of the index names a
    side and a level of that side that holds the order, and every order of
    every level is in the index with that level's price and side. *)
Definition index_entry_found (b : OrderBook.t) (oid : Z)
    (loc : OrderBook.OrderLocation) : Prop :=
  ∃ s level,
    side_of_char (OrderBook.side loc) = Some s
    ∧ OrderBook.levels s b !! OrderBook.price loc = Some level
    ∧ is_Some (PriceLevel.orders level !! oid).

Definition consistent (b : OrderBook.t) : Prop :=
  map_Forall (index_entry_found b) (OrderBook.order_lookup_ b)
  ∧ levels_indexed Bid b ∧ levels_indexed Ask b.

(** The fields of a snapshot other than its level arrays. *)
Definition header_fields (r : MBPRecord.t) :=
  (MBPRecord.ts_recv r, MBPRecord.ts_event r, MBPRecord.rtype r,
   MBPRecord.publisher_id r, MBPRecord.instrument_id r, MBPRecord.action r,
   MBPRecord.side r, MBPRecord.depth r, MBPRecord.price r, MBPRecord.size r,
   MBPRecord.flags r, MBPRecord.ts_in_delta r, MBPRecord.sequence r,
   MBPRecord.symbol r, MBPRecord.order_id r).

(** ** The value or exception of [Apply], as a function

    [outcome] is what [Apply] returns or throws, written without the
    monad, beside [step] for the state it leaves; [Apply_outcome] below
    proves that it is. *)

Definition add_outcome (r : MBORecord.t) (b : OrderBook.t) : exception + unit :=
  match OrderBook.order_lookup_ b !! MBORecord.order_id r with
  | Some _ => inl (runtime_error "Order ID already exists")
  | None =>
      match side_of_char (MBORecord.side r) with
      | Some _ => inr tt
      | None => inl (invalid_argument "Invalid side")
      end
  end.

Definition cancel_outcome (r : MBORecord.t) (b : OrderBook.t)
    : exception + unit :=
  match OrderBook.order_lookup_ b !! MBORecord.order_id r with
  | None => inr tt
  | Some loc =>
      match side_of_char (OrderBook.side loc) with
      | Some _ => inr tt
      | None => inl (invalid_argument "Invalid side")
      end
  end.

Definition modify_outcome (r : MBORecord.t) (b : OrderBook.t)
    : exception + unit :=
  match OrderBook.order_lookup_ b !! MBORecord.order_id r with
  | None => add_outcome r b
  | Some loc =>
      if negb (OrderBook.price loc =? MBORecord.price r)
         || negb (Ascii.eqb (OrderBook.side loc) (MBORecord.side r))
      then
        match side_of_char (OrderBook.side loc),
              side_of_char (MBORecord.side r) with
        | Some _, Some _ => inr tt
        | _, _ => inl (invalid_argument "Invalid side")
        end
      else
        match side_of_char (MBORecord.side r) with
        | Some _ => inr tt
        | None => inl (invalid_argument "Invalid side")
        end
  end.

Definition outcome (r : MBORecord.t) (b : OrderBook.t) : exception + unit :=
  if negb (MBORecord.IsValid r)
  then inl (invalid_argument "Invalid MBO record")
  else if Ascii.eqb (MBORecord.action r) ACTION_ADD then add_outcome r b
  else if Ascii.eqb (MBORecord.action r) ACTION_CANCEL then cancel_outcome r b
  else if Ascii.eqb (MBORecord.action r) ACTION_MODIFY then modify_outcome r b
  else if Ascii.eqb (MBORecord.action r) ACTION_CLEAR then inr tt
  else if Ascii.eqb (MBORecord.action r) ACTION_TRADE
          || Ascii.eqb (MBORecord.action r) ACTION_FILL
          || Ascii.eqb (MBORecord.action r) ACTION_NONE then inr tt
  else inl (invalid_argument "Unknown action").

(** The size an order rests with, through the index and the level it
    points at; [None] when the index does not hold it or points at a
    level that is not there. *)
Definition resting_size (b : OrderBook.t) (oid : Z) : option Z :=
  match OrderBook.order_lookup_ b !! oid with
  | None => None
  | Some loc =>
      match OrderBook.GetLevel (OrderBook.side loc) (OrderBook.price loc) b with
      | inr level => PriceLevel.orders level !! oid
      | inl _ => None
      end
  end.

(** The part of the book the events act on: the two side books and the
    order index. *)
Definition same_book (b1 b2 : OrderBook.t) : Prop :=
  OrderBook.bids_ b1 = OrderBook.bids_ b2
  ∧ OrderBook.asks_ b1 = OrderBook.asks_ b2
  ∧ OrderBook.order_lookup_ b1 = OrderBook.order_lookup_ b2.

(** ** What [ProcessRecord] writes

    The book a record leaves in the processor before the dirty flag is
    reset: Clear goes through [HandleSpecialCase], everything else
    through [Apply]. *)
Definition book_after (record : MBORecord.t) (b : OrderBook.t) : OrderBook.t :=
  if Ascii.eqb (MBORecord.action record) ACTION_CLEAR
  then changed (clear_book b) else step record b.

(** The actions [ProcessRecord] generates output for. *)
Definition emitting (action : ascii) : bool :=
  Ascii.eqb action ACTION_ADD || Ascii.eqb action ACTION_CANCEL
  || Ascii.eqb action ACTION_CLEAR || Ascii.eqb action ACTION_TRADE.

Definition returns {A} (o : exception + A) : bool :=
  match o with inr _ => true | inl _ => false end.

(** Whether [ProcessRecord] gets as far as calling [WriteMBPRecord]. *)
Definition attempts_row (record : MBORecord.t) (p : MBOProcessor.t) : bool :=
  let b := MBOProcessor.order_book_ p in
  Ascii.eqb (MBORecord.action record) ACTION_CLEAR
  || (returns (outcome record b) && emitting (MBORecord.action record)
      && OrderBook.HasChanges (step record b)).

(** Whether that call appends a row. *)
Definition writes_row (record : MBORecord.t) (p : MBOProcessor.t) : bool :=
  attempts_row record p
  && passes_validation p
       (snapshot_of record (book_after record (MBOProcessor.order_book_ p))).

(** The rows carry the indices 0, 1, 2, ... and the row counter is the
    number of rows. *)
Definition rows_numbered (p : MBOProcessor.t) : Prop :=
  MBOProcessor.mbp_record_count_ p = Z.of_nat (length (MBOProcessor.output p))
  ∧ (MBOProcessor.output p).*1
    = Z.of_nat <$> seq 0 (length (MBOProcessor.output p)).

Ltac unfold_outcomes :=
  unfold add_outcome, cancel_outcome, modify_outcome.

(** * Verification *)

(** ** Calls that leave the book alone or throw at once *)

Lemma Apply_cancel_unknown (record : MBORecord.t) (b : OrderBook.t) :
  MBORecord.action record = ACTION_CANCEL →
  MBORecord.IsValid record = true →
  OrderBook.order_lookup_ b !! MBORecord.order_id record = None →
  OrderBook.Apply record b = (inr tt, b).
Proof.
  intros Ha Hv Hl. unfold OrderBook.Apply. rewrite Hv, Ha. simpl.
  unfold OrderBook.CancelOrder. run_monad. rewrite Hl. reflexivity.
Qed.

Lemma Apply_trade (record : MBORecord.t) (b : OrderBook.t) :
  MBORecord.action record = ACTION_TRADE →
  MBORecord.IsValid record = true →
  OrderBook.Apply record b = (inr tt, b).
Proof.
  intros Ha Hv. unfold OrderBook.Apply. rewrite Hv, Ha. reflexivity.
Qed.

(** What [ProcessRecord] does after an [Apply] that returned without
    touching the book, for an action of the emitting set other than
    Clear. *)
Lemma ProcessRecord_untouched (record : MBORecord.t) (p : MBOProcessor.t) :
  (MBORecord.action record = ACTION_CANCEL ∨ MBORecord.action record = ACTION_TRADE) →
  OrderBook.Apply record (MBOProcessor.order_book_ p) = (inr tt, MBOProcessor.order_book_ p) →
  let b := MBOProcessor.order_book_ p in
  let after := state_after (MBOProcessor.ProcessRecord record p) in
  OrderBook.bids_ (MBOProcessor.order_book_ after) = OrderBook.bids_ b
  ∧ OrderBook.asks_ (MBOProcessor.order_book_ after) = OrderBook.asks_ b
  ∧ OrderBook.order_lookup_ (MBOProcessor.order_book_ after) = OrderBook.order_lookup_ b
  ∧ MBOProcessor.output after =
      if OrderBook.HasChanges b && passes_validation p (snapshot_of record b)
      then MBOProcessor.output p ++ [(MBOProcessor.mbp_record_count_ p, snapshot_of record b)]
      else MBOProcessor.output p.
Proof.
  intros Ha Happ b after. subst after b.
  unfold MBOProcessor.ProcessRecord, MBOProcessor.HandleSpecialCase.
  unfold OrderBook.HasChanges, passes_validation, snapshot_of.
  unfold MBOProcessor.CreateMBPRecord, OrderBook.GetTopBids, OrderBook.GetTopAsks,
    MBOProcessor.WriteMBPRecord, MBOProcessor.ValidateMBPRecord,
    OrderBook.ResetChanges, OrderBook.iterate_bids, OrderBook.iterate_asks.
  destruct p as [b out rc mc v]; simpl in *.
  destruct Ha as [Ha | Ha]; rewrite Ha; run_monad; rewrite Happ; simpl;
    (destruct (OrderBook.has_changes_ b) eqn:Hd; simpl; [| by destruct b]);
    (destruct v; simpl; [| done]);
    destruct (MBOProcessor.validation_error _) eqn:Hval; done.
Qed.

Lemma Apply_invalid (record : MBORecord.t) (b : OrderBook.t) :
  MBORecord.IsValid record = false →
  OrderBook.Apply record b = (inl (invalid_argument "Invalid MBO record"), b).
Proof. intros Hv. unfold OrderBook.Apply. rewrite Hv. reflexivity. Qed.

Lemma Apply_duplicate_add (record : MBORecord.t) (b : OrderBook.t) :
  MBORecord.action record = ACTION_ADD →
  MBORecord.IsValid record = true →
  is_Some (OrderBook.order_lookup_ b !! MBORecord.order_id record) →
  OrderBook.Apply record b = (inl (runtime_error "Order ID already exists"), b).
Proof.
  intros Ha Hv [loc Hl]. unfold OrderBook.Apply. rewrite Hv, Ha. simpl.
  unfold OrderBook.AddOrder. run_monad. rewrite Hl. reflexivity.
Qed.

(** [ProcessRecord] lets an exception of [Apply] through, before it has
    counted the record or written anything. *)
Lemma ProcessRecord_Apply_throws (record : MBORecord.t) (p : MBOProcessor.t)
    (e : exception) :
  Ascii.eqb (MBORecord.action record) ACTION_CLEAR = false →
  OrderBook.Apply record (MBOProcessor.order_book_ p)
    = (inl e, MBOProcessor.order_book_ p) →
  MBOProcessor.ProcessRecord record p = (inl e, p).
Proof.
  intros Hc Happ.
  unfold MBOProcessor.ProcessRecord, MBOProcessor.HandleSpecialCase.
  rewrite Hc. run_monad. rewrite Happ. simpl. by destruct p.
Qed.

Lemma copy_bid_levels_depth i levels r :
  MBPRecord.depth (MBPRecord.copy_bid_levels i levels r) = MBPRecord.depth r.
Proof.
  revert i r. induction levels as [| l rest IH]; intros i r; simpl; [done |].
  destruct (i <? MBP_LEVELS)%nat eqn:Hi; [| done].
  rewrite IH. unfold MBPRecord.SetBidLevel. by rewrite Hi.
Qed.

Lemma copy_ask_levels_depth i levels r :
  MBPRecord.depth (MBPRecord.copy_ask_levels i levels r) = MBPRecord.depth r.
Proof.
  revert i r. induction levels as [| l rest IH]; intros i r; simpl; [done |].
  destruct (i <? MBP_LEVELS)%nat eqn:Hi; [| done].
  rewrite IH. unfold MBPRecord.SetAskLevel. by rewrite Hi.
Qed.

Lemma snapshot_depth (record : MBORecord.t) (b : OrderBook.t) :
  MBPRecord.depth (snapshot_of record b)
  = if Ascii.eqb (MBORecord.action record) ACTION_CANCEL then 1 else 0.
Proof.
  unfold snapshot_of, MBPRecord.FromOrderBook.
  by rewrite copy_ask_levels_depth, copy_bid_levels_depth.
Qed.

Lemma iterate_bids_empty (b : OrderBook.t) :
  OrderBook.bids_ b = ∅ → OrderBook.iterate_bids b = [].
Proof.
  intros H. unfold OrderBook.iterate_bids. rewrite H, map_to_list_empty.
  reflexivity.
Qed.

Lemma iterate_asks_empty (b : OrderBook.t) :
  OrderBook.asks_ b = ∅ → OrderBook.iterate_asks b = [].
Proof.
  intros H. unfold OrderBook.iterate_asks. rewrite H, map_to_list_empty.
  reflexivity.
Qed.

(** The snapshot of an empty book has every slot empty, and passes the
    validation whenever the event is a valid one. *)
Lemma snapshot_of_empty_book (record : MBORecord.t) (b : OrderBook.t) :
  OrderBook.bids_ b = ∅ → OrderBook.asks_ b = ∅ →
  let r := snapshot_of record b in
  MBPRecord.bid_prices r = replicate MBP_LEVELS kUndefPrice
  ∧ MBPRecord.bid_sizes r = replicate MBP_LEVELS 0
  ∧ MBPRecord.bid_counts r = replicate MBP_LEVELS 0
  ∧ MBPRecord.ask_prices r = replicate MBP_LEVELS kUndefPrice
  ∧ MBPRecord.ask_sizes r = replicate MBP_LEVELS 0
  ∧ MBPRecord.ask_counts r = replicate MBP_LEVELS 0
  ∧ (MBORecord.IsValid record = true → MBOProcessor.validation_error r = None).
Proof.
  intros Hb Ha. unfold snapshot_of.
  rewrite (iterate_bids_empty b Hb), (iterate_asks_empty b Ha). simpl.
  repeat split.
  intros Hv. unfold MBOProcessor.validation_error. simpl.
  unfold MBORecord.IsValid in Hv.
  apply andb_prop in Hv as [Hv _]. apply andb_prop in Hv as [Hv _].
  apply andb_prop in Hv as [Hact Hside]. rewrite Hact, Hside. reflexivity.
Qed.

(** ** [Apply] and its effect *)

Lemma AddOrder_step (r : MBORecord.t) (b : OrderBook.t) :
  state_after (OrderBook.AddOrder r b) = add_step r b.
Proof.
  unfold_book_ops. run_monad.
  destruct (OrderBook.order_lookup_ b !! MBORecord.order_id r); [done |].
  destruct (Ascii.eqb (MBORecord.side r) BID_SIDE); [by destruct b |].
  destruct (Ascii.eqb (MBORecord.side r) ASK_SIDE); [by destruct b |].
  done.
Qed.

Lemma CancelOrder_step (r : MBORecord.t) (b : OrderBook.t) :
  state_after (OrderBook.CancelOrder r b) = cancel_step r b.
Proof.
  unfold_book_ops. run_monad.
  destruct (OrderBook.order_lookup_ b !! MBORecord.order_id r) as [loc |]; [| done].
  destruct (Ascii.eqb (OrderBook.side loc) BID_SIDE); [by destruct b |].
  destruct (Ascii.eqb (OrderBook.side loc) ASK_SIDE); [by destruct b |].
  done.
Qed.

Lemma ModifyOrder_step (r : MBORecord.t) (b : OrderBook.t) :
  state_after (OrderBook.ModifyOrder r b) = modify_step r b.
Proof.
  pose proof (AddOrder_step r b) as Hadd.
  unfold OrderBook.ModifyOrder, modify_step. run_monad.
  destruct (OrderBook.order_lookup_ b !! MBORecord.order_id r) as [loc |];
    [| exact Hadd].
  clear Hadd. unfold_book_ops. run_monad.
  destruct (negb (OrderBook.price loc =? MBORecord.price r)
            || negb (Ascii.eqb (OrderBook.side loc) (MBORecord.side r))); simpl.
  - destruct (Ascii.eqb (OrderBook.side loc) BID_SIDE);
      [| destruct (Ascii.eqb (OrderBook.side loc) ASK_SIDE); [| done]];
      (destruct (Ascii.eqb (MBORecord.side r) BID_SIDE); [by destruct b |]);
      (destruct (Ascii.eqb (MBORecord.side r) ASK_SIDE); [by destruct b |]);
      by destruct b.
  - destruct (Ascii.eqb (MBORecord.side r) BID_SIDE); [by destruct b |].
    destruct (Ascii.eqb (MBORecord.side r) ASK_SIDE); [by destruct b |].
    done.
Qed.

Theorem Apply_step (r : MBORecord.t) (b : OrderBook.t) :
  state_after (OrderBook.Apply r b) = step r b.
Proof.
  unfold OrderBook.Apply, step.
  destruct (negb (MBORecord.IsValid r)); [done |].
  destruct (Ascii.eqb (MBORecord.action r) ACTION_ADD); [apply AddOrder_step |].
  destruct (Ascii.eqb (MBORecord.action r) ACTION_CANCEL); [apply CancelOrder_step |].
  destruct (Ascii.eqb (MBORecord.action r) ACTION_MODIFY); [apply ModifyOrder_step |].
  destruct (Ascii.eqb (MBORecord.action r) ACTION_CLEAR); [by destruct b |].
  destruct (Ascii.eqb (MBORecord.action r) ACTION_TRADE
            || Ascii.eqb (MBORecord.action r) ACTION_FILL
            || Ascii.eqb (MBORecord.action r) ACTION_NONE); done.
Qed.

Lemma apply_all_steps (records : list MBORecord.t) (b : OrderBook.t) :
  OrderBook.apply_all records b = foldl (λ b r, step r b) b records.
Proof.
  unfold OrderBook.apply_all. revert b.
  induction records as [| r rest IH]; intros b; simpl; [done |].
  by rewrite Apply_step, IH.
Qed.

(** ** Arithmetic modulo 2^32 and sums over the orders of a level *)

Lemma u32_add_l a b : u32 (u32 a + b) = u32 (a + b).
Proof. unfold u32. apply Zplus_mod_idemp_l. Qed.

Lemma u32_sub_l a b : u32 (u32 a - b) = u32 (a - b).
Proof. unfold u32. apply Zminus_mod_idemp_l. Qed.

Lemma u32_small a : 0 ≤ a < 2 ^ 32 → u32 a = a.
Proof. unfold u32. apply Z.mod_small. Qed.

Lemma u32_range a : 0 ≤ u32 a < 2 ^ 32.
Proof. unfold u32. apply Z.mod_pos_bound. lia. Qed.

Lemma sum_sizes_empty : sum_sizes ∅ = 0.
Proof. unfold sum_sizes. apply map_fold_empty. Qed.

Lemma sum_sizes_insert (m : gmap Z Z) i x :
  m !! i = None → sum_sizes (<[i := x]> m) = x + sum_sizes m.
Proof.
  intros Hi. unfold sum_sizes.
  apply (map_fold_insert_L (λ _ sz acc, sz + acc)); [| done].
  intros. lia.
Qed.

Lemma sum_sizes_delete (m : gmap Z Z) i x :
  m !! i = Some x → sum_sizes m = x + sum_sizes (delete i m).
Proof.
  intros Hi. unfold sum_sizes.
  apply (map_fold_delete_L (λ _ sz acc, sz + acc)); [| done].
  intros. lia.
Qed.

Lemma sum_sizes_overwrite (m : gmap Z Z) i old x :
  m !! i = Some old → sum_sizes (<[i := x]> m) = sum_sizes m - old + x.
Proof.
  intros Hi. rewrite <- insert_delete_eq.
  rewrite sum_sizes_insert by apply lookup_delete_eq.
  rewrite (sum_sizes_delete m i old Hi). lia.
Qed.

(** ** The operations of a level keep its shape *)

Lemma level_shape_mono n n' p level :
  n ≤ n' → level_shape n p level → level_shape n' p level.
Proof.
  intros Hn (Hp & Hu & Hs & Hsize & Hpos).
  split; [done |]. split; [done |]. split; [done |]. split; [lia | done].
Qed.

Lemma init_level_None p :
  init_level p None
  = {| PriceLevel.price := p; PriceLevel.total_size := 0;
       PriceLevel.order_count := 0; PriceLevel.orders := ∅ |}.
Proof. reflexivity. Qed.

Lemma init_level_Some p level :
  PriceLevel.price level ≠ kUndefPrice → init_level p (Some level) = level.
Proof.
  intros Hp. unfold init_level. simpl.
  destruct (Z.eqb_spec (PriceLevel.price level) kUndefPrice); done.
Qed.

Lemma init_level_shape n p :
  0 ≤ n → p ≠ kUndefPrice → level_shape n p (init_level p None).
Proof.
  intros Hn Hp. rewrite init_level_None.
  split; [done |]. split; [done |].
  split; [split; simpl; [by rewrite sum_sizes_empty | done] |].
  split; simpl; [rewrite map_size_empty; lia | apply map_Forall_empty].
Qed.

(** The level [GetOrCreateLevel] hands out, in a book whose levels have
    the shape: the resting level, or a fresh one at that price. *)
Lemma init_level_lookup_shape n p (m : gmap Z PriceLevel.t) :
  0 ≤ n → p ≠ kUndefPrice → map_Forall (level_shape n) m →
  level_shape n p (init_level p (m !! p))
  ∧ (∀ o z, PriceLevel.orders (init_level p (m !! p)) !! o = Some z →
            ∃ level, m !! p = Some level ∧ PriceLevel.orders level !! o = Some z).
Proof.
  intros Hn Hp Hm. destruct (m !! p) as [level |] eqn:Hl.
  - pose proof (Hm _ _ Hl) as Hs. destruct Hs as (Hpr & Hs).
    rewrite init_level_Some by congruence.
    split; [by split | eauto].
  - split; [by apply init_level_shape |].
    intros o z. rewrite init_level_None. simpl. by rewrite lookup_empty.
Qed.

Lemma AddOrder_shape n p level oid sz :
  level_shape n p level → PriceLevel.orders level !! oid = None →
  0 < sz → n + 1 < 2 ^ 32 →
  level_shape (n + 1) p (PriceLevel.AddOrder oid sz level).
Proof.
  intros (Hp & Hu & (Ht & Hc) & Hn & Hpos) Hfresh Hsz Hbound.
  unfold PriceLevel.AddOrder, level_shape, level_sum_u32. simpl.
  split; [done |]. split; [done |].
  rewrite map_size_insert, Hfresh, sum_sizes_insert by done.
  repeat split.
  - rewrite Ht, u32_add_l. f_equal. lia.
  - rewrite Hc. rewrite u32_small by lia. lia.
  - lia.
  - by apply map_Forall_insert_2.
Qed.

Lemma RemoveOrder_orders oid level o :
  PriceLevel.orders (PriceLevel.RemoveOrder oid level) !! o
  = if decide (oid = o) then None else PriceLevel.orders level !! o.
Proof.
  unfold PriceLevel.RemoveOrder.
  destruct (PriceLevel.orders level !! oid) as [sz |] eqn:Ho.
  - assert (PriceLevel.orders
              (if u32 (PriceLevel.order_count level - 1) =? 0
               then {| PriceLevel.price := kUndefPrice; PriceLevel.total_size := 0;
                       PriceLevel.order_count := u32 (PriceLevel.order_count level - 1);
                       PriceLevel.orders := delete oid (PriceLevel.orders level) |}
               else {| PriceLevel.price := PriceLevel.price level;
                       PriceLevel.total_size := u32 (PriceLevel.total_size level - sz);
                       PriceLevel.order_count := u32 (PriceLevel.order_count level - 1);
                       PriceLevel.orders := delete oid (PriceLevel.orders level) |})
            = delete oid (PriceLevel.orders level)) as ->
      by (destruct (u32 (PriceLevel.order_count level - 1) =? 0); done).
    apply lookup_delete.
  - case_decide; [by subst | done].
Qed.

Lemma RemoveOrder_shape n p level oid :
  level_shape n p level → n < 2 ^ 32 →
  PriceLevel.IsEmpty (PriceLevel.RemoveOrder oid level) = false →
  level_shape n p (PriceLevel.RemoveOrder oid level).
Proof.
  intros (Hp & Hu & (Ht & Hc) & Hn & Hpos) Hbound.
  unfold PriceLevel.RemoveOrder.
  destruct (PriceLevel.orders level !! oid) as [sz |] eqn:Ho;
    [| intros _; by repeat split].
  destruct (Z.eqb_spec (u32 (PriceLevel.order_count level - 1)) 0) as [Hz | Hz].
  { unfold PriceLevel.IsEmpty. simpl. discriminate. }
  intros _. unfold level_shape, level_sum_u32. simpl.
  pose proof (map_size_delete oid (PriceLevel.orders level)) as Hsize.
  rewrite Ho in Hsize. simpl in Hsize.
  assert (size (PriceLevel.orders level) ≠ 0%nat) as Hne.
  { intros H0. apply map_size_empty_inv in H0. rewrite H0 in Ho.
    by rewrite lookup_empty in Ho. }
  repeat split; try done.
  - rewrite Ht, u32_sub_l. f_equal.
    rewrite (sum_sizes_delete _ _ _ Ho). lia.
  - rewrite Hc, Hsize. rewrite u32_small by lia. lia.
  - rewrite Hsize. lia.
  - intros o z Hoz. apply lookup_delete_Some in Hoz as [_ Hoz]. by eapply Hpos.
Qed.

Lemma ModifyOrder_orders oid sz level o :
  PriceLevel.orders (PriceLevel.ModifyOrder oid sz level) !! o
  = if decide (oid = o)
    then (λ _, sz) <$> PriceLevel.orders level !! oid
    else PriceLevel.orders level !! o.
Proof.
  unfold PriceLevel.ModifyOrder.
  destruct (PriceLevel.orders level !! oid) as [old |] eqn:Ho; simpl.
  - apply lookup_insert.
  - case_decide; [by subst | done].
Qed.

Lemma ModifyOrder_shape n p level oid sz :
  level_shape n p level → 0 < sz →
  level_shape n p (PriceLevel.ModifyOrder oid sz level).
Proof.
  intros (Hp & Hu & (Ht & Hc) & Hn & Hpos) Hsz.
  unfold PriceLevel.ModifyOrder.
  destruct (PriceLevel.orders level !! oid) as [old |] eqn:Ho;
    [| by repeat split].
  unfold level_shape, level_sum_u32. simpl.
  rewrite map_size_insert, Ho. simpl.
  repeat split; try done.
  - rewrite Ht, u32_sub_l, u32_add_l. f_equal.
    by rewrite (sum_sizes_overwrite _ _ _ _ Ho).
  - by apply map_Forall_insert_2.
Qed.

(** ** Lookups in the maps the operations build *)

Lemma lookup_touch_level p (m : gmap Z PriceLevel.t) q :
  OrderBook.touch_level p m !! q
  = if decide (p = q) then Some (init_level p (m !! p)) else m !! q.
Proof. unfold OrderBook.touch_level. apply lookup_insert. Qed.

Lemma lookup_alter_touch f p (m : gmap Z PriceLevel.t) q :
  alter f p (OrderBook.touch_level p m) !! q
  = if decide (p = q) then Some (f (init_level p (m !! p))) else m !! q.
Proof.
  rewrite lookup_alter, !lookup_touch_level.
  case_decide; [| done]. by rewrite decide_True.
Qed.

Lemma lookup_erase_if_empty p (m : gmap Z PriceLevel.t) q :
  OrderBook.erase_if_empty p m !! q
  = if decide (p = q)
    then match m !! p with
         | Some level => if PriceLevel.IsEmpty level then None else Some level
         | None => None
         end
    else m !! q.
Proof.
  unfold OrderBook.erase_if_empty.
  destruct (m !! p) as [level |] eqn:Hp.
  - destruct (PriceLevel.IsEmpty level).
    + rewrite lookup_delete. by case_decide.
    + case_decide; [by subst | done].
  - case_decide; [by subst | done].
Qed.

Lemma lookup_take_map oid p (m : gmap Z PriceLevel.t) q :
  OrderBook.erase_if_empty p
    (alter (PriceLevel.RemoveOrder oid) p (OrderBook.touch_level p m)) !! q
  = if decide (p = q)
    then let level := PriceLevel.RemoveOrder oid (init_level p (m !! p)) in
         if PriceLevel.IsEmpty level then None else Some level
    else m !! q.
Proof.
  rewrite lookup_erase_if_empty, !lookup_alter_touch.
  case_decide; [| done]. by rewrite decide_True.
Qed.

(** ** The two sides of the book *)

Lemma levels_set_levels s s' m b :
  OrderBook.levels s (OrderBook.set_levels s' m b)
  = if decide (s = s') then m else OrderBook.levels s b.
Proof. by destruct s, s'. Qed.

Lemma side_of_char_Some c s : side_of_char c = Some s → c = side_char s.
Proof.
  unfold side_of_char.
  destruct (Ascii.eqb_spec c BID_SIDE) as [-> |]; [by intros [= <-] |].
  destruct (Ascii.eqb_spec c ASK_SIDE) as [-> |]; [by intros [= <-] |].
  done.
Qed.

Lemma side_of_char_side_char s : side_of_char (side_char s) = Some s.
Proof. by destruct s. Qed.

Lemma side_char_inj s s' : side_char s = side_char s' → s = s'.
Proof. by destruct s, s'. Qed.

(** The invariant, with the two sides under one quantifier. *)
Lemma book_inv_sides n b :
  book_inv n b ↔
  (∀ s q level, OrderBook.levels s b !! q = Some level →
     level_shape n q level
     ∧ ∀ o z, PriceLevel.orders level !! o = Some z →
         OrderBook.order_lookup_ b !! o
         = Some (OrderBook.Loc q (side_char s)))
  ∧ map_Forall index_entry_valid (OrderBook.order_lookup_ b).
Proof.
  unfold book_inv, levels_indexed. split.
  - intros (Hb & Ha & Hib & Hia & Hv). split; [| done].
    intros [] q level Hq; split; eauto.
    + intros o z Hoz. exact (Hib _ _ Hq _ _ Hoz).
    + intros o z Hoz. exact (Hia _ _ Hq _ _ Hoz).
  - intros (Hl & Hv).
    split; [intros q level Hq; exact (proj1 (Hl Bid _ _ Hq)) |].
    split; [intros q level Hq; exact (proj1 (Hl Ask _ _ Hq)) |].
    split; [intros q level Hq o z Hoz; exact (proj2 (Hl Bid _ _ Hq) _ _ Hoz) |].
    split; [intros q level Hq o z Hoz; exact (proj2 (Hl Ask _ _ Hq) _ _ Hoz) |].
    done.
Qed.

Lemma book_inv_shape n b s :
  book_inv n b → map_Forall (level_shape n) (OrderBook.levels s b).
Proof.
  intros Hinv q level Hq.
  exact (proj1 (proj1 (proj1 (book_inv_sides n b) Hinv) s q level Hq)).
Qed.

Lemma book_inv_mono n n' b : n ≤ n' → book_inv n b → book_inv n' b.
Proof.
  intros Hn Hinv. apply book_inv_sides in Hinv as (Hl & Hv).
  apply book_inv_sides. split; [| done].
  intros s q level Hq. destruct (Hl s q level Hq) as (Hs & Hi).
  split; [by eapply level_shape_mono | done].
Qed.

Lemma book_inv_changed n b : book_inv n b → book_inv n (changed b).
Proof. by destruct b. Qed.

Lemma book_inv_new : book_inv 0 OrderBook.new.
Proof.
  unfold book_inv, levels_indexed. simpl.
  repeat (split; [apply map_Forall_empty |]). apply map_Forall_empty.
Qed.

Lemma book_inv_clear n b : book_inv n (clear_book b).
Proof.
  unfold book_inv, levels_indexed. simpl.
  repeat (split; [apply map_Forall_empty |]). apply map_Forall_empty.
Qed.

(** An order that is not in the index rests nowhere. *)
Lemma not_resting_unindexed n b oid :
  book_inv n b → OrderBook.order_lookup_ b !! oid = None → not_resting oid b.
Proof.
  intros Hinv Hnone s p level Hp.
  apply book_inv_sides in Hinv as (Hl & _).
  destruct (PriceLevel.orders level !! oid) as [z |] eqn:Ho; [| done].
  pose proof (proj2 (Hl s p level Hp) _ _ Ho) as Hsome. congruence.
Qed.

(** ** The operations of the book keep the invariant *)

Lemma put_order_inv n b s p oid sz c :
  book_inv n b → not_resting oid b → side_of_char c = Some s →
  p ≠ kUndefPrice → 0 < sz → 0 ≤ n → n + 1 < 2 ^ 32 →
  book_inv (n + 1) (put_order s p oid sz c b).
Proof.
  intros Hinv Hfree Hc Hp Hsz Hn Hbound.
  apply side_of_char_Some in Hc as Hcs.
  pose proof (book_inv_shape n b s Hinv) as Hshape.
  apply book_inv_sides in Hinv as (Hl & Hv). apply book_inv_sides.
  split.
  - intros s' q level Hq. unfold put_order in *. simpl.
    assert (OrderBook.levels s'
              (OrderBook.set_order_lookup
                 (<[oid := OrderBook.Loc p c]> (OrderBook.order_lookup_ b))
                 (OrderBook.set_levels s
                    (alter (PriceLevel.AddOrder oid sz) p
                       (OrderBook.touch_level p (OrderBook.levels s b))) b))
            = if decide (s' = s)
              then alter (PriceLevel.AddOrder oid sz) p
                     (OrderBook.touch_level p (OrderBook.levels s b))
              else OrderBook.levels s' b) as Hlev by (by destruct s, s').
    rewrite Hlev in Hq. clear Hlev.
    assert (∀ level0, OrderBook.levels s' b !! q = Some level0 →
              level_shape (n + 1) q level0
              ∧ ∀ o z, PriceLevel.orders level0 !! o = Some z →
                  <[oid := OrderBook.Loc p c]> (OrderBook.order_lookup_ b) !! o
                  = Some (OrderBook.Loc q (side_char s'))) as Hold.
    { intros level0 Hq0. destruct (Hl s' q level0 Hq0) as (Hs0 & Hi0).
      split; [eapply level_shape_mono; [| done]; lia |].
      intros o z Hoz. rewrite lookup_insert_ne; [by eapply Hi0 |].
      intros ->. pose proof (Hfree s' q level0 Hq0). congruence. }
    destruct (decide (s' = s)) as [-> | Hs]; [| by apply Hold].
    rewrite lookup_alter_touch in Hq.
    destruct (decide (p = q)) as [<- | Hpq]; [| by apply Hold].
    injection Hq as <-.
    destruct (init_level_lookup_shape n p (OrderBook.levels s b) Hn Hp Hshape)
      as (Hsh & Hfrom).
    assert (PriceLevel.orders (init_level p (OrderBook.levels s b !! p)) !! oid
            = None) as Hfresh.
    { destruct (PriceLevel.orders (init_level p (OrderBook.levels s b !! p)) !! oid)
        as [z |] eqn:Hz; [| done].
      destruct (Hfrom _ _ Hz) as (level0 & Hq0 & Ho0).
      pose proof (Hfree s p level0 Hq0). congruence. }
    split; [by apply AddOrder_shape |].
    intros o z. simpl. rewrite !lookup_insert.
    destruct (decide (oid = o)) as [-> | Hne]; [by rewrite Hcs |].
    intros Hoz. destruct (Hfrom _ _ Hoz) as (level0 & Hq0 & Ho0).
    exact (proj2 (Hl s p level0 Hq0) _ _ Ho0).
  - unfold put_order. simpl. apply map_Forall_insert_2; [| done].
    split; simpl; [by rewrite Hc | done].
Qed.

Lemma levels_take_order s' s p oid b :
  OrderBook.levels s' (take_order s p oid b)
  = if decide (s' = s)
    then OrderBook.erase_if_empty p
           (alter (PriceLevel.RemoveOrder oid) p
              (OrderBook.touch_level p (OrderBook.levels s b)))
    else OrderBook.levels s' b.
Proof. by destruct s, s'. Qed.

Lemma levels_resize_order s' s p oid sz b :
  OrderBook.levels s' (resize_order s p oid sz b)
  = if decide (s' = s)
    then alter (PriceLevel.ModifyOrder oid sz) p
           (OrderBook.touch_level p (OrderBook.levels s b))
    else OrderBook.levels s' b.
Proof. by destruct s, s'. Qed.

Lemma levels_put_order s' s p oid sz c b :
  OrderBook.levels s' (put_order s p oid sz c b)
  = if decide (s' = s)
    then alter (PriceLevel.AddOrder oid sz) p
           (OrderBook.touch_level p (OrderBook.levels s b))
    else OrderBook.levels s' b.
Proof. by destruct s, s'. Qed.

Lemma levels_forget_order s oid b :
  OrderBook.levels s (forget_order oid b) = OrderBook.levels s b.
Proof. by destruct s. Qed.

Lemma levels_changed s b : OrderBook.levels s (changed b) = OrderBook.levels s b.
Proof. by destruct s. Qed.

Lemma order_lookup_take_order s p oid b :
  OrderBook.order_lookup_ (take_order s p oid b) = OrderBook.order_lookup_ b.
Proof. by destruct s. Qed.

Lemma order_lookup_resize_order s p oid sz b :
  OrderBook.order_lookup_ (resize_order s p oid sz b) = OrderBook.order_lookup_ b.
Proof. by destruct s. Qed.

Lemma take_order_inv n b s p oid :
  book_inv n b → p ≠ kUndefPrice → 0 ≤ n → n < 2 ^ 32 →
  book_inv n (take_order s p oid b).
Proof.
  intros Hinv Hp Hn Hbound.
  pose proof (book_inv_shape n b s Hinv) as Hshape.
  apply book_inv_sides in Hinv as (Hl & Hv). apply book_inv_sides.
  rewrite order_lookup_take_order. split; [| done].
  intros s' q level. rewrite levels_take_order.
  destruct (decide (s' = s)) as [-> | Hs]; [| by apply Hl].
  rewrite lookup_take_map.
  destruct (decide (p = q)) as [<- | Hpq]; [| by apply Hl].
  simpl.
  destruct (init_level_lookup_shape n p (OrderBook.levels s b) Hn Hp Hshape)
    as (Hsh & Hfrom).
  destruct (PriceLevel.IsEmpty _) eqn:Hempty; [done |].
  intros [= <-]. split; [by apply RemoveOrder_shape |].
  intros o z. rewrite RemoveOrder_orders.
  case_decide; [done |]. intros Hoz.
  destruct (Hfrom _ _ Hoz) as (level0 & Hq0 & Ho0).
  exact (proj2 (Hl s p level0 Hq0) _ _ Ho0).
Qed.

Lemma take_order_not_resting n b s p oid :
  book_inv n b →
  OrderBook.order_lookup_ b !! oid = Some (OrderBook.Loc p (side_char s)) →
  not_resting oid (take_order s p oid b).
Proof.
  intros Hinv Hloc s' q level.
  apply book_inv_sides in Hinv as (Hl & Hv).
  rewrite levels_take_order.
  assert (OrderBook.levels s' b !! q = Some level → (s', q) ≠ (s, p) →
          PriceLevel.orders level !! oid = None) as Hother.
  { intros Hq Hne.
    destruct (PriceLevel.orders level !! oid) as [z |] eqn:Ho; [| done].
    pose proof (proj2 (Hl s' q level Hq) _ _ Ho) as Hloc'.
    rewrite Hloc in Hloc'. injection Hloc' as -> Hside.
    apply side_char_inj in Hside as ->. done. }
  destruct (decide (s' = s)) as [-> | Hs];
    [| intros Hq; apply Hother; [done | congruence]].
  rewrite lookup_take_map.
  destruct (decide (p = q)) as [<- | Hpq];
    [| intros Hq; apply Hother; [done | congruence]].
  simpl. destruct (PriceLevel.IsEmpty _); [done |].
  intros [= <-]. rewrite RemoveOrder_orders. by rewrite decide_True.
Qed.

Lemma forget_order_inv n b oid :
  book_inv n b → not_resting oid b → book_inv n (forget_order oid b).
Proof.
  intros Hinv Hfree.
  apply book_inv_sides in Hinv as (Hl & Hv). apply book_inv_sides.
  split.
  - intros s q level. rewrite levels_forget_order. intros Hq.
    destruct (Hl s q level Hq) as (Hs & Hi). split; [done |].
    intros o z Hoz. unfold forget_order. simpl.
    rewrite lookup_delete_ne; [by eapply Hi |].
    intros ->. pose proof (Hfree s q level Hq). congruence.
  - unfold forget_order. simpl. by apply map_Forall_delete.
Qed.

Lemma resize_order_inv n b s p oid sz :
  book_inv n b → p ≠ kUndefPrice → 0 < sz → 0 ≤ n →
  book_inv n (resize_order s p oid sz b).
Proof.
  intros Hinv Hp Hsz Hn.
  pose proof (book_inv_shape n b s Hinv) as Hshape.
  apply book_inv_sides in Hinv as (Hl & Hv). apply book_inv_sides.
  rewrite order_lookup_resize_order. split; [| done].
  intros s' q level. rewrite levels_resize_order.
  destruct (decide (s' = s)) as [-> | Hs]; [| by apply Hl].
  rewrite lookup_alter_touch.
  destruct (decide (p = q)) as [<- | Hpq]; [| by apply Hl].
  destruct (init_level_lookup_shape n p (OrderBook.levels s b) Hn Hp Hshape)
    as (Hsh & Hfrom).
  intros [= <-]. split; [by apply ModifyOrder_shape |].
  intros o z. rewrite ModifyOrder_orders.
  destruct (decide (oid = o)) as [-> | Hne].
  - destruct (PriceLevel.orders (init_level p (OrderBook.levels s b !! p)) !! o)
      as [old |] eqn:Hold; [| done].
    intros _. destruct (Hfrom _ _ Hold) as (level0 & Hq0 & Ho0).
    exact (proj2 (Hl s p level0 Hq0) _ _ Ho0).
  - intros Hoz. destruct (Hfrom _ _ Hoz) as (level0 & Hq0 & Ho0).
    exact (proj2 (Hl s p level0 Hq0) _ _ Ho0).
Qed.

(** ** Every call of [Apply] keeps the invariant *)

Lemma IsValid_price_size (r : MBORecord.t) :
  MBORecord.IsValid r = true →
  Ascii.eqb (MBORecord.action r) ACTION_CLEAR = false →
  MBORecord.price r ≠ kUndefPrice ∧ 0 < MBORecord.size r.
Proof.
  unfold MBORecord.IsValid, utils.IsValidPrice, utils.IsValidSize.
  intros Hv Hc. rewrite Hc in Hv. simpl in Hv.
  apply andb_prop in Hv as [Hv Hsize]. apply andb_prop in Hv as [_ Hprice].
  apply andb_prop in Hprice as [Hprice _].
  split; [| lia].
  by destruct (Z.eqb_spec (MBORecord.price r) kUndefPrice).
Qed.

Lemma index_entry_of n b oid loc :
  book_inv n b → OrderBook.order_lookup_ b !! oid = Some loc →
  ∃ s, side_of_char (OrderBook.side loc) = Some s
       ∧ loc = OrderBook.Loc (OrderBook.price loc) (side_char s)
       ∧ OrderBook.price loc ≠ kUndefPrice.
Proof.
  intros (_ & _ & _ & _ & Hv) Hl.
  destruct (Hv _ _ Hl) as ([s Hs] & Hp). exists s.
  split; [done |]. split; [| done].
  apply side_of_char_Some in Hs. destruct loc; simpl in *. by subst.
Qed.

Lemma add_step_inv n r b :
  book_inv n b → MBORecord.price r ≠ kUndefPrice → 0 < MBORecord.size r →
  0 ≤ n → n + 1 < 2 ^ 32 →
  book_inv (n + 1) (add_step r b).
Proof.
  intros Hinv Hp Hsz Hn Hbound. unfold add_step.
  assert (book_inv (n + 1) b) as Hmono by (eapply book_inv_mono; [| done]; lia).
  destruct (OrderBook.order_lookup_ b !! MBORecord.order_id r) eqn:Hl; [done |].
  destruct (side_of_char (MBORecord.side r)) as [s |] eqn:Hs; [| done].
  apply book_inv_changed. apply put_order_inv; try done.
  by eapply not_resting_unindexed.
Qed.

Lemma cancel_step_inv n r b :
  book_inv n b → 0 ≤ n → n < 2 ^ 32 → book_inv n (cancel_step r b).
Proof.
  intros Hinv Hn Hbound. unfold cancel_step.
  destruct (OrderBook.order_lookup_ b !! MBORecord.order_id r) as [loc |] eqn:Hl;
    [| done].
  destruct (index_entry_of n b _ loc Hinv Hl) as (s & Hs & Hloc & Hp).
  rewrite Hs. apply book_inv_changed. apply forget_order_inv.
  - by apply take_order_inv.
  - eapply take_order_not_resting; [done |]. by rewrite Hl, Hloc at 1.
Qed.

Lemma modify_step_inv n r b :
  book_inv n b → MBORecord.price r ≠ kUndefPrice → 0 < MBORecord.size r →
  0 ≤ n → n + 1 < 2 ^ 32 →
  book_inv (n + 1) (modify_step r b).
Proof.
  intros Hinv Hp Hsz Hn Hbound. unfold modify_step.
  assert (book_inv (n + 1) b) as Hmono by (eapply book_inv_mono; [| done]; lia).
  destruct (OrderBook.order_lookup_ b !! MBORecord.order_id r) as [loc |] eqn:Hl;
    [| by apply add_step_inv].
  destruct (index_entry_of n b _ loc Hinv Hl) as (s0 & Hs0 & Hloc & Hp0).
  rewrite Hs0.
  destruct (negb (OrderBook.price loc =? MBORecord.price r)
            || negb (Ascii.eqb (OrderBook.side loc) (MBORecord.side r))).
  - assert (book_inv n (take_order s0 (OrderBook.price loc)
                          (MBORecord.order_id r) b)) as Htake
      by (apply take_order_inv; [done | done | done | lia]).
    destruct (side_of_char (MBORecord.side r)) as [s |] eqn:Hs.
    + apply book_inv_changed. apply put_order_inv; try done.
      eapply take_order_not_resting; [done |]. by rewrite Hl, Hloc at 1.
    + eapply book_inv_mono; [| done]. lia.
  - destruct (side_of_char (MBORecord.side r)) as [s |] eqn:Hs; [| done].
    apply book_inv_changed. apply resize_order_inv; try done. lia.
Qed.

Theorem step_inv n r b :
  book_inv n b → 0 ≤ n → n + 1 < 2 ^ 32 → book_inv (n + 1) (step r b).
Proof.
  intros Hinv Hn Hbound. unfold step.
  assert (book_inv (n + 1) b) as Hmono by (eapply book_inv_mono; [| done]; lia).
  destruct (MBORecord.IsValid r) eqn:Hv; simpl; [| done].
  destruct (Ascii.eqb (MBORecord.action r) ACTION_CLEAR) eqn:Hc.
  { apply Ascii.eqb_eq in Hc. rewrite Hc. simpl.
    apply book_inv_changed, book_inv_clear. }
  destruct (IsValid_price_size r Hv Hc) as (Hp & Hsz).
  destruct (Ascii.eqb (MBORecord.action r) ACTION_ADD);
    [by apply add_step_inv |].
  destruct (Ascii.eqb (MBORecord.action r) ACTION_CANCEL).
  { apply (book_inv_mono n); [lia |]. apply cancel_step_inv; [done | done | lia]. }
  destruct (Ascii.eqb (MBORecord.action r) ACTION_MODIFY);
    [by apply modify_step_inv |].
  done.
Qed.

Theorem apply_all_inv (records : list MBORecord.t) :
  Z.of_nat (length records) < 2 ^ 32 →
  book_inv (Z.of_nat (length records))
    (OrderBook.apply_all records OrderBook.new).
Proof.
  rewrite apply_all_steps.
  induction records as [| r rest IH] using rev_ind; intros Hlen.
  - exact book_inv_new.
  - rewrite foldl_app, length_app in *. simpl in *.
    replace (Z.of_nat (length rest + 1)) with (Z.of_nat (length rest) + 1) by lia.
    apply step_inv; [apply IH |..]; lia.
Qed.

(** ** Unsigned aggregates *)

Lemma init_level_unsigned p (o : option PriceLevel.t) :
  (∀ level, o = Some level → level_unsigned level) →
  level_unsigned (init_level p o).
Proof.
  intros Ho. unfold init_level.
  assert (level_unsigned (default PriceLevel.new o)) as Hd.
  { destruct o as [level |]; simpl; [by apply Ho | by split]. }
  by destruct (PriceLevel.price (default PriceLevel.new o) =? kUndefPrice).
Qed.

Lemma AddOrder_unsigned oid sz level :
  level_unsigned (PriceLevel.AddOrder oid sz level).
Proof. split; simpl; apply u32_range. Qed.

Lemma RemoveOrder_unsigned oid level :
  level_unsigned level → level_unsigned (PriceLevel.RemoveOrder oid level).
Proof.
  intros Hu. unfold PriceLevel.RemoveOrder.
  destruct (PriceLevel.orders level !! oid); [| done].
  destruct (u32 (PriceLevel.order_count level - 1) =? 0);
    split; simpl; try apply u32_range; done.
Qed.

Lemma ModifyOrder_unsigned oid sz level :
  level_unsigned level → level_unsigned (PriceLevel.ModifyOrder oid sz level).
Proof.
  intros Hu. unfold PriceLevel.ModifyOrder.
  destruct (PriceLevel.orders level !! oid); [| done].
  split; simpl; [apply u32_range | apply Hu].
Qed.

Lemma alter_touch_unsigned f p (m : gmap Z PriceLevel.t) :
  (∀ level, level_unsigned level → level_unsigned (f level)) →
  map_Forall (λ _ level, level_unsigned level) m →
  map_Forall (λ _ level, level_unsigned level)
    (alter f p (OrderBook.touch_level p m)).
Proof.
  intros Hf Hm q level. rewrite lookup_alter_touch.
  case_decide; [| by apply Hm].
  intros [= <-]. apply Hf, init_level_unsigned. intros level0 Hl. by eapply Hm.
Qed.

Lemma erase_if_empty_unsigned p (m : gmap Z PriceLevel.t) :
  map_Forall (λ _ level, level_unsigned level) m →
  map_Forall (λ _ level, level_unsigned level) (OrderBook.erase_if_empty p m).
Proof.
  intros Hm q level. rewrite lookup_erase_if_empty.
  case_decide; [| by apply Hm]. subst q.
  destruct (m !! p) as [level0 |] eqn:Hl; [| done].
  destruct (PriceLevel.IsEmpty level0); [done |].
  intros [= <-]. by eapply Hm.
Qed.

Lemma levels_unsigned_sides b :
  levels_unsigned b ↔
  ∀ s, map_Forall (λ _ level, level_unsigned level) (OrderBook.levels s b).
Proof.
  split; [by intros [Hb Ha] [] | intros H; split; [apply (H Bid) | apply (H Ask)]].
Qed.

Lemma put_order_unsigned s p oid sz c b :
  levels_unsigned b → levels_unsigned (put_order s p oid sz c b).
Proof.
  rewrite !levels_unsigned_sides. intros Hu s'. rewrite levels_put_order.
  case_decide; [| done].
  apply alter_touch_unsigned; [| done]. intros. apply AddOrder_unsigned.
Qed.

Lemma take_order_unsigned s p oid b :
  levels_unsigned b → levels_unsigned (take_order s p oid b).
Proof.
  rewrite !levels_unsigned_sides. intros Hu s'. rewrite levels_take_order.
  case_decide; [| done].
  apply erase_if_empty_unsigned, alter_touch_unsigned; [| done].
  intros. by apply RemoveOrder_unsigned.
Qed.

Lemma resize_order_unsigned s p oid sz b :
  levels_unsigned b → levels_unsigned (resize_order s p oid sz b).
Proof.
  rewrite !levels_unsigned_sides. intros Hu s'. rewrite levels_resize_order.
  case_decide; [| done].
  apply alter_touch_unsigned; [| done]. intros. by apply ModifyOrder_unsigned.
Qed.

Lemma clear_book_unsigned b : levels_unsigned (changed (clear_book b)).
Proof. split; simpl; apply map_Forall_empty. Qed.

Lemma step_unsigned r b : levels_unsigned b → levels_unsigned (step r b).
Proof.
  intros Hu.
  assert (levels_unsigned (add_step r b)) as Hadd.
  { unfold add_step.
    destruct (OrderBook.order_lookup_ b !! MBORecord.order_id r); [done |].
    destruct (side_of_char (MBORecord.side r)); [| done].
    by apply (put_order_unsigned _ _ _ _ _ b). }
  unfold step, cancel_step, modify_step.
  repeat match goal with
         | |- levels_unsigned (if ?c then _ else _) => destruct c
         | |- levels_unsigned (match ?o with Some _ => _ | None => _ end) =>
             destruct o
         | |- levels_unsigned (let _ := _ in _) => cbv zeta
         end;
    try done; try apply clear_book_unsigned.
  - by apply (take_order_unsigned _ _ _ b).
  - apply (put_order_unsigned _ _ _ _ _ (take_order _ _ _ b)).
    by apply take_order_unsigned.
  - by apply take_order_unsigned.
  - by apply (resize_order_unsigned _ _ _ _ b).
Qed.

(** ** Snapshots *)

Lemma lookup_total_nonneg (l : list Z) (i : nat) :
  Forall (λ z, 0 ≤ z) l → 0 ≤ l !!! i.
Proof.
  intros Hl. rewrite list_lookup_total_alt.
  destruct (l !! i) as [z |] eqn:Hi; simpl; [| done].
  by eapply (Forall_lookup_1 _ l i z).
Qed.

Lemma SetBidLevel_unsigned i p sz ct r :
  0 ≤ sz → 0 ≤ ct → row_unsigned r →
  row_unsigned (MBPRecord.SetBidLevel i p sz ct r).
Proof.
  intros Hsz Hct (Hbs & Hbc & Has & Hac). unfold MBPRecord.SetBidLevel.
  destruct (i <? MBP_LEVELS)%nat; [| done].
  repeat split; simpl; try done; by apply Forall_insert.
Qed.

Lemma SetAskLevel_unsigned i p sz ct r :
  0 ≤ sz → 0 ≤ ct → row_unsigned r →
  row_unsigned (MBPRecord.SetAskLevel i p sz ct r).
Proof.
  intros Hsz Hct (Hbs & Hbc & Has & Hac). unfold MBPRecord.SetAskLevel.
  destruct (i <? MBP_LEVELS)%nat; [| done].
  repeat split; simpl; try done; by apply Forall_insert.
Qed.

Lemma copy_bid_levels_unsigned i levels r :
  Forall compact_unsigned levels → row_unsigned r →
  row_unsigned (MBPRecord.copy_bid_levels i levels r).
Proof.
  revert i r. induction levels as [| l rest IH]; intros i r Hl Hr; simpl; [done |].
  apply Forall_cons in Hl as [[Hs Hc] Hrest].
  destruct (i <? MBP_LEVELS)%nat; [| done].
  apply IH; [done |]. by apply SetBidLevel_unsigned.
Qed.

Lemma copy_ask_levels_unsigned i levels r :
  Forall compact_unsigned levels → row_unsigned r →
  row_unsigned (MBPRecord.copy_ask_levels i levels r).
Proof.
  revert i r. induction levels as [| l rest IH]; intros i r Hl Hr; simpl; [done |].
  apply Forall_cons in Hl as [[Hs Hc] Hrest].
  destruct (i <? MBP_LEVELS)%nat; [| done].
  apply IH; [done |]. by apply SetAskLevel_unsigned.
Qed.

Lemma collect_levels_Forall (Q : CompactPriceLevel.t → Prop) n entries cache :
  Forall (λ e : Z * PriceLevel.t, Q (CompactPriceLevel.of_level e.2)) entries →
  Forall Q cache →
  Forall Q (OrderBook.collect_levels n entries cache).
Proof.
  revert cache. induction entries as [| [q level] rest IH]; intros cache He Hc;
    simpl; [done |].
  apply Forall_cons in He as [Hq Hrest].
  destruct (n <=? length cache)%nat; [done |].
  destruct (negb (PriceLevel.IsEmpty level)); apply IH; try done.
  apply Forall_app. split; [done |]. by apply Forall_singleton.
Qed.

Lemma snapshot_unsigned (record : MBORecord.t) (b : OrderBook.t) :
  levels_unsigned b → row_unsigned (snapshot_of record b).
Proof.
  intros [Hb Ha]. unfold snapshot_of, MBPRecord.FromOrderBook.
  assert (∀ R `{!RelDecision R} (m : gmap Z PriceLevel.t),
            map_Forall (λ _ level, level_unsigned level) m →
            Forall compact_unsigned
              (OrderBook.collect_levels MBP_LEVELS (merge_sort R (map_to_list m)) []))
    as Hcollect.
  { intros R ? m Hm. apply collect_levels_Forall; [| done].
    apply Forall_forall. intros [q level] Hin.
    rewrite merge_sort_Permutation in Hin.
    apply elem_of_map_to_list in Hin. exact (Hm _ _ Hin). }
  apply copy_ask_levels_unsigned; [by apply Hcollect |].
  apply copy_bid_levels_unsigned; [by apply Hcollect |].
  assert (Forall (λ z, 0 ≤ z) (replicate MBP_LEVELS 0)) as Hzero
    by by apply Forall_replicate.
  by repeat split.
Qed.

(** ** The output validation *)

Lemma validate_levels_None r indices :
  MBOProcessor.validate_levels r indices = None →
  ∀ i, i ∈ indices → MBOProcessor.validate_level r i = None.
Proof.
  induction indices as [| j rest IH]; intros Hv i Hi; [by apply elem_of_nil in Hi |].
  simpl in Hv. destruct (MBOProcessor.validate_level r j) eqn:Hj; [done |].
  apply elem_of_cons in Hi as [-> | Hi]; [done | by apply IH].
Qed.

Lemma validate_levels_Some r indices i :
  i ∈ indices → MBOProcessor.validate_level r i ≠ None →
  MBOProcessor.validate_levels r indices ≠ None.
Proof.
  intros Hi Hne Hnone. by apply Hne, (validate_levels_None r indices).
Qed.

Lemma validate_level_None r i :
  row_unsigned r →
  MBOProcessor.validate_level r i = None ↔
  slot_ok (MBPRecord.bid_prices r !!! i) (MBPRecord.bid_sizes r !!! i)
          (MBPRecord.bid_counts r !!! i)
  ∧ slot_ok (MBPRecord.ask_prices r !!! i) (MBPRecord.ask_sizes r !!! i)
            (MBPRecord.ask_counts r !!! i).
Proof.
  intros (Hbs & Hbc & Has & Hac).
  pose proof (lookup_total_nonneg _ i Hbs). pose proof (lookup_total_nonneg _ i Hbc).
  pose proof (lookup_total_nonneg _ i Has). pose proof (lookup_total_nonneg _ i Hac).
  unfold MBOProcessor.validate_level, slot_ok.
  destruct (Z.eqb_spec (MBPRecord.bid_prices r !!! i) kUndefPrice);
    destruct (Z.eqb_spec (MBPRecord.bid_sizes r !!! i) 0);
    destruct (Z.eqb_spec (MBPRecord.bid_counts r !!! i) 0);
    destruct (Z.eqb_spec (MBPRecord.ask_prices r !!! i) kUndefPrice);
    destruct (Z.eqb_spec (MBPRecord.ask_sizes r !!! i) 0);
    destruct (Z.eqb_spec (MBPRecord.ask_counts r !!! i) 0);
    simpl; split; try done; try (intros _; split; intros; lia);
    intros [Hb Ha]; lia.
Qed.

(** A record that gets past [ValidateMBPRecord] is well-formed, and one
    that is not well-formed does not get past it. *)
Lemma validation_error_None r :
  row_unsigned r → MBOProcessor.validation_error r = None → row_well_formed r.
Proof.
  intros Hu Hv i Hi. apply validate_level_None; [done |].
  unfold MBOProcessor.validation_error in Hv.
  destruct (negb (MBPRecord.rtype r =? 10)); [done |].
  destruct (negb (utils.IsValidAction (MBPRecord.action r))); [done |].
  destruct (negb (utils.IsValidSide (MBPRecord.side r))); [done |].
  apply (validate_levels_None r _ Hv). apply elem_of_seq. lia.
Qed.

Lemma validation_error_Some r :
  row_unsigned r → ¬ row_well_formed r →
  ∃ e, MBOProcessor.validation_error r = Some e.
Proof.
  intros Hu Hnot.
  destruct (MBOProcessor.validation_error r) as [e |] eqn:Hv; [by exists e |].
  destruct Hnot. by apply validation_error_None.
Qed.

Lemma WriteMBPRecord_rejects r p e :
  MBOProcessor.validate_output_ p = true →
  MBOProcessor.validation_error r = Some e →
  MBOProcessor.WriteMBPRecord r p = (inl e, p).
Proof.
  intros Hv He. unfold MBOProcessor.WriteMBPRecord, MBOProcessor.ValidateMBPRecord.
  run_monad. by rewrite Hv, He.
Qed.

(** ** What [ProcessRecord] does to the book and to the output *)

(** The book a record leaves behind in the processor: Clear goes through
    [HandleSpecialCase], everything else through [Apply]. *)
Lemma ProcessRecord_cases (record : MBORecord.t) (p : MBOProcessor.t) :
  let b := MBOProcessor.order_book_ p in
  let b1 := if Ascii.eqb (MBORecord.action record) ACTION_CLEAR
            then changed (clear_book b) else step record b in
  let after := state_after (MBOProcessor.ProcessRecord record p) in
  MBOProcessor.validate_output_ after = MBOProcessor.validate_output_ p
  ∧ OrderBook.bids_ (MBOProcessor.order_book_ after) = OrderBook.bids_ b1
  ∧ OrderBook.asks_ (MBOProcessor.order_book_ after) = OrderBook.asks_ b1
  ∧ OrderBook.order_lookup_ (MBOProcessor.order_book_ after)
    = OrderBook.order_lookup_ b1
  ∧ (MBOProcessor.output after = MBOProcessor.output p
     ∨ (passes_validation p (snapshot_of record b1) = true
        ∧ MBOProcessor.output after
          = MBOProcessor.output p
              ++ [(MBOProcessor.mbp_record_count_ p, snapshot_of record b1)])).
Proof.
  intros b b1 after. subst after b1 b.
  unfold MBOProcessor.ProcessRecord, MBOProcessor.HandleSpecialCase.
  unfold passes_validation, snapshot_of.
  unfold MBOProcessor.CreateMBPRecord, OrderBook.GetTopBids, OrderBook.GetTopAsks,
    MBOProcessor.WriteMBPRecord, MBOProcessor.ValidateMBPRecord,
    OrderBook.ResetChanges, OrderBook.iterate_bids, OrderBook.iterate_asks,
    OrderBook.HasChanges, OrderBook.Clear, OrderBook.MarkChanged.
  destruct p as [b out rc mc v]. simpl.
  destruct (Ascii.eqb (MBORecord.action record) ACTION_CLEAR) eqn:Hc.
  - run_monad. destruct v; simpl.
    + destruct (MBOProcessor.validation_error _) eqn:Hval; run_monad;
        repeat split; auto.
    + repeat split; auto.
  - rewrite <- (Apply_step record b). unfold state_after.
    unfold mbind, M_bind, mret, M_ret, throw, get, gets, modify,
      MBOProcessor.on_book. simpl.
    destruct (OrderBook.Apply record b) as [[e | []] b1]; simpl;
      [repeat split; auto |].
    destruct (Ascii.eqb (MBORecord.action record) ACTION_ADD
              || Ascii.eqb (MBORecord.action record) ACTION_CANCEL
              || false
              || Ascii.eqb (MBORecord.action record) ACTION_TRADE);
      simpl; [| repeat split; auto].
    destruct (OrderBook.has_changes_ b1); simpl; [| repeat split; auto].
    destruct v; simpl; [| repeat split; auto].
    destruct (MBOProcessor.validation_error _); simpl; repeat split; auto.
Qed.


(** ** Coherence and non-empty levels, for events that name a side

    The rest of the data model is kept by every call of [Apply] on a
    [two_sided] event: the one call that breaks it is the Modify that
    moves a resting order to a side [GetOrCreateLevel] rejects. *)

Lemma index_entry_coherent_alt b oid loc :
  index_entry_coherent b oid loc ↔
  ∃ s level sz,
    side_of_char (OrderBook.side loc) = Some s
    ∧ OrderBook.levels s b !! OrderBook.price loc = Some level
    ∧ PriceLevel.IsEmpty level = false
    ∧ PriceLevel.orders level !! oid = Some sz
    ∧ 0 < sz.
Proof.
  unfold index_entry_coherent. split.
  - destruct (side_of_char (OrderBook.side loc)) as [s |]; [| done].
    destruct (OrderBook.levels s b !! OrderBook.price loc) as [level |] eqn:Hl;
      [| done].
    intros (He & Ho).
    destruct (PriceLevel.orders level !! oid) as [sz |] eqn:Hoid; [| done].
    by exists s, level, sz.
  - intros (s & level & sz & -> & -> & He & -> & Hsz). done.
Qed.

Lemma level_shape_not_empty n p level o z :
  level_shape n p level → PriceLevel.orders level !! o = Some z →
  PriceLevel.IsEmpty level = false.
Proof.
  intros (Hp & Hu & (_ & Hc) & _ & _) Ho. unfold PriceLevel.IsEmpty.
  assert (size (PriceLevel.orders level) ≠ 0%nat) as Hne.
  { intros H0. apply map_size_empty_inv in H0. rewrite H0 in Ho.
    by rewrite lookup_empty in Ho. }
  destruct (Z.eqb_spec (PriceLevel.price level) kUndefPrice); [congruence |].
  destruct (Z.eqb_spec (PriceLevel.order_count level) 0); [lia | done].
Qed.

Lemma RemoveOrder_not_empty n p level oid o z :
  level_shape n p level → n < 2 ^ 32 → o ≠ oid →
  PriceLevel.orders level !! o = Some z →
  PriceLevel.IsEmpty (PriceLevel.RemoveOrder oid level) = false.
Proof.
  intros Hs Hbound Hne Ho.
  destruct (PriceLevel.orders level !! oid) as [sz |] eqn:Hoid.
  2: { unfold PriceLevel.RemoveOrder. rewrite Hoid.
       by eapply level_shape_not_empty. }
  destruct Hs as (Hp & Hu & (_ & Hc) & Hn & _).
  unfold PriceLevel.RemoveOrder. rewrite Hoid.
  pose proof (map_size_delete oid (PriceLevel.orders level)) as Hsize.
  rewrite Hoid in Hsize. simpl in Hsize.
  assert (size (delete oid (PriceLevel.orders level)) ≠ 0%nat) as Hrest.
  { intros H0. apply map_size_empty_inv in H0.
    assert (delete oid (PriceLevel.orders level) !! o = Some z) as Hin
      by (by rewrite lookup_delete_ne).
    rewrite H0 in Hin. by rewrite lookup_empty in Hin. }
  rewrite Hc, u32_small by lia.
  destruct (Z.eqb_spec (Z.of_nat (size (PriceLevel.orders level)) - 1) 0);
    [lia |].
  unfold PriceLevel.IsEmpty. simpl.
  destruct (Z.eqb_spec (PriceLevel.price level) kUndefPrice); [congruence |].
  destruct (Z.eqb_spec (Z.of_nat (size (PriceLevel.orders level)) - 1) 0);
    [lia | done].
Qed.

Lemma ModifyOrder_IsEmpty oid sz level :
  PriceLevel.IsEmpty (PriceLevel.ModifyOrder oid sz level)
  = PriceLevel.IsEmpty level.
Proof.
  unfold PriceLevel.ModifyOrder.
  by destruct (PriceLevel.orders level !! oid).
Qed.

Lemma coherent_except_all oid b :
  map_Forall (index_entry_coherent b) (OrderBook.order_lookup_ b) →
  coherent_except oid b.
Proof. intros H o loc _ Ho. by apply H. Qed.

Lemma take_order_no_empty s p oid b :
  no_empty_levels b → no_empty_levels (take_order s p oid b).
Proof.
  intros Hfull s' q level. rewrite levels_take_order.
  destruct (decide (s' = s)) as [-> | Hs]; [| by apply Hfull].
  rewrite lookup_take_map.
  destruct (decide (p = q)) as [<- | Hpq]; [| by apply Hfull].
  simpl. destruct (PriceLevel.IsEmpty _) eqn:He; [done |]. by intros [= <-].
Qed.

Lemma take_order_coherent_except n s p oid b :
  book_inv n b → 0 ≤ n → n < 2 ^ 32 → p ≠ kUndefPrice →
  coherent_except oid b → coherent_except oid (take_order s p oid b).
Proof.
  intros Hinv Hn Hbound Hp Hco o loc Hne. rewrite order_lookup_take_order.
  intros Ho. specialize (Hco o loc Hne Ho).
  apply index_entry_coherent_alt in Hco as (s1 & level & z & Hs1 & Hl & He & Hz & Hpos).
  apply index_entry_coherent_alt.
  pose proof (book_inv_shape n b s1 Hinv _ _ Hl) as Hshape.
  destruct (decide (s1 = s ∧ p = OrderBook.price loc)) as [[-> Hpq] | Hother].
  - exists s, (PriceLevel.RemoveOrder oid level), z.
    assert (PriceLevel.IsEmpty (PriceLevel.RemoveOrder oid level) = false) as He'
      by (by eapply RemoveOrder_not_empty).
    split; [done |]. split.
    { rewrite levels_take_order, decide_True by done.
      rewrite lookup_take_map, decide_True by done. simpl. subst p.
      rewrite Hl. destruct Hshape as (Hpr & _).
      rewrite init_level_Some by congruence. by rewrite He'. }
    split; [done |]. split; [| done].
    rewrite RemoveOrder_orders. by rewrite decide_False.
  - exists s1, level, z. split; [done |]. split; [| done].
    rewrite levels_take_order.
    destruct (decide (s1 = s)) as [-> | Hs]; [| done].
    rewrite lookup_take_map. rewrite decide_False; [done |].
    intros Hpq. by apply Hother.
Qed.

Lemma forget_order_coherent oid b :
  coherent_except oid b →
  map_Forall (index_entry_coherent (forget_order oid b))
    (OrderBook.order_lookup_ (forget_order oid b)).
Proof.
  intros Hco o loc Ho.
  change (delete oid (OrderBook.order_lookup_ b) !! o = Some loc) in Ho.
  apply lookup_delete_Some in Ho as [Hne Ho].
  specialize (Hco o loc (not_eq_sym Hne) Ho).
  apply index_entry_coherent_alt in Hco as (s1 & level & z & Hs1 & Hl & Hrest).
  apply index_entry_coherent_alt. exists s1, level, z.
  split; [done |]. split; [| done]. by rewrite levels_forget_order.
Qed.

Lemma put_order_strong n b s p oid sz c :
  book_inv n b → coherent_except oid b → no_empty_levels b →
  not_resting oid b → side_of_char c = Some s →
  p ≠ kUndefPrice → 0 < sz → 0 ≤ n → n + 1 < 2 ^ 32 →
  map_Forall (index_entry_coherent (put_order s p oid sz c b))
    (OrderBook.order_lookup_ (put_order s p oid sz c b))
  ∧ no_empty_levels (put_order s p oid sz c b).
Proof.
  intros Hinv Hco Hfull Hfree Hc Hp Hsz Hn Hbound.
  pose proof (put_order_inv n b s p oid sz c Hinv Hfree Hc Hp Hsz Hn Hbound)
    as Hinv'.
  assert (OrderBook.levels s (put_order s p oid sz c b) !! p
          = Some (PriceLevel.AddOrder oid sz
                    (init_level p (OrderBook.levels s b !! p)))) as Hnew.
  { rewrite levels_put_order, decide_True by done.
    rewrite lookup_alter_touch. by rewrite decide_True. }
  pose proof (book_inv_shape _ _ s Hinv' _ _ Hnew) as Hshape'.
  assert (PriceLevel.IsEmpty
            (PriceLevel.AddOrder oid sz (init_level p (OrderBook.levels s b !! p)))
          = false) as He'.
  { eapply (level_shape_not_empty _ _ _ oid sz); [done |].
    simpl. apply lookup_insert_eq. }
  split.
  - intros o loc Ho.
    change (<[oid := OrderBook.Loc p c]> (OrderBook.order_lookup_ b) !! o
            = Some loc) in Ho.
    rewrite lookup_insert in Ho.
    destruct (decide (oid = o)) as [<- | Hne].
    + injection Ho as <-. apply index_entry_coherent_alt.
      eexists s, _, sz. simpl. split; [done |]. split; [exact Hnew |].
      split; [done |]. split; [| done]. simpl. apply lookup_insert_eq.
    + specialize (Hco o loc (not_eq_sym Hne) Ho).
      apply index_entry_coherent_alt in Hco
        as (s1 & level & z & Hs1 & Hl & He & Hz & Hpos).
      apply index_entry_coherent_alt.
      destruct (decide (s1 = s ∧ p = OrderBook.price loc)) as [[-> Hpq] | Hother].
      * eexists s, _, z. split; [done |]. subst p. split; [exact Hnew |].
        split; [done |]. split; [| done].
        rewrite Hl. pose proof (book_inv_shape n b s Hinv _ _ Hl) as (Hpr & _).
        rewrite init_level_Some by congruence. simpl.
        by rewrite lookup_insert_ne.
      * exists s1, level, z. split; [done |]. split; [| done].
        rewrite levels_put_order.
        destruct (decide (s1 = s)) as [-> | Hs]; [| done].
        rewrite lookup_alter_touch. rewrite decide_False; [done |].
        intros Hpq. by apply Hother.
  - intros s' q level. rewrite levels_put_order.
    destruct (decide (s' = s)) as [-> | Hs]; [| by apply Hfull].
    rewrite lookup_alter_touch.
    destruct (decide (p = q)) as [<- | Hpq]; [| by apply Hfull].
    by intros [= <-].
Qed.

Lemma resize_order_strong n b s p oid sz c :
  book_inv n b →
  map_Forall (index_entry_coherent b) (OrderBook.order_lookup_ b) →
  no_empty_levels b →
  OrderBook.order_lookup_ b !! oid = Some (OrderBook.Loc p c) →
  side_of_char c = Some s → 0 < sz →
  map_Forall (index_entry_coherent (resize_order s p oid sz b))
    (OrderBook.order_lookup_ (resize_order s p oid sz b))
  ∧ no_empty_levels (resize_order s p oid sz b).
Proof.
  intros Hinv Hco Hfull Hloc Hc Hsz.
  pose proof (Hco _ _ Hloc) as Hmine.
  apply index_entry_coherent_alt in Hmine
    as (s0 & level0 & z0 & Hs0 & Hl0 & He0 & Hz0 & Hpos0).
  simpl in Hs0, Hl0. rewrite Hc in Hs0. injection Hs0 as <-.
  pose proof (book_inv_shape n b s Hinv _ _ Hl0) as (Hpr & Hu & _).
  assert (OrderBook.levels s (resize_order s p oid sz b) !! p
          = Some (PriceLevel.ModifyOrder oid sz level0)) as Hnew.
  { rewrite levels_resize_order, decide_True by done.
    rewrite lookup_alter_touch, decide_True by done.
    rewrite Hl0. by rewrite init_level_Some by congruence. }
  split.
  - intros o loc. rewrite order_lookup_resize_order. intros Ho.
    pose proof (Hco _ _ Ho) as Hold.
    apply index_entry_coherent_alt in Hold
      as (s1 & level & z & Hs1 & Hl & He & Hz & Hpos).
    apply index_entry_coherent_alt.
    destruct (decide (s1 = s ∧ p = OrderBook.price loc)) as [[-> Hpq] | Hother].
    + rewrite <- Hpq, Hl0 in Hl. injection Hl as <-.
      eexists s, _, (if decide (oid = o) then sz else z).
      split; [done |]. split; [rewrite <- Hpq; exact Hnew |].
      split; [by rewrite ModifyOrder_IsEmpty |].
      rewrite ModifyOrder_orders.
      destruct (decide (oid = o)) as [-> | Hne]; [by rewrite Hz | done].
    + exists s1, level, z. split; [done |]. split; [| done].
      rewrite levels_resize_order.
      destruct (decide (s1 = s)) as [-> | Hs]; [| done].
      rewrite lookup_alter_touch. rewrite decide_False; [done |].
      intros Hpq. by apply Hother.
  - intros s' q level. rewrite levels_resize_order.
    destruct (decide (s' = s)) as [-> | Hs]; [| by apply Hfull].
    rewrite lookup_alter_touch.
    destruct (decide (p = q)) as [<- | Hpq]; [| by apply Hfull].
    rewrite Hl0, init_level_Some by congruence.
    intros [= <-]. by rewrite ModifyOrder_IsEmpty.
Qed.

Lemma strong_changed b : strong b → strong (changed b).
Proof. by destruct b. Qed.

Lemma strong_clear b : strong (clear_book b).
Proof.
  split; [apply map_Forall_empty |].
  intros []; apply map_Forall_empty.
Qed.

Lemma add_step_strong n r b :
  book_inv n b → strong b →
  MBORecord.price r ≠ kUndefPrice → 0 < MBORecord.size r →
  0 ≤ n → n + 1 < 2 ^ 32 →
  strong (add_step r b).
Proof.
  intros Hinv [Hco Hfull] Hp Hsz Hn Hbound. unfold add_step.
  destruct (OrderBook.order_lookup_ b !! MBORecord.order_id r) eqn:Hl; [done |].
  destruct (side_of_char (MBORecord.side r)) as [s |] eqn:Hs; [| done].
  apply strong_changed. eapply put_order_strong; try done.
  - by apply coherent_except_all.
  - by eapply not_resting_unindexed.
Qed.

Lemma cancel_step_strong n r b :
  book_inv n b → strong b → 0 ≤ n → n < 2 ^ 32 → strong (cancel_step r b).
Proof.
  intros Hinv [Hco Hfull] Hn Hbound. unfold cancel_step.
  destruct (OrderBook.order_lookup_ b !! MBORecord.order_id r) as [loc |] eqn:Hl;
    [| done].
  destruct (index_entry_of n b _ loc Hinv Hl) as (s & Hs & Hloc & Hp).
  rewrite Hs. apply strong_changed. split.
  - apply forget_order_coherent.
    eapply take_order_coherent_except; try done. by apply coherent_except_all.
  - intros s'. rewrite levels_forget_order. by apply take_order_no_empty.
Qed.

Lemma modify_step_strong n r b :
  book_inv n b → strong b → is_Some (side_of_char (MBORecord.side r)) →
  MBORecord.price r ≠ kUndefPrice → 0 < MBORecord.size r →
  0 ≤ n → n + 1 < 2 ^ 32 →
  strong (modify_step r b).
Proof.
  intros Hinv Hstrong [s Hs] Hp Hsz Hn Hbound. unfold modify_step.
  destruct (OrderBook.order_lookup_ b !! MBORecord.order_id r) as [loc |] eqn:Hl;
    [| by eapply add_step_strong].
  destruct Hstrong as [Hco Hfull].
  destruct (index_entry_of n b _ loc Hinv Hl) as (s0 & Hs0 & Hloc & Hp0).
  rewrite Hs0, Hs.
  destruct (Z.eqb_spec (OrderBook.price loc) (MBORecord.price r)) as [Hpe | Hpne];
    [destruct (Ascii.eqb_spec (OrderBook.side loc) (MBORecord.side r))
       as [Hse | Hsne] |]; simpl.
  - apply strong_changed. eapply resize_order_strong; try done.
    rewrite Hl. f_equal. destruct loc; simpl in *. by subst.
  - apply strong_changed. eapply (put_order_strong n); try done.
    + apply take_order_inv; [done | done | done | lia].
    + eapply take_order_coherent_except; try done; [lia |].
      by apply coherent_except_all.
    + by apply take_order_no_empty.
    + eapply take_order_not_resting; [done |]. by rewrite Hl, Hloc at 1.
  - apply strong_changed. eapply (put_order_strong n); try done.
    + apply take_order_inv; [done | done | done | lia].
    + eapply take_order_coherent_except; try done; [lia |].
      by apply coherent_except_all.
    + by apply take_order_no_empty.
    + eapply take_order_not_resting; [done |]. by rewrite Hl, Hloc at 1.
Qed.

Lemma step_strong n r b :
  book_inv n b → strong b → two_sided r → 0 ≤ n → n + 1 < 2 ^ 32 →
  strong (step r b).
Proof.
  intros Hinv Hstrong Htwo Hn Hbound. unfold step.
  destruct (MBORecord.IsValid r) eqn:Hv; simpl; [| done].
  destruct (Ascii.eqb (MBORecord.action r) ACTION_CLEAR) eqn:Hc.
  { apply Ascii.eqb_eq in Hc. rewrite Hc. simpl.
    apply strong_changed, strong_clear. }
  destruct (IsValid_price_size r Hv Hc) as (Hp & Hsz).
  destruct (Ascii.eqb (MBORecord.action r) ACTION_ADD);
    [by eapply add_step_strong |].
  destruct (Ascii.eqb (MBORecord.action r) ACTION_CANCEL);
    [eapply cancel_step_strong; try done; lia |].
  destruct (Ascii.eqb_spec (MBORecord.action r) ACTION_MODIFY) as [Hm | Hm];
    [| done].
  destruct Htwo as [Hnot | Hside]; [done |].
  by eapply modify_step_strong.
Qed.

(** Over events that name a side, every state reached in fewer than 2^32
    calls of [Apply] satisfies the whole data model: the two indices are
    coherent and no empty level rests in a side book. *)
Theorem two_sided_trace_wf (records : list MBORecord.t) :
  Forall two_sided records →
  Z.of_nat (length records) < 2 ^ 32 →
  book_wf (OrderBook.apply_all records OrderBook.new).
Proof.
  intros Htwo Hlen.
  assert (book_inv (Z.of_nat (length records))
            (OrderBook.apply_all records OrderBook.new)
          ∧ strong (OrderBook.apply_all records OrderBook.new)) as [Hinv Hstrong].
  { rewrite apply_all_steps.
    induction records as [| r rest IH] using rev_ind.
    - split; [exact book_inv_new |].
      split; [apply map_Forall_empty | intros []; apply map_Forall_empty].
    - apply Forall_app in Htwo as [Hrest Hr].
      rewrite Forall_singleton in Hr.
      rewrite foldl_app, length_app in *. simpl in *.
      destruct IH as [Hinv Hstrong]; [done | lia |].
      replace (Z.of_nat (length rest + 1)) with (Z.of_nat (length rest) + 1)
        by lia.
      split; [apply step_inv | apply (step_strong (Z.of_nat (length rest)))];
        try done; lia. }
  destruct Hstrong as [Hco Hfull].
  split; [eapply book_inv_mono; [| done]; lia |].
  split; [| split; [apply (Hfull Bid) | apply (Hfull Ask)]].
  destruct Hinv as (_ & _ & Hib & Hia & _). by repeat split.
Qed.

(** ** Iteration order and the top levels *)

Global Instance key_ge_trans {A} : Transitive (@key_ge A).
Proof. intros x y z. unfold key_ge. lia. Qed.

Global Instance key_ge_total {A} : Total (@key_ge A).
Proof. intros x y. unfold key_ge. lia. Qed.

Global Instance key_le_trans {A} : Transitive (@key_le A).
Proof. intros x y z. unfold key_le. lia. Qed.

Global Instance key_le_total {A} : Total (@key_le A).
Proof. intros x y. unfold key_le. lia. Qed.

(** Sorted by a weak order on keys that are pairwise distinct is sorted
    by the strict order. *)
Lemma StronglySorted_strict {A} (R S : relation (Z * A)) (l : list (Z * A)) :
  (∀ x y, R x y → x.1 ≠ y.1 → S x y) →
  StronglySorted R l → NoDup (l.*1) → StronglySorted S l.
Proof.
  intros HRS Hsorted. induction Hsorted as [| x l Hl IH Hx]; intros Hnodup.
  - constructor.
  - simpl in Hnodup. apply NoDup_cons in Hnodup as [Hnotin Hnodup].
    constructor; [by apply IH |].
    apply Forall_forall. intros y Hy.
    apply HRS; [by eapply (proj1 (Forall_forall _ _) Hx) |].
    intros Heq. apply Hnotin. rewrite Heq. apply list_elem_of_fmap.
    by exists y.
Qed.

Lemma sorted_entries_NoDup (R : relation (Z * PriceLevel.t)) `{!RelDecision R}
    (m : gmap Z PriceLevel.t) :
  NoDup ((merge_sort R (map_to_list m)).*1).
Proof.
  rewrite merge_sort_Permutation. apply NoDup_fst_map_to_list.
Qed.

Theorem iterate_bids_strictly_decreasing (b : OrderBook.t) :
  StronglySorted (λ x y, y.1 < x.1) (OrderBook.iterate_bids b).
Proof.
  unfold OrderBook.iterate_bids.
  apply (StronglySorted_strict key_ge).
  - unfold key_ge. intros x y Hxy Hne. lia.
  - apply StronglySorted_merge_sort; apply _.
  - apply sorted_entries_NoDup.
Qed.

Theorem iterate_asks_strictly_increasing (b : OrderBook.t) :
  StronglySorted (λ x y, x.1 < y.1) (OrderBook.iterate_asks b).
Proof.
  unfold OrderBook.iterate_asks.
  apply (StronglySorted_strict key_le).
  - unfold key_le. intros x y Hxy Hne. lia.
  - apply StronglySorted_merge_sort; apply _.
  - apply sorted_entries_NoDup.
Qed.

Lemma iterate_bids_elem (b : OrderBook.t) p level :
  (p, level) ∈ OrderBook.iterate_bids b ↔ OrderBook.bids_ b !! p = Some level.
Proof.
  unfold OrderBook.iterate_bids. rewrite merge_sort_Permutation.
  apply elem_of_map_to_list.
Qed.

Lemma iterate_asks_elem (b : OrderBook.t) p level :
  (p, level) ∈ OrderBook.iterate_asks b ↔ OrderBook.asks_ b !! p = Some level.
Proof.
  unfold OrderBook.iterate_asks. rewrite merge_sort_Permutation.
  apply elem_of_map_to_list.
Qed.

(** The loop of [GetTopBids] and [GetTopAsks] returns the first [n]
    non-empty levels of the entries, in their order. *)
Lemma collect_levels_take n (entries : list (Z * PriceLevel.t))
    (cache : list CompactPriceLevel.t) :
  OrderBook.collect_levels n entries cache
  = cache
    ++ take (n - length cache)
         (CompactPriceLevel.of_level
            <$> filter (λ level, PriceLevel.IsEmpty level = false) (entries.*2)).
Proof.
  revert cache. induction entries as [| [q level] rest IH]; intros cache; simpl.
  - by rewrite take_nil, app_nil_r.
  - destruct (Nat.leb_spec n (length cache)) as [Hle | Hlt].
    + replace (n - length cache)%nat with 0%nat by lia.
      by rewrite take_0, app_nil_r.
    + destruct (PriceLevel.IsEmpty level) eqn:He; simpl.
      * rewrite filter_cons_False by congruence. apply IH.
      * rewrite filter_cons_True by done. rewrite IH, length_app. simpl.
        rewrite <- app_assoc. simpl. f_equal.
        replace (n - length cache)%nat with (S (n - (length cache + 1)))%nat
          by lia.
        done.
Qed.

Theorem GetTopBids_spec (n : nat) (b : OrderBook.t) :
  let top := take n (CompactPriceLevel.of_level
                       <$> filter (λ level, PriceLevel.IsEmpty level = false)
                             ((OrderBook.iterate_bids b).*2)) in
  OrderBook.GetTopBids n b = (inr top, OrderBook.set_bid_cache top b)
  ∧ OrderBook.bids_ (state_after (OrderBook.GetTopBids n b)) = OrderBook.bids_ b
  ∧ OrderBook.asks_ (state_after (OrderBook.GetTopBids n b)) = OrderBook.asks_ b
  ∧ OrderBook.order_lookup_ (state_after (OrderBook.GetTopBids n b))
    = OrderBook.order_lookup_ b
  ∧ OrderBook.has_changes_ (state_after (OrderBook.GetTopBids n b))
    = OrderBook.has_changes_ b.
Proof.
  intros top. unfold OrderBook.GetTopBids. run_monad.
  rewrite collect_levels_take. simpl. rewrite Nat.sub_0_r. done.
Qed.

Theorem GetTopAsks_spec (n : nat) (b : OrderBook.t) :
  let top := take n (CompactPriceLevel.of_level
                       <$> filter (λ level, PriceLevel.IsEmpty level = false)
                             ((OrderBook.iterate_asks b).*2)) in
  OrderBook.GetTopAsks n b = (inr top, OrderBook.set_ask_cache top b)
  ∧ OrderBook.bids_ (state_after (OrderBook.GetTopAsks n b)) = OrderBook.bids_ b
  ∧ OrderBook.asks_ (state_after (OrderBook.GetTopAsks n b)) = OrderBook.asks_ b
  ∧ OrderBook.order_lookup_ (state_after (OrderBook.GetTopAsks n b))
    = OrderBook.order_lookup_ b
  ∧ OrderBook.has_changes_ (state_after (OrderBook.GetTopAsks n b))
    = OrderBook.has_changes_ b.
Proof.
  intros top. unfold OrderBook.GetTopAsks. run_monad.
  rewrite collect_levels_take. simpl. rewrite Nat.sub_0_r. done.
Qed.

(** Over events that name a side, the iteration visits non-empty levels
    only. *)
Theorem two_sided_trace_levels_non_empty (records : list MBORecord.t) :
  Forall two_sided records →
  Z.of_nat (length records) < 2 ^ 32 →
  let b := OrderBook.apply_all records OrderBook.new in
  Forall (λ e, PriceLevel.IsEmpty e.2 = false) (OrderBook.iterate_bids b)
  ∧ Forall (λ e, PriceLevel.IsEmpty e.2 = false) (OrderBook.iterate_asks b).
Proof.
  intros Htwo Hlen b.
  destruct (two_sided_trace_wf records Htwo Hlen) as (_ & _ & Hb & Ha).
  split; apply Forall_forall; intros [p level] Hin.
  - apply iterate_bids_elem in Hin. exact (Hb _ _ Hin).
  - apply iterate_asks_elem in Hin. exact (Ha _ _ Hin).
Qed.

(** * The claims *)

(** ** Cancel of an unknown order (C1) *)

(** C1, as stated, fails: the scenario event, a valid Cancel of the
    unknown order 999 arriving first on a freshly constructed processor,
    leaves the output without any row instead of exactly one. *)
Lemma C1_counterexample :
  let record := event "C" "B" 999 (px 5) 1 in
  let after := MBOProcessor.ProcessFile [record] MBOProcessor.new in
  MBORecord.IsValid record = true
  ∧ OrderBook.order_lookup_ (MBOProcessor.order_book_ MBOProcessor.new) !! 999 = None
  ∧ MBOProcessor.output after = []
  ∧ length (MBOProcessor.output after) ≠ 1%nat.
Proof. vm_compute. repeat split; discriminate. Qed.

(** C1, amended. A valid Cancel whose order id is absent from the order
    index makes [Apply] return normally with the book as it was, the dirty
    flag included. [ProcessRecord] then leaves both side books and the
    index unchanged and appends a snapshot of that unchanged book, exactly
    one, with [depth = 1], only when the dirty flag was already set before
    the event and the snapshot passes the output validation; otherwise it
    appends nothing. On an empty book the snapshot has every bid and ask
    slot empty and passes the validation. *)
Theorem C1_cancel_unknown_emits_only_when_dirty
    (record : MBORecord.t) (p : MBOProcessor.t) :
  MBORecord.action record = ACTION_CANCEL →
  MBORecord.IsValid record = true →
  OrderBook.order_lookup_ (MBOProcessor.order_book_ p)
    !! MBORecord.order_id record = None →
  let b := MBOProcessor.order_book_ p in
  let after := state_after (MBOProcessor.ProcessRecord record p) in
  let snapshot := snapshot_of record b in
  OrderBook.Apply record b = (inr tt, b)
  ∧ OrderBook.bids_ (MBOProcessor.order_book_ after) = OrderBook.bids_ b
  ∧ OrderBook.asks_ (MBOProcessor.order_book_ after) = OrderBook.asks_ b
  ∧ OrderBook.order_lookup_ (MBOProcessor.order_book_ after)
    = OrderBook.order_lookup_ b
  ∧ MBOProcessor.output after =
      (if OrderBook.HasChanges b && passes_validation p snapshot
       then MBOProcessor.output p ++ [(MBOProcessor.mbp_record_count_ p, snapshot)]
       else MBOProcessor.output p)
  ∧ MBPRecord.depth snapshot = 1
  ∧ (OrderBook.bids_ b = ∅ → OrderBook.asks_ b = ∅ →
     MBPRecord.bid_prices snapshot = replicate MBP_LEVELS kUndefPrice
     ∧ MBPRecord.ask_prices snapshot = replicate MBP_LEVELS kUndefPrice
     ∧ passes_validation p snapshot = true).
Proof.
  intros Ha Hv Hl b after snapshot.
  pose proof (Apply_cancel_unknown record b Ha Hv Hl) as Happ.
  destruct (ProcessRecord_untouched record p (or_introl Ha) Happ)
    as (Hb & Hk & Hi & Ho).
  repeat split; try done.
  - subst snapshot. rewrite snapshot_depth, Ha. reflexivity.
  - by apply snapshot_of_empty_book.
  - by apply snapshot_of_empty_book.
  - destruct (snapshot_of_empty_book record b H H0) as (_ & _ & _ & _ & _ & _ & Hok).
    unfold passes_validation. fold snapshot. 
    subst snapshot. rewrite (Hok Hv). apply orb_true_r.
Qed.

Lemma C1_cancel_unknown_emits_only_when_dirty_witness :
  let record := event "C" "B" 999 (px 5) 1 in
  let p := MBOProcessor.new in
  MBOProcessor.output (state_after (MBOProcessor.ProcessRecord record p)) = [].
Proof.
  intros record p.
  pose proof (C1_cancel_unknown_emits_only_when_dirty record p
                eq_refl eq_refl eq_refl) as H.
  exact (proj1 (proj2 (proj2 (proj2 (proj2 H))))).
Defined.

(** ** Trade events (C2) *)

(** C2, as stated, fails: after an Add (emitted, flag cleared) and a
    Modify (flag set, nothing emitted), a Trade finds the flag set and a
    second row, of action T, is appended. *)
Lemma C2_counterexample :
  let records := [event "A" "B" 1 (px 10) 5; event "M" "B" 1 (px 10) 7;
                  event "T" "N" 0 (px 10) 5] in
  let after := MBOProcessor.ProcessFile records MBOProcessor.new in
  map (λ row, (row.1, MBPRecord.action row.2)) (MBOProcessor.output after)
  = [(0, ACTION_ADD); (1, ACTION_TRADE)].
Proof. vm_compute. reflexivity. Qed.

(** C2, amended. [Apply] of a valid Trade returns with the book as it
    was and does not set the dirty flag; [ProcessRecord] on any Trade
    leaves both side books and the index unchanged, and appends a row
    exactly when the event is valid, the dirty flag was already set before
    the event, and the snapshot passes the output validation. With the
    flag clear before it, a Trade appends nothing. *)
Theorem C2_trade_emits_only_when_dirty
    (record : MBORecord.t) (p : MBOProcessor.t) :
  MBORecord.action record = ACTION_TRADE →
  let b := MBOProcessor.order_book_ p in
  let after := state_after (MBOProcessor.ProcessRecord record p) in
  state_after (OrderBook.Apply record b) = b
  ∧ OrderBook.bids_ (MBOProcessor.order_book_ after) = OrderBook.bids_ b
  ∧ OrderBook.asks_ (MBOProcessor.order_book_ after) = OrderBook.asks_ b
  ∧ OrderBook.order_lookup_ (MBOProcessor.order_book_ after)
    = OrderBook.order_lookup_ b
  ∧ MBOProcessor.output after =
      (if MBORecord.IsValid record && OrderBook.HasChanges b
          && passes_validation p (snapshot_of record b)
       then MBOProcessor.output p
              ++ [(MBOProcessor.mbp_record_count_ p, snapshot_of record b)]
       else MBOProcessor.output p)
  ∧ (OrderBook.HasChanges b = false →
     MBOProcessor.output after = MBOProcessor.output p
     ∧ OrderBook.HasChanges (MBOProcessor.order_book_ after) = false).
Proof.
  intros Ha b after.
  assert (Hc : Ascii.eqb (MBORecord.action record) ACTION_CLEAR = false)
    by (rewrite Ha; reflexivity).
  destruct (MBORecord.IsValid record) eqn:Hv.
  - pose proof (Apply_trade record b Ha Hv) as Happ.
    destruct (ProcessRecord_untouched record p (or_intror Ha) Happ)
      as (Hb & Hk & Hi & Ho).
    rewrite Happ. repeat split; try done.
    + fold after b in Ho. rewrite Ho. by rewrite H.
    + subst after. unfold MBOProcessor.ProcessRecord, MBOProcessor.HandleSpecialCase.
      rewrite Hc. run_monad. fold b. rewrite Happ, Ha. simpl.
      unfold OrderBook.HasChanges in *. destruct p; simpl in *; subst b.
      rewrite H. done.
  - pose proof (Apply_invalid record b Hv) as Happ.
    subst after. rewrite (ProcessRecord_Apply_throws record p _ Hc Happ).
    rewrite Happ. simpl. done.
Qed.

Lemma C2_trade_emits_only_when_dirty_witness :
  let record := event "T" "N" 0 (px 10) 5 in
  let p := MBOProcessor.ProcessFile [event "A" "B" 1 (px 10) 5] MBOProcessor.new in
  MBOProcessor.output (state_after (MBOProcessor.ProcessRecord record p))
  = MBOProcessor.output p.
Proof.
  intros record p.
  pose proof (C2_trade_emits_only_when_dirty record p eq_refl) as H.
  exact (proj1 (proj2 (proj2 (proj2 (proj2 (proj2 H)))) eq_refl)).
Defined.

(** ** Atomicity of Apply (C3) *)

(** C3 fails on the code. A Modify of a resting order whose side is the
    neutral side passes the validation ([IsValidSide] accepts it), takes
    the move branch, removes the order from its old level and erases that
    level, and only then throws from [GetOrCreateLevel]: the bid book has
    lost the level while the order index still holds the order, and the
    book's own [ValidateConsistency] rejects the state. *)
Theorem C3_modify_to_neutral_side_is_not_atomic :
  let before := OrderBook.apply_all [event "A" "B" 1 (px 10) 5] OrderBook.new in
  let record := event "M" "N" 1 (px 10) 5 in
  let result := OrderBook.Apply record before in
  MBORecord.IsValid record = true
  ∧ OrderBook.ValidateConsistency before = true
  ∧ OrderBook.bids_ before
    = {[ px 10 := {| PriceLevel.price := px 10; PriceLevel.total_size := 5;
                     PriceLevel.order_count := 1;
                     PriceLevel.orders := {[ 1 := 5 ]} |} ]}
  ∧ result.1 = inl (invalid_argument "Invalid side")
  ∧ OrderBook.bids_ (state_after result) = ∅
  ∧ OrderBook.bids_ (state_after result) ≠ OrderBook.bids_ before
  ∧ OrderBook.order_lookup_ (state_after result)
    = {[ 1 := OrderBook.Loc (px 10) BID_SIDE ]}
  ∧ OrderBook.ValidateConsistency (state_after result) = false.
Proof. vm_compute. repeat split; discriminate. Qed.

(** ** Index coherence (C4) *)

(** C4 fails on the code. The state left by an Add followed by a Modify
    of that order to the neutral side (the call of C3, which throws half
    way) is a state of the book in which the order index still maps order
    1 to price 10 on the bid side while the bid book has no level there;
    [ValidateConsistency] returns false on it. *)
Theorem C4_index_incoherent_after_failed_modify :
  let b := OrderBook.apply_all
             [event "A" "B" 1 (px 10) 5; event "M" "N" 1 (px 10) 5]
             OrderBook.new in
  OrderBook.order_lookup_ b !! 1 = Some (OrderBook.Loc (px 10) BID_SIDE)
  ∧ OrderBook.bids_ b !! px 10 = None
  ∧ ¬ coherent b
  ∧ OrderBook.ValidateConsistency b = false.
Proof.
  intros b.
  assert (Hl : OrderBook.order_lookup_ b !! 1
               = Some (OrderBook.Loc (px 10) BID_SIDE)) by (vm_compute; reflexivity).
  assert (Hb : OrderBook.bids_ b !! px 10 = None) by (vm_compute; reflexivity).
  split; [exact Hl |]. split; [exact Hb |].
  split; [| vm_compute; reflexivity].
  intros (Hidx & _). specialize (Hidx _ _ Hl).
  vm_compute in Hidx. exact Hidx.
Qed.

(** ** Duplicate Add (C5) *)

(** C5, as stated, fails: an Add of order 1, already in the index, that
    carries size 0 does not pass the validation, and [Apply] throws the
    invalid-record error before [AddOrder] looks the order id up, not the
    duplicate-order error. *)
Lemma C5_counterexample :
  let b := OrderBook.apply_all [event "A" "B" 1 (px 10) 2] OrderBook.new in
  let record := event "A" "B" 1 (px 10) 0 in
  MBORecord.action record = ACTION_ADD
  ∧ is_Some (OrderBook.order_lookup_ b !! MBORecord.order_id record)
  ∧ MBORecord.IsValid record = false
  ∧ OrderBook.Apply record b
    = (inl (invalid_argument "Invalid MBO record"), b)
  ∧ (OrderBook.Apply record b).1
    ≠ inl (runtime_error "Order ID already exists").
Proof.
  intros b record.
  split; [reflexivity |].
  split; [vm_compute; eauto |].
  split; [reflexivity |].
  split; [by apply Apply_invalid |].
  rewrite Apply_invalid by reflexivity. discriminate.
Qed.

(** C5, amended. An Add that passes the validation and whose order id is
    already in the order index makes [Apply] throw the duplicate-order
    error with the book untouched; [ProcessRecord] lets it through with
    the whole processor untouched, so no row is written, and
    [ProcessFile] goes on with the remaining events. After the two Adds
    of the scenario exactly one row has been written and the bid level at
    price 10 has [total_size = 2] and [order_count = 1]. *)
Theorem C5_duplicate_add_is_skipped
    (record : MBORecord.t) (p : MBOProcessor.t) :
  MBORecord.action record = ACTION_ADD →
  MBORecord.IsValid record = true →
  is_Some (OrderBook.order_lookup_ (MBOProcessor.order_book_ p)
             !! MBORecord.order_id record) →
  OrderBook.Apply record (MBOProcessor.order_book_ p)
  = (inl (runtime_error "Order ID already exists"), MBOProcessor.order_book_ p)
  ∧ MBOProcessor.ProcessRecord record p
    = (inl (runtime_error "Order ID already exists"), p)
  ∧ (∀ rest, MBOProcessor.ProcessFile (record :: rest) p
             = MBOProcessor.ProcessFile rest p)
  ∧ let after := MBOProcessor.ProcessFile
                   [event "A" "B" 1 (px 10) 2; event "A" "B" 1 (px 10) 3]
                   MBOProcessor.new in
    length (MBOProcessor.output after) = 1%nat
    ∧ OrderBook.bids_ (MBOProcessor.order_book_ after)
      = {[ px 10 := {| PriceLevel.price := px 10; PriceLevel.total_size := 2;
                       PriceLevel.order_count := 1;
                       PriceLevel.orders := {[ 1 := 2 ]} |} ]}.
Proof.
  intros Ha Hv Hin.
  pose proof (Apply_duplicate_add record _ Ha Hv Hin) as Happ.
  assert (Hc : Ascii.eqb (MBORecord.action record) ACTION_CLEAR = false)
    by (rewrite Ha; reflexivity).
  pose proof (ProcessRecord_Apply_throws record p _ Hc Happ) as Hp.
  repeat split; try done.
  intros rest. unfold MBOProcessor.ProcessFile. simpl. by rewrite Hp.
Qed.

Lemma C5_duplicate_add_is_skipped_witness :
  let first := event "A" "B" 1 (px 10) 2 in
  let second := event "A" "B" 1 (px 10) 3 in
  let p := MBOProcessor.ProcessFile [first] MBOProcessor.new in
  is_Some (OrderBook.order_lookup_ (MBOProcessor.order_book_ p) !! 1)
  ∧ MBOProcessor.ProcessRecord second p
    = (inl (runtime_error "Order ID already exists"), p).
Proof.
  intros first second p.
  assert (Hin : is_Some (OrderBook.order_lookup_ (MBOProcessor.order_book_ p)
                           !! MBORecord.order_id second))
    by (vm_compute; eauto).
  split; [exact Hin |].
  exact (proj1 (proj2 (C5_duplicate_add_is_skipped second p eq_refl eq_refl Hin))).
Defined.

(** ** The level-layer add (C7) *)

(** C7, as stated, fails: adding order 1 again, with size 3, to a level
    that holds it with size 2 changes the total size from 2 to 5, the
    order count from 1 to 2, and the stored size from 2 to 3. *)
Lemma C7_counterexample :
  let level := {| PriceLevel.price := px 10; PriceLevel.total_size := 2;
                  PriceLevel.order_count := 1;
                  PriceLevel.orders := {[ 1 := 2 ]} |} in
  let level' := PriceLevel.AddOrder 1 3 level in
  PriceLevel.orders level !! 1 = Some 2
  ∧ PriceLevel.total_size level' = 5
  ∧ PriceLevel.order_count level' = 2
  ∧ PriceLevel.orders level' !! 1 = Some 3
  ∧ level' ≠ level.
Proof. vm_compute. repeat split; discriminate. Qed.

(** C7, amended. The level-layer add does not look for the order id: for
    an id already present it overwrites the stored size with the new one,
    adds the new size to [total_size] and one to [order_count] (both
    modulo 2^32), and leaves the price and the other orders alone. *)
Theorem C7_level_add_overwrites_duplicate
    (level : PriceLevel.t) (oid old size : Z) :
  PriceLevel.orders level !! oid = Some old →
  let level' := PriceLevel.AddOrder oid size level in
  PriceLevel.total_size level' = u32 (PriceLevel.total_size level + size)
  ∧ PriceLevel.order_count level' = u32 (PriceLevel.order_count level + 1)
  ∧ PriceLevel.orders level' !! oid = Some size
  ∧ (∀ other, other ≠ oid →
       PriceLevel.orders level' !! other = PriceLevel.orders level !! other)
  ∧ dom (PriceLevel.orders level') = dom (PriceLevel.orders level)
  ∧ PriceLevel.price level' = PriceLevel.price level.
Proof.
  intros Hold level'. subst level'. unfold PriceLevel.AddOrder. simpl.
  repeat split.
  - apply lookup_insert_eq.
  - intros other Hne. by apply lookup_insert_ne.
  - rewrite dom_insert_L. apply elem_of_dom_2 in Hold.
    apply set_eq. intros x. rewrite elem_of_union, elem_of_singleton.
    split; [intros [-> | ?]; done | by right].
Qed.

Lemma C7_level_add_overwrites_duplicate_witness :
  let level := {| PriceLevel.price := px 10; PriceLevel.total_size := 2;
                  PriceLevel.order_count := 1;
                  PriceLevel.orders := {[ 1 := 2 ]} |} in
  PriceLevel.total_size (PriceLevel.AddOrder 1 3 level) = u32 (2 + 3).
Proof.
  intros level.
  exact (proj1 (C7_level_add_overwrites_duplicate level 1 2 3 eq_refl)).
Defined.

(** ** Ordering and non-empty levels (C9) *)

(** C9 fails on the code, in its part on non-empty levels. After the
    failed Modify of C3, a Modify of the same order at its recorded price
    and side takes the same-location branch, where [GetOrCreateLevel]
    creates the missing level and [PriceLevel::ModifyOrder] finds no such
    order in it: an empty level rests in the bid book and is visited by
    the iteration, and [GetTopBids] skips it. *)
Theorem C9_empty_level_rests_in_bid_book :
  let b := OrderBook.apply_all
             [event "A" "B" 1 (px 10) 5; event "M" "N" 1 (px 10) 5;
              event "M" "B" 1 (px 10) 7]
             OrderBook.new in
  OrderBook.iterate_bids b
  = [(px 10, {| PriceLevel.price := px 10; PriceLevel.total_size := 0;
                PriceLevel.order_count := 0; PriceLevel.orders := ∅ |})]
  ∧ Exists (λ e, PriceLevel.IsEmpty e.2 = true) (OrderBook.iterate_bids b)
  ∧ (OrderBook.GetTopBids MBP_LEVELS b).1 = inr [].
Proof.
  intros b.
  assert (Hit : OrderBook.iterate_bids b
    = [(px 10, {| PriceLevel.price := px 10; PriceLevel.total_size := 0;
                  PriceLevel.order_count := 0; PriceLevel.orders := ∅ |})])
    by (vm_compute; reflexivity).
  split; [exact Hit |]. split; [| vm_compute; reflexivity].
  rewrite Hit. apply Exists_cons_hd. reflexivity.
Qed.

(** ** Level sum (C6) *)

Lemma sum_sizes_nonneg (m : gmap Z Z) :
  map_Forall (λ _ sz, 0 < sz) m → 0 ≤ sum_sizes m.
Proof.
  induction m as [| i x m Hi IH] using map_ind; intros Hpos.
  - by rewrite sum_sizes_empty.
  - rewrite sum_sizes_insert by done.
    apply map_Forall_insert in Hpos as [Hx Hm]; [| done].
    specialize (IH Hm). lia.
Qed.

(** C6, as stated, fails: [total_size] is a 32-bit unsigned integer in
    [order.h], not a 64-bit one. After two Adds at one price with sizes
    2^32 - 1 and 1, the level's [total_size] is 0 while its orders sum to
    2^32. *)
Lemma C6_counterexample :
  let b := OrderBook.apply_all
             [event "A" "B" 1 (px 10) 4294967295; event "A" "B" 2 (px 10) 1]
             OrderBook.new in
  ∃ level, OrderBook.bids_ b !! px 10 = Some level
           ∧ PriceLevel.total_size level = 0
           ∧ sum_sizes (PriceLevel.orders level) = 4294967296
           ∧ ¬ level_sum_exact level.
Proof.
  eexists. split; [vm_compute; reflexivity |].
  split; [reflexivity |]. split; [vm_compute; reflexivity |].
  intros [Ht _]. vm_compute in Ht. discriminate.
Qed.

(** C6, amended. In every state the book is left in by fewer than 2^32
    calls of [Apply] from the empty book, whether they returned or threw,
    every level of either side has [total_size] equal to the sum of its
    per-order sizes reduced modulo 2^32, hence equal to the sum whenever
    the sum is below 2^32, and [order_count] equal to the number of its
    orders. *)
Theorem C6_level_sum_modulo_2_32
    (records : list MBORecord.t) (s : book_side) (p : Z) (level : PriceLevel.t) :
  Z.of_nat (length records) < 2 ^ 32 →
  OrderBook.levels s (OrderBook.apply_all records OrderBook.new) !! p
    = Some level →
  PriceLevel.total_size level = sum_sizes (PriceLevel.orders level) mod 2 ^ 32
  ∧ PriceLevel.order_count level = Z.of_nat (size (PriceLevel.orders level))
  ∧ (sum_sizes (PriceLevel.orders level) < 2 ^ 32 →
     PriceLevel.total_size level = sum_sizes (PriceLevel.orders level)).
Proof.
  intros Hlen Hp.
  pose proof (book_inv_shape _ _ s (apply_all_inv records Hlen) _ _ Hp)
    as (_ & _ & (Ht & Hc) & _ & Hpos).
  split; [exact Ht |]. split; [exact Hc |].
  intros Hsmall. rewrite Ht. apply u32_small.
  split; [by apply sum_sizes_nonneg | done].
Qed.

Lemma C6_level_sum_modulo_2_32_witness :
  let records := [event "A" "B" 1 (px 10) 3; event "A" "B" 2 (px 10) 4] in
  let level := {| PriceLevel.price := px 10; PriceLevel.total_size := 7;
                  PriceLevel.order_count := 2;
                  PriceLevel.orders := {[ 1 := 3; 2 := 4 ]} |} in
  PriceLevel.total_size level = sum_sizes (PriceLevel.orders level) mod 2 ^ 32
  ∧ PriceLevel.order_count level = Z.of_nat (size (PriceLevel.orders level)).
Proof.
  intros records level.
  assert (Z.of_nat (length records) < 2 ^ 32) as Hlen by (simpl; lia).
  assert (OrderBook.levels Bid (OrderBook.apply_all records OrderBook.new) !! px 10
          = Some level) as Hp by (vm_compute; reflexivity).
  destruct (C6_level_sum_modulo_2_32 records Bid (px 10) level Hlen Hp)
    as (Ht & Hc & _).
  exact (conj Ht Hc).
Defined.


(** ** Add then Cancel (C8) *)

Lemma RemoveOrder_AddOrder oid sz level :
  PriceLevel.orders level !! oid = None →
  0 ≤ PriceLevel.total_size level < 2 ^ 32 →
  0 ≤ PriceLevel.order_count level < 2 ^ 32 →
  PriceLevel.order_count level ≠ 0 →
  PriceLevel.RemoveOrder oid (PriceLevel.AddOrder oid sz level) = level.
Proof.
  intros Hfresh Ht Hc Hne.
  unfold PriceLevel.RemoveOrder, PriceLevel.AddOrder. simpl.
  rewrite lookup_insert_eq.
  rewrite !u32_sub_l, !(u32_small (PriceLevel.order_count level + 1 - 1)) by lia.
  replace (PriceLevel.total_size level + sz - sz)
    with (PriceLevel.total_size level) by lia.
  replace (PriceLevel.order_count level + 1 - 1)
    with (PriceLevel.order_count level) by lia.
  rewrite u32_small by done.
  destruct (Z.eqb_spec (PriceLevel.order_count level) 0); [done |].
  rewrite delete_insert_eq, delete_id by done. by destruct level.
Qed.

Lemma RemoveOrder_AddOrder_fresh oid sz p :
  PriceLevel.IsEmpty
    (PriceLevel.RemoveOrder oid (PriceLevel.AddOrder oid sz (init_level p None)))
  = true.
Proof.
  rewrite init_level_None.
  unfold PriceLevel.RemoveOrder, PriceLevel.AddOrder. simpl.
  by rewrite lookup_insert_eq.
Qed.

(** Putting an order that rests nowhere and taking it again gives back
    the map of levels. *)
Lemma take_put_levels (m : gmap Z PriceLevel.t) p oid sz :
  map_Forall (level_shape (2 ^ 32 - 1)) m → no_empty_level m →
  (∀ level, m !! p = Some level → PriceLevel.orders level !! oid = None) →
  p ≠ kUndefPrice →
  OrderBook.erase_if_empty p
    (alter (PriceLevel.RemoveOrder oid) p
       (OrderBook.touch_level p
          (alter (PriceLevel.AddOrder oid sz) p (OrderBook.touch_level p m))))
  = m.
Proof.
  intros Hshape Hfull Hfresh Hp. apply map_eq. intros q.
  rewrite lookup_take_map, !lookup_alter_touch.
  destruct (decide (p = q)) as [<- | Hpq]; [| done].
  rewrite decide_True by done. cbv zeta.
  destruct (m !! p) as [level |] eqn:Hl.
  - pose proof (Hshape _ _ Hl) as (Hpr & _ & (Ht & Hc) & Hn & _).
    pose proof (Hfull _ _ Hl) as Hne. simpl in Hne.
    rewrite (init_level_Some p level) by congruence.
    rewrite init_level_Some by (simpl; congruence).
    rewrite RemoveOrder_AddOrder; [by rewrite Hne | by apply Hfresh | | |].
    + rewrite Ht. apply u32_range.
    + lia.
    + unfold PriceLevel.IsEmpty in Hne. apply orb_false_elim in Hne as [_ Hne].
      by destruct (Z.eqb_spec (PriceLevel.order_count level) 0).
  - rewrite init_level_Some by (rewrite init_level_None; simpl; congruence).
    by rewrite RemoveOrder_AddOrder_fresh.
Qed.

(** On a book that satisfies the data model (the invariant of the levels,
    coherence of the two indices, no empty level at rest) and whose index
    does not hold the order id, a valid Add followed by a valid Cancel of
    the same id leaves both side books and the order index exactly as
    they were. *)
Theorem add_then_cancel_restores_wf_book
    (b : OrderBook.t) (add cancel : MBORecord.t) :
  book_wf b →
  OrderBook.order_lookup_ b !! MBORecord.order_id add = None →
  MBORecord.action add = ACTION_ADD →
  MBORecord.IsValid add = true →
  MBORecord.action cancel = ACTION_CANCEL →
  MBORecord.IsValid cancel = true →
  MBORecord.order_id cancel = MBORecord.order_id add →
  let b' := OrderBook.apply_all [add; cancel] b in
  OrderBook.bids_ b' = OrderBook.bids_ b
  ∧ OrderBook.asks_ b' = OrderBook.asks_ b
  ∧ OrderBook.order_lookup_ b' = OrderBook.order_lookup_ b.
Proof.
  intros (Hinv & _ & Hfb & Hfa) Hnone Haa Hva Hac Hvc Hoid b'. subst b'.
  unfold OrderBook.apply_all. simpl. rewrite !Apply_step.
  assert (step add b = add_step add b) as ->
    by (unfold step; by rewrite Hva, Haa).
  assert (∀ b0, step cancel b0 = cancel_step cancel b0) as ->
    by (intros b0; unfold step; by rewrite Hvc, Hac).
  destruct (IsValid_price_size add Hva) as (Hp & Hsz);
    [by rewrite Haa |].
  unfold add_step. rewrite Hnone.
  destruct (side_of_char (MBORecord.side add)) as [s |] eqn:Hs.
  2: { unfold cancel_step. by rewrite Hoid, Hnone. }
  unfold cancel_step. rewrite Hoid.
  assert (OrderBook.order_lookup_
            (changed (put_order s (MBORecord.price add) (MBORecord.order_id add)
                        (MBORecord.size add) (MBORecord.side add) b))
          !! MBORecord.order_id add
          = Some (OrderBook.Loc (MBORecord.price add) (MBORecord.side add))) as ->
    by (unfold put_order; simpl; apply lookup_insert_eq).
  simpl. rewrite Hs.
  pose proof (not_resting_unindexed _ _ _ Hinv Hnone) as Hfree.
  assert (OrderBook.erase_if_empty (MBORecord.price add)
            (alter (PriceLevel.RemoveOrder (MBORecord.order_id add))
               (MBORecord.price add)
               (OrderBook.touch_level (MBORecord.price add)
                  (alter (PriceLevel.AddOrder (MBORecord.order_id add)
                            (MBORecord.size add)) (MBORecord.price add)
                     (OrderBook.touch_level (MBORecord.price add)
                        (OrderBook.levels s b)))))
          = OrderBook.levels s b) as Hback.
  { apply take_put_levels; [by apply book_inv_shape | by destruct s | | done].
    intros level Hl. exact (Hfree s _ level Hl). }
  unfold take_order, forget_order, put_order, changed.
  destruct s; simpl in *; rewrite Hback;
    (split; [done |]); (split; [done |]);
    by rewrite delete_insert_eq, delete_id.
Qed.

(** The round trip on a book that holds another order at the same price:
    the level is grown and shrunk back, not erased. *)
Example add_then_cancel_restores_wf_book_example :
  let b := OrderBook.apply_all [event "A" "B" 1 (px 10) 3] OrderBook.new in
  let add := event "A" "B" 2 (px 10) 4 in
  let cancel := event "C" "B" 2 (px 10) 4 in
  book_wf b
  ∧ OrderBook.bids_ (OrderBook.apply_all [add; cancel] b) = OrderBook.bids_ b.
Proof.
  intros b add cancel.
  assert (book_wf b) as Hwf by (apply (bool_decide_unpack _); vm_compute; exact I).
  split; [exact Hwf |].
  exact (proj1 (add_then_cancel_restores_wf_book b add cancel Hwf
                  eq_refl eq_refl eq_refl eq_refl eq_refl eq_refl)).
Qed.

(** C8 fails on the code, on a book the failed Modify of C3 has been
    through. After that Modify, a Modify of the same order at its
    recorded price and side leaves an empty level at price 10 in the bid
    book (the state of C9). From there the Add of order 2 at price 10 and
    its Cancel both return normally, and the Cancel erases the level: the
    bid book ends empty instead of as it was. *)
Theorem C8_round_trip_erases_empty_level :
  let before := OrderBook.apply_all
                  [event "A" "B" 1 (px 10) 5; event "M" "N" 1 (px 10) 5;
                   event "M" "B" 1 (px 10) 7]
                  OrderBook.new in
  let add := event "A" "B" 2 (px 10) 4 in
  let cancel := event "C" "B" 2 (px 10) 4 in
  let middle := OrderBook.Apply add before in
  let after := OrderBook.Apply cancel (state_after middle) in
  OrderBook.order_lookup_ before !! 2 = None
  ∧ MBORecord.IsValid add = true
  ∧ MBORecord.IsValid cancel = true
  ∧ middle.1 = inr tt
  ∧ after.1 = inr tt
  ∧ OrderBook.bids_ before
    = {[ px 10 := {| PriceLevel.price := px 10; PriceLevel.total_size := 0;
                     PriceLevel.order_count := 0; PriceLevel.orders := ∅ |} ]}
  ∧ OrderBook.bids_ (state_after after) = ∅
  ∧ OrderBook.bids_ (state_after after) ≠ OrderBook.bids_ before
  ∧ OrderBook.order_lookup_ (state_after after) = OrderBook.order_lookup_ before
  ∧ ¬ book_wf before.
Proof.
  intros before add cancel middle after.
  assert (OrderBook.bids_ before !! px 10
          = Some {| PriceLevel.price := px 10; PriceLevel.total_size := 0;
                    PriceLevel.order_count := 0; PriceLevel.orders := ∅ |})
    as Hlevel by (vm_compute; reflexivity).
  repeat (split; [vm_compute; first [reflexivity | discriminate] |]).
  intros (_ & _ & Hfull & _). specialize (Hfull _ _ Hlevel). discriminate.
Qed.

(** ** Well-formed output rows (C10) *)

Lemma ProcessFile_rows_well_formed (records : list MBORecord.t)
    (p : MBOProcessor.t) :
  MBOProcessor.validate_output_ p = true →
  levels_unsigned (MBOProcessor.order_book_ p) →
  Forall (λ row, row_well_formed row.2) (MBOProcessor.output p) →
  Forall (λ row, row_well_formed row.2)
    (MBOProcessor.output (MBOProcessor.ProcessFile records p)).
Proof.
  unfold MBOProcessor.ProcessFile. revert p.
  induction records as [| r rest IH]; intros p Hv Hu Hout; simpl; [done |].
  destruct (ProcessRecord_cases r p) as (Hv' & Hb & Ha & _ & Hrows).
  set (b1 := if Ascii.eqb (MBORecord.action r) ACTION_CLEAR
             then changed (clear_book (MBOProcessor.order_book_ p))
             else step r (MBOProcessor.order_book_ p)) in *.
  assert (levels_unsigned b1) as Hu1.
  { subst b1. destruct (Ascii.eqb (MBORecord.action r) ACTION_CLEAR);
      [apply clear_book_unsigned | by apply step_unsigned]. }
  apply IH.
  - congruence.
  - unfold levels_unsigned. rewrite Hb, Ha. exact Hu1.
  - destruct Hrows as [-> | [Hpass ->]]; [done |].
    apply Forall_app. split; [done |]. apply Forall_singleton. simpl.
    apply validation_error_None; [by apply snapshot_unsigned |].
    unfold passes_validation in Hpass. rewrite Hv in Hpass. simpl in Hpass.
    by destruct (MBOProcessor.validation_error (snapshot_of r b1)).
Qed.

(** C10. With the output validation enabled, as the constructor leaves it
    and the command line sets it again, every row in the output of a run
    over any sequence of events is well-formed: each of its ten bid and
    ten ask slots that carries a price other than [kUndefPrice] has a
    strictly positive size and count. And [WriteMBPRecord] throws on a
    candidate record that is not well-formed, leaving the output as it
    was. *)
Theorem C10_written_rows_are_well_formed :
  (∀ records : list MBORecord.t,
     Forall (λ row, row_well_formed row.2)
       (MBOProcessor.output
          (MBOProcessor.ProcessFile records
             (MBOProcessor.SetValidateOutput true MBOProcessor.new))))
  ∧ (∀ (p : MBOProcessor.t) (candidate : MBPRecord.t),
       MBOProcessor.validate_output_ p = true →
       row_unsigned candidate →
       ¬ row_well_formed candidate →
       ∃ e, MBOProcessor.WriteMBPRecord candidate p = (inl e, p)).
Proof.
  split.
  - intros records. apply ProcessFile_rows_well_formed; [done | | done].
    split; simpl; apply map_Forall_empty.
  - intros p candidate Hv Hu Hnot.
    destruct (validation_error_Some candidate Hu Hnot) as [e He].
    exists e. by apply WriteMBPRecord_rejects.
Qed.

Lemma C10_written_rows_are_well_formed_witness :
  let candidate :=
    MBPRecord.FromOrderBook (event "A" "B" 1 (px 10) 5)
      [{| CompactPriceLevel.price := px 10; CompactPriceLevel.size := 0;
          CompactPriceLevel.count := 1 |}] [] in
  ∃ e, MBOProcessor.WriteMBPRecord candidate MBOProcessor.new
       = (inl e, MBOProcessor.new).
Proof.
  intros candidate.
  apply (proj2 C10_written_rows_are_well_formed MBOProcessor.new candidate).
  - reflexivity.
  - unfold row_unsigned. apply (bool_decide_unpack _). vm_compute. exact I.
  - intros Hwf. destruct (Hwf 0%nat) as [Hb _]; [vm_compute; lia |].
    unfold slot_ok in Hb. vm_compute in Hb.
    destruct Hb as [Hb _]; [discriminate | discriminate].
Defined.

(** * Further properties of the code *)

(** ** utils.cpp: splitting a line *)

Lemma SplitCSVLine_not_nil (line : string) : utils.SplitCSVLine line ≠ [].
Proof.
  destruct line as [| c rest]; simpl; [done |].
  destruct (Ascii.eqb c ","); [done |].
  by destruct (utils.SplitCSVLine rest).
Qed.

(** X1. [SplitCSVLine] returns one field more than the line has commas,
    so at least one, and no field contains a comma. *)
Theorem SplitCSVLine_fields (line : string) :
  length (utils.SplitCSVLine line) = S (count_char "," line)
  ∧ Forall (λ field, count_char "," field = 0%nat) (utils.SplitCSVLine line).
Proof.
  induction line as [| c rest [IHlen IHfree]]; simpl.
  - split; [done |]. by apply Forall_singleton.
  - destruct (Ascii.eqb c ",") eqn:Hc; simpl.
    + split; [by rewrite IHlen |]. by apply Forall_cons.
    + pose proof (SplitCSVLine_not_nil rest) as Hne.
      destruct (utils.SplitCSVLine rest) as [| field fields]; [done |].
      simpl in *. split; [done |].
      apply Forall_cons in IHfree as [Hfield Hfields].
      apply Forall_cons. split; [| done]. simpl. by rewrite Hc.
Qed.

(** X2. Joining the fields of a line with commas gives the line back. *)
Theorem SplitCSVLine_concat (line : string) :
  String.concat "," (utils.SplitCSVLine line) = line.
Proof.
  induction line as [| c rest IH]; simpl; [done |].
  destruct (Ascii.eqb_spec c ",") as [-> | Hc].
  - pose proof (SplitCSVLine_not_nil rest) as Hne.
    destruct (utils.SplitCSVLine rest) as [| field fields] eqn:Hs; [done |].
    simpl in *. by rewrite IH.
  - pose proof (SplitCSVLine_not_nil rest) as Hne.
    destruct (utils.SplitCSVLine rest) as [| field fields] eqn:Hs; [done |].
    simpl in *. destruct fields as [| field' fields']; simpl in *.
    + by rewrite IH.
    + by rewrite <- IH.
Qed.

Lemma SplitCSVLine_app_comma_free (field rest : string) :
  count_char "," field = 0%nat →
  utils.SplitCSVLine (field ++ String "," rest)
  = field :: utils.SplitCSVLine rest.
Proof.
  induction field as [| c field IH]; simpl; [done |].
  destruct (Ascii.eqb c ",") eqn:Hc; [done |]. simpl.
  intros Hfree. by rewrite IH.
Qed.

Lemma SplitCSVLine_comma_free (field : string) :
  count_char "," field = 0%nat → utils.SplitCSVLine field = [field].
Proof.
  induction field as [| c field IH]; simpl; [done |].
  destruct (Ascii.eqb c ",") eqn:Hc; [done |]. simpl.
  intros Hfree. by rewrite IH.
Qed.

(** X3. Splitting the join of comma-free fields, at least one, gives the
    fields back. *)
Theorem SplitCSVLine_of_concat (fields : list string) :
  fields ≠ [] →
  Forall (λ field, count_char "," field = 0%nat) fields →
  utils.SplitCSVLine (String.concat "," fields) = fields.
Proof.
  induction fields as [| field rest IH]; [done |].
  intros _ Hfree. apply Forall_cons in Hfree as [Hfield Hrest].
  destruct rest as [| field' rest'].
  - simpl. by apply SplitCSVLine_comma_free.
  - change (String.concat "," (field :: field' :: rest'))
      with (field ++ String "," (String.concat "," (field' :: rest')))%string.
    rewrite SplitCSVLine_app_comma_free by done.
    by rewrite IH.
Qed.

Lemma SplitCSVLine_of_concat_witness :
  utils.SplitCSVLine (String.concat "," ["ts"; EmptyString; "A"; "5.51"]%string)
  = ["ts"; EmptyString; "A"; "5.51"]%string.
Proof.
  apply SplitCSVLine_of_concat; [done |].
  apply (bool_decide_unpack _). vm_compute. exact I.
Defined.

(** ** utils.cpp: parsing unsigned integers *)

Lemma u64_range a : 0 ≤ u64 a < 2 ^ 64.
Proof. unfold u64. apply Z.mod_pos_bound. lia. Qed.

Lemma parse_digits_decimal (result : Z) (str : string) :
  0 ≤ result < 2 ^ 64 →
  utils.parse_digits result str
  = u64 (result * 10 ^ Z.of_nat (length (digits_of str))
         + decimal (digits_of str)).
Proof.
  revert result. induction str as [| c rest IH]; intros result Hr; simpl.
  - unfold u64. rewrite Z.mod_small; lia.
  - destruct (utils.is_digit c); [| by apply IH].
    rewrite IH by apply u64_range. simpl length.
    unfold u64. rewrite Nat2Z.inj_succ, Z.pow_succ_r by lia.
    rewrite <- Zplus_mod_idemp_l, Zmult_mod_idemp_l, Zplus_mod_idemp_l.
    f_equal. simpl decimal. lia.
Qed.

Lemma ParseUint64_value (str : string) :
  utils.ParseUint64 str = decimal (digits_of str) mod 2 ^ 64
  ∧ (0 ≤ decimal (digits_of str) < 2 ^ 64 →
     utils.ParseUint64 str = decimal (digits_of str))
  ∧ (digits_of str = [] → utils.ParseUint64 str = 0).
Proof.
  assert (utils.ParseUint64 str = decimal (digits_of str) mod 2 ^ 64) as Hmod.
  { unfold utils.ParseUint64. rewrite parse_digits_decimal by lia.
    unfold u64. f_equal. }
  split; [done |]. split.
  - intros Hsmall. rewrite Hmod. by apply Z.mod_small.
  - intros Hnone. rewrite Hmod, Hnone. reflexivity.
Qed.

(** X4. [ParseUint64] skips every character that is not a decimal digit
    and returns the number the remaining digits denote, reduced modulo
    2^64; so the number itself whenever it is below 2^64, and 0 for a
    string without digits. *)
Theorem ParseUint64_decimal (str : string) :
  utils.ParseUint64 str = decimal (digits_of str) mod 2 ^ 64
  ∧ (0 ≤ decimal (digits_of str) < 2 ^ 64 →
     utils.ParseUint64 str = decimal (digits_of str))
  ∧ (digits_of str = [] → utils.ParseUint64 str = 0).
Proof. intros. by apply ParseUint64_value. Qed.

(** X5. The narrower parsers truncate: [ParseUint32], [ParseUint16] and
    [ParseUint8] return the number the digits denote reduced modulo 2^32,
    2^16 and 2^8, not an error, when it does not fit. *)
Theorem ParseUint_narrow_decimal (str : string) :
  utils.ParseUint32 str = decimal (digits_of str) mod 2 ^ 32
  ∧ utils.ParseUint16 str = decimal (digits_of str) mod 2 ^ 16
  ∧ utils.ParseUint8 str = decimal (digits_of str) mod 2 ^ 8.
Proof.
  unfold utils.ParseUint32, utils.ParseUint16, utils.ParseUint8.
  rewrite (proj1 (ParseUint64_value str)).
  repeat split.
  - apply Z.mod_mod_divide. exists (2 ^ 32). lia.
  - apply Z.mod_mod_divide. exists (2 ^ 48). lia.
  - apply Z.mod_mod_divide. exists (2 ^ 56). lia.
Qed.

Lemma ParseUint64_decimal_witness :
  utils.ParseUint64 "12a3" = 123 ∧ utils.ParseUint64 "n/a" = 0.
Proof.
  split.
  - apply (proj1 (proj2 (ParseUint64_decimal "12a3"))). vm_compute.
    split; [discriminate | reflexivity].
  - apply (proj2 (proj2 (ParseUint64_decimal "n/a"))). reflexivity.
Defined.

(** ** records.h: the level slots of a snapshot *)

Lemma SetBidLevel_arrays_ok i p sz ct r :
  arrays_ok r → arrays_ok (MBPRecord.SetBidLevel i p sz ct r).
Proof.
  intros (H1 & H2 & H3 & H4 & H5 & H6). unfold MBPRecord.SetBidLevel.
  destruct (i <? MBP_LEVELS)%nat; [| done].
  repeat split; simpl; try done; by rewrite length_insert.
Qed.

Lemma SetAskLevel_arrays_ok i p sz ct r :
  arrays_ok r → arrays_ok (MBPRecord.SetAskLevel i p sz ct r).
Proof.
  intros (H1 & H2 & H3 & H4 & H5 & H6). unfold MBPRecord.SetAskLevel.
  destruct (i <? MBP_LEVELS)%nat; [| done].
  repeat split; simpl; try done; by rewrite length_insert.
Qed.

Lemma lookup_total_insert_Z (l : list Z) (i j : nat) (x : Z) :
  (i < length l)%nat →
  <[i := x]> l !!! j = if decide (i = j) then x else l !!! j.
Proof.
  intros Hi. case_decide as Hij.
  - subst j. by apply list_lookup_total_insert_eq.
  - by apply list_lookup_total_insert_ne.
Qed.

Lemma SetBidLevel_get (r : MBPRecord.t) (i : nat) (p sz ct : Z) :
  arrays_ok r →
  ((i < MBP_LEVELS)%nat →
     MBPRecord.GetBidLevel (Z.of_nat i) (MBPRecord.SetBidLevel i p sz ct r)
     = {| CompactPriceLevel.price := p; CompactPriceLevel.size := sz;
          CompactPriceLevel.count := ct |})
  ∧ (∀ j : Z, j ≠ Z.of_nat i →
       MBPRecord.GetBidLevel j (MBPRecord.SetBidLevel i p sz ct r)
       = MBPRecord.GetBidLevel j r)
  ∧ (∀ j : Z,
       MBPRecord.GetAskLevel j (MBPRecord.SetBidLevel i p sz ct r)
       = MBPRecord.GetAskLevel j r)
  ∧ ((MBP_LEVELS ≤ i)%nat → MBPRecord.SetBidLevel i p sz ct r = r)
  ∧ (∀ j : Z, j < 0 ∨ Z.of_nat MBP_LEVELS ≤ j →
       MBPRecord.GetBidLevel j r = CompactPriceLevel.new).
Proof.
  intros (H1 & H2 & H3 & H4 & H5 & H6).
  unfold MBPRecord.SetBidLevel, MBPRecord.GetBidLevel, MBPRecord.GetAskLevel.
  split; [| split; [| split; [| split]]].
  - intros Hi. destruct (Nat.ltb_spec i MBP_LEVELS); [| lia].
    destruct (Z.leb_spec 0 (Z.of_nat i)); [| lia].
    destruct (Z.ltb_spec (Z.of_nat i) (Z.of_nat MBP_LEVELS)); [| lia].
    simpl. rewrite Nat2Z.id.
    by rewrite !list_lookup_total_insert_eq by lia.
  - intros j Hj. destruct (Nat.ltb_spec i MBP_LEVELS); [| done].
    destruct (Z.leb_spec 0 j); [| done].
    destruct (Z.ltb_spec j (Z.of_nat MBP_LEVELS)); [| done].
    simpl. by rewrite !list_lookup_total_insert_ne by lia.
  - intros j. by destruct (i <? MBP_LEVELS)%nat.
  - intros Hi. by destruct (Nat.ltb_spec i MBP_LEVELS); [lia |].
  - intros j Hj. destruct (Z.leb_spec 0 j); [| done].
    by destruct (Z.ltb_spec j (Z.of_nat MBP_LEVELS)); [lia |].
Qed.

(** X6. Writing a bid slot and reading it back: on a snapshot whose
    arrays have their ten entries, [GetBidLevel] after [SetBidLevel] at an
    index below ten returns what was written there and what was there
    before at any other index, and the ask slots are untouched;
    [SetBidLevel] at an index of ten or more changes nothing, and
    [GetBidLevel] at a negative index or one of ten or more returns the
    empty level. *)
Theorem SetBidLevel_GetBidLevel (r : MBPRecord.t) (i : nat) (p sz ct : Z) :
  arrays_ok r →
  ((i < MBP_LEVELS)%nat →
     MBPRecord.GetBidLevel (Z.of_nat i) (MBPRecord.SetBidLevel i p sz ct r)
     = {| CompactPriceLevel.price := p; CompactPriceLevel.size := sz;
          CompactPriceLevel.count := ct |})
  ∧ (∀ j : Z, j ≠ Z.of_nat i →
       MBPRecord.GetBidLevel j (MBPRecord.SetBidLevel i p sz ct r)
       = MBPRecord.GetBidLevel j r)
  ∧ (∀ j : Z,
       MBPRecord.GetAskLevel j (MBPRecord.SetBidLevel i p sz ct r)
       = MBPRecord.GetAskLevel j r)
  ∧ ((MBP_LEVELS ≤ i)%nat → MBPRecord.SetBidLevel i p sz ct r = r)
  ∧ (∀ j : Z, j < 0 ∨ Z.of_nat MBP_LEVELS ≤ j →
       MBPRecord.GetBidLevel j r = CompactPriceLevel.new).
Proof. intros. by apply SetBidLevel_get. Qed.

Lemma SetBidLevel_GetBidLevel_witness :
  let r := MBPRecord.FromOrderBook (event "A" "B" 1 (px 10) 5) [] [] in
  MBPRecord.GetBidLevel 3 (MBPRecord.SetBidLevel 3 (px 10) 5 1 r)
  = {| CompactPriceLevel.price := px 10; CompactPriceLevel.size := 5;
       CompactPriceLevel.count := 1 |}.
Proof.
  intros r.
  assert (arrays_ok r) as Hok by (repeat split; reflexivity).
  apply (proj1 (SetBidLevel_GetBidLevel r 3 (px 10) 5 1 Hok)).
  vm_compute. lia.
Defined.

Lemma copy_bid_levels_arrays_ok i levels r :
  arrays_ok r → arrays_ok (MBPRecord.copy_bid_levels i levels r).
Proof.
  revert i r. induction levels as [| l rest IH]; intros i r Hr; simpl; [done |].
  destruct (i <? MBP_LEVELS)%nat; [| done].
  by apply IH, SetBidLevel_arrays_ok.
Qed.

Lemma copy_ask_levels_arrays_ok i levels r :
  arrays_ok r → arrays_ok (MBPRecord.copy_ask_levels i levels r).
Proof.
  revert i r. induction levels as [| l rest IH]; intros i r Hr; simpl; [done |].
  destruct (i <? MBP_LEVELS)%nat; [| done].
  by apply IH, SetAskLevel_arrays_ok.
Qed.

Lemma compact_eta (c : CompactPriceLevel.t) :
  {| CompactPriceLevel.price := CompactPriceLevel.price c;
     CompactPriceLevel.size := CompactPriceLevel.size c;
     CompactPriceLevel.count := CompactPriceLevel.count c |} = c.
Proof. by destruct c. Qed.

(** The copy loop started at index [i] fills the slots from [i] on with
    the levels it is given and leaves the slots before [i] alone. *)
Lemma copy_bid_levels_get i levels r (j : nat) :
  arrays_ok r → (j < MBP_LEVELS)%nat →
  MBPRecord.GetBidLevel (Z.of_nat j) (MBPRecord.copy_bid_levels i levels r)
  = if decide (i ≤ j)%nat
    then default (MBPRecord.GetBidLevel (Z.of_nat j) r) (levels !! (j - i)%nat)
    else MBPRecord.GetBidLevel (Z.of_nat j) r.
Proof.
  revert i r. induction levels as [| l rest IH]; intros i r Hr Hj; simpl.
  - by case_decide.
  - destruct (Nat.ltb_spec i MBP_LEVELS) as [Hi | Hi].
    + rewrite IH by (by try apply SetBidLevel_arrays_ok).
      destruct (SetBidLevel_get r i (CompactPriceLevel.price l)
                  (CompactPriceLevel.size l) (CompactPriceLevel.count l) Hr)
        as (Hsame & Hother & _).
      destruct (decide (S i ≤ j)%nat) as [Hlt | Hge].
      * rewrite decide_True by lia.
        replace (j - i)%nat with (S (j - S i)) by lia. simpl.
        rewrite Hother by lia. done.
      * destruct (decide (i ≤ j)%nat) as [Hle | Hgt].
        -- assert (j = i) as -> by lia. rewrite Nat.sub_diag. simpl.
           rewrite Hsame by done. apply compact_eta.
        -- rewrite Hother by lia. done.
    + rewrite decide_False by lia. done.
Qed.

Lemma copy_ask_levels_get_bid i levels r (j : Z) :
  MBPRecord.GetBidLevel j (MBPRecord.copy_ask_levels i levels r)
  = MBPRecord.GetBidLevel j r.
Proof.
  revert i r. induction levels as [| l rest IH]; intros i r; simpl; [done |].
  destruct (i <? MBP_LEVELS)%nat eqn:Hi; [| done].
  rewrite IH. unfold MBPRecord.SetAskLevel. by rewrite Hi.
Qed.

Lemma copy_bid_levels_get_ask i levels r (j : Z) :
  MBPRecord.GetAskLevel j (MBPRecord.copy_bid_levels i levels r)
  = MBPRecord.GetAskLevel j r.
Proof.
  revert i r. induction levels as [| l rest IH]; intros i r; simpl; [done |].
  destruct (i <? MBP_LEVELS)%nat eqn:Hi; [| done].
  rewrite IH. unfold MBPRecord.SetBidLevel. by rewrite Hi.
Qed.

Lemma SetAskLevel_GetAskLevel (r : MBPRecord.t) (i : nat) (p sz ct : Z) :
  arrays_ok r →
  ((i < MBP_LEVELS)%nat →
     MBPRecord.GetAskLevel (Z.of_nat i) (MBPRecord.SetAskLevel i p sz ct r)
     = {| CompactPriceLevel.price := p; CompactPriceLevel.size := sz;
          CompactPriceLevel.count := ct |})
  ∧ (∀ j : Z, j ≠ Z.of_nat i →
       MBPRecord.GetAskLevel j (MBPRecord.SetAskLevel i p sz ct r)
       = MBPRecord.GetAskLevel j r).
Proof.
  intros (H1 & H2 & H3 & H4 & H5 & H6).
  unfold MBPRecord.SetAskLevel, MBPRecord.GetAskLevel.
  split.
  - intros Hi. destruct (Nat.ltb_spec i MBP_LEVELS); [| lia].
    destruct (Z.leb_spec 0 (Z.of_nat i)); [| lia].
    destruct (Z.ltb_spec (Z.of_nat i) (Z.of_nat MBP_LEVELS)); [| lia].
    simpl. rewrite Nat2Z.id.
    by rewrite !list_lookup_total_insert_eq by lia.
  - intros j Hj. destruct (Nat.ltb_spec i MBP_LEVELS); [| done].
    destruct (Z.leb_spec 0 j); [| done].
    destruct (Z.ltb_spec j (Z.of_nat MBP_LEVELS)); [| done].
    simpl. by rewrite !list_lookup_total_insert_ne by lia.
Qed.

Lemma copy_ask_levels_get i levels r (j : nat) :
  arrays_ok r → (j < MBP_LEVELS)%nat →
  MBPRecord.GetAskLevel (Z.of_nat j) (MBPRecord.copy_ask_levels i levels r)
  = if decide (i ≤ j)%nat
    then default (MBPRecord.GetAskLevel (Z.of_nat j) r) (levels !! (j - i)%nat)
    else MBPRecord.GetAskLevel (Z.of_nat j) r.
Proof.
  revert i r. induction levels as [| l rest IH]; intros i r Hr Hj; simpl.
  - by case_decide.
  - destruct (Nat.ltb_spec i MBP_LEVELS) as [Hi | Hi].
    + rewrite IH by (by try apply SetAskLevel_arrays_ok).
      destruct (SetAskLevel_GetAskLevel r i (CompactPriceLevel.price l)
                  (CompactPriceLevel.size l) (CompactPriceLevel.count l) Hr)
        as (Hsame & Hother).
      destruct (decide (S i ≤ j)%nat) as [Hlt | Hge].
      * rewrite decide_True by lia.
        replace (j - i)%nat with (S (j - S i)) by lia. simpl.
        rewrite Hother by lia. done.
      * destruct (decide (i ≤ j)%nat) as [Hle | Hgt].
        -- assert (j = i) as -> by lia. rewrite Nat.sub_diag. simpl.
           rewrite Hsame by done. apply compact_eta.
        -- rewrite Hother by lia. done.
    + rewrite decide_False by lia. done.
Qed.

Lemma copy_bid_levels_header i levels r :
  header_fields (MBPRecord.copy_bid_levels i levels r) = header_fields r.
Proof.
  revert i r. induction levels as [| l rest IH]; intros i r; simpl; [done |].
  destruct (i <? MBP_LEVELS)%nat eqn:Hi; [| done].
  rewrite IH. unfold MBPRecord.SetBidLevel. by rewrite Hi.
Qed.

Lemma copy_ask_levels_header i levels r :
  header_fields (MBPRecord.copy_ask_levels i levels r) = header_fields r.
Proof.
  revert i r. induction levels as [| l rest IH]; intros i r; simpl; [done |].
  destruct (i <? MBP_LEVELS)%nat eqn:Hi; [| done].
  rewrite IH. unfold MBPRecord.SetAskLevel. by rewrite Hi.
Qed.

Lemma FromOrderBook_projection (mbo : MBORecord.t)
    (bids asks : list CompactPriceLevel.t) :
  let r := MBPRecord.FromOrderBook mbo bids asks in
  (∀ i : nat, (i < MBP_LEVELS)%nat →
     MBPRecord.GetBidLevel (Z.of_nat i) r
     = default CompactPriceLevel.new (bids !! i)
     ∧ MBPRecord.GetAskLevel (Z.of_nat i) r
       = default CompactPriceLevel.new (asks !! i))
  ∧ arrays_ok r
  ∧ header_fields r
    = (MBORecord.ts_recv mbo, MBORecord.ts_event mbo, 10,
       MBORecord.publisher_id mbo, MBORecord.instrument_id mbo,
       MBORecord.action mbo, MBORecord.side mbo,
       (if Ascii.eqb (MBORecord.action mbo) ACTION_CANCEL then 1 else 0),
       MBORecord.price mbo, MBORecord.size mbo, MBORecord.flags mbo,
       MBORecord.ts_in_delta mbo, MBORecord.sequence mbo,
       MBORecord.symbol mbo, MBORecord.order_id mbo).
Proof.
  intros r. subst r. unfold MBPRecord.FromOrderBook.
  set (r0 := MBPRecord.mk _ _ _ _ _ _ _ _ _ _ _ _ _ _ _ _ _ _ _ _ _).
  assert (arrays_ok r0) as Hok by (repeat split; reflexivity).
  assert (∀ i : nat, (i < MBP_LEVELS)%nat →
            MBPRecord.GetBidLevel (Z.of_nat i) r0 = CompactPriceLevel.new
            ∧ MBPRecord.GetAskLevel (Z.of_nat i) r0 = CompactPriceLevel.new)
    as Hempty.
  { intros i Hi. unfold MBPRecord.GetBidLevel, MBPRecord.GetAskLevel.
    destruct (Z.leb_spec 0 (Z.of_nat i)); [| lia].
    destruct (Z.ltb_spec (Z.of_nat i) (Z.of_nat MBP_LEVELS)); [| lia].
    subst r0.
    cbn [andb MBPRecord.bid_prices MBPRecord.bid_sizes MBPRecord.bid_counts
         MBPRecord.ask_prices MBPRecord.ask_sizes MBPRecord.ask_counts].
    rewrite Nat2Z.id, !lookup_total_replicate_2 by done. done. }
  split; [| split].
  - intros i Hi. destruct (Hempty i Hi) as [Hb Ha]. split.
    + rewrite copy_ask_levels_get_bid, copy_bid_levels_get by done.
      rewrite decide_True by lia. by rewrite Nat.sub_0_r, Hb.
    + rewrite copy_ask_levels_get by (by try apply copy_bid_levels_arrays_ok).
      rewrite decide_True by lia.
      by rewrite Nat.sub_0_r, copy_bid_levels_get_ask, Ha.
  - by apply copy_ask_levels_arrays_ok, copy_bid_levels_arrays_ok.
  - by rewrite copy_ask_levels_header, copy_bid_levels_header.
Qed.

(** X7. The projection fills slot [i] of each side from the [i]-th level
    it is given, and leaves the empty level [(kUndefPrice, 0, 0)] in every
    slot beyond the levels given, whatever the number of levels; its
    arrays keep their ten entries; it echoes the event's fields, fixes
    [rtype] to 10 and sets [depth] to 1 for a Cancel and 0 otherwise. *)
Theorem FromOrderBook_slots (mbo : MBORecord.t)
    (bids asks : list CompactPriceLevel.t) :
  let r := MBPRecord.FromOrderBook mbo bids asks in
  (∀ i : nat, (i < MBP_LEVELS)%nat →
     MBPRecord.GetBidLevel (Z.of_nat i) r
     = default CompactPriceLevel.new (bids !! i)
     ∧ MBPRecord.GetAskLevel (Z.of_nat i) r
       = default CompactPriceLevel.new (asks !! i))
  ∧ arrays_ok r
  ∧ header_fields r
    = (MBORecord.ts_recv mbo, MBORecord.ts_event mbo, 10,
       MBORecord.publisher_id mbo, MBORecord.instrument_id mbo,
       MBORecord.action mbo, MBORecord.side mbo,
       (if Ascii.eqb (MBORecord.action mbo) ACTION_CANCEL then 1 else 0),
       MBORecord.price mbo, MBORecord.size mbo, MBORecord.flags mbo,
       MBORecord.ts_in_delta mbo, MBORecord.sequence mbo,
       MBORecord.symbol mbo, MBORecord.order_id mbo).
Proof. intros. by apply FromOrderBook_projection. Qed.

Lemma FromOrderBook_slots_witness :
  let level := {| CompactPriceLevel.price := px 11; CompactPriceLevel.size := 4;
                  CompactPriceLevel.count := 1 |} in
  let r := MBPRecord.FromOrderBook (event "A" "B" 2 (px 11) 4) [level] [] in
  MBPRecord.GetBidLevel 0 r = level
  ∧ MBPRecord.GetAskLevel 0 r = CompactPriceLevel.new.
Proof.
  intros level r.
  apply (proj1 (FromOrderBook_slots (event "A" "B" 2 (px 11) 4) [level] [])
           0%nat).
  vm_compute. lia.
Defined.

(** ** orderbook.cpp: the consistency check *)

Lemma forallb_map_to_list {A} (f : Z * A → bool) (m : gmap Z A) :
  forallb f (map_to_list m) = true ↔ map_Forall (λ k v, f (k, v) = true) m.
Proof.
  rewrite forallb_forall. split.
  - intros H k v Hkv. apply H, list_elem_of_In. by apply elem_of_map_to_list.
  - intros H [k v] Hin. apply list_elem_of_In, elem_of_map_to_list in Hin.
    by apply H.
Qed.

(** [GetLevel] returns the level stored at a price of the side the
    character names, and throws when the character names no side or the
    side has no level at that price. *)
Lemma GetLevel_found (side : ascii) (price : Z) (b : OrderBook.t)
    (level : PriceLevel.t) :
  OrderBook.GetLevel side price b = inr level ↔
  ∃ s, side_of_char side = Some s ∧ OrderBook.levels s b !! price = Some level.
Proof.
  unfold OrderBook.GetLevel, side_of_char.
  destruct (Ascii.eqb side BID_SIDE).
  { destruct (OrderBook.bids_ b !! price) as [l |] eqn:Hl; split.
    - intros [= <-]. by exists Bid.
    - intros ([] & [= ] & Hs). simpl in Hs. congruence.
    - done.
    - intros ([] & [= ] & Hs). simpl in Hs. congruence. }
  destruct (Ascii.eqb side ASK_SIDE).
  { destruct (OrderBook.asks_ b !! price) as [l |] eqn:Hl; split.
    - intros [= <-]. by exists Ask.
    - intros ([] & [= ] & Hs). simpl in Hs. congruence.
    - done.
    - intros ([] & [= ] & Hs). simpl in Hs. congruence. }
  split; [done | by intros (s & [= ] & _)].
Qed.

Lemma index_check_found (b : OrderBook.t) (oid : Z) (loc : OrderBook.OrderLocation) :
  match OrderBook.GetLevel (OrderBook.side loc) (OrderBook.price loc) b with
  | inr level => PriceLevel.HasOrder oid level
  | inl _ => false
  end = true ↔ index_entry_found b oid loc.
Proof.
  unfold index_entry_found. split.
  - destruct (OrderBook.GetLevel _ _ b) as [e | level] eqn:Hg; [done |].
    apply GetLevel_found in Hg as (s & Hs & Hl).
    unfold PriceLevel.HasOrder.
    destruct (PriceLevel.orders level !! oid) eqn:Ho; [| done].
    intros _. exists s, level. by rewrite Ho.
  - intros (s & level & Hs & Hl & [sz Ho]).
    assert (OrderBook.GetLevel (OrderBook.side loc) (OrderBook.price loc) b
            = inr level) as -> by (apply GetLevel_found; eauto).
    unfold PriceLevel.HasOrder. by rewrite Ho.
Qed.

Lemma level_check_indexed (b : OrderBook.t) (s : book_side) :
  forallb (λ l : Z * PriceLevel.t,
     forallb (λ o : Z * Z,
        match OrderBook.order_lookup_ b !! o.1 with
        | None => false
        | Some loc =>
            negb (negb (OrderBook.price loc =? l.1)
                  || negb (Ascii.eqb (OrderBook.side loc) (side_char s)))
        end)
       (map_to_list (PriceLevel.orders l.2)))
    (map_to_list (OrderBook.levels s b)) = true
  ↔ levels_indexed s b.
Proof.
  rewrite forallb_map_to_list. unfold levels_indexed.
  apply forall_proper. intros p. apply forall_proper. intros level.
  apply forall_proper. intros Hl. simpl.
  rewrite forallb_map_to_list.
  apply forall_proper. intros o. apply forall_proper. intros sz.
  apply forall_proper. intros Ho. simpl.
  destruct (OrderBook.order_lookup_ b !! o) as [[p' c] |]; simpl; [| done].
  destruct (Z.eqb_spec p' p) as [-> | Hp];
    destruct (Ascii.eqb_spec c (side_char s)) as [-> | Hc]; simpl;
    split; try done; intros [= ]; done.
Qed.

Lemma ValidateConsistency_iff (b : OrderBook.t) :
  OrderBook.ValidateConsistency b = true ↔ consistent b.
Proof.
  unfold OrderBook.ValidateConsistency, consistent.
  rewrite !andb_true_iff.
  pose proof (level_check_indexed b Bid) as Hb.
  pose proof (level_check_indexed b Ask) as Ha.
  simpl in Hb, Ha. rewrite Hb, Ha. rewrite forallb_map_to_list.
  assert (map_Forall
            (λ k v, match OrderBook.GetLevel (OrderBook.side (k, v).2)
                            (OrderBook.price (k, v).2) b with
                    | inr level => PriceLevel.HasOrder (k, v).1 level
                    | inl _ => false
                    end = true) (OrderBook.order_lookup_ b)
          ↔ map_Forall (index_entry_found b) (OrderBook.order_lookup_ b)) as ->.
  { apply forall_proper. intros oid. apply forall_proper. intros loc.
    apply forall_proper. intros Hl. simpl. apply index_check_found. }
  tauto.
Qed.

(** X8. [ValidateConsistency] returns true exactly on the books in which
    every entry of the order index names a side and a level of that side
    holding the order, and every order of every level of either side is
    in the index with that level's price and side. *)
Theorem ValidateConsistency_consistent (b : OrderBook.t) :
  OrderBook.ValidateConsistency b = true ↔ consistent b.
Proof. intros. by apply ValidateConsistency_iff. Qed.

Lemma coherent_consistent (b : OrderBook.t) : coherent b → consistent b.
Proof.
  intros (Hidx & Hb & Ha). split; [| done].
  intros oid loc Hl. specialize (Hidx oid loc Hl).
  apply index_entry_coherent_alt in Hidx as (s & level & sz & Hs & Hlev & _ & Ho & _).
  exists s, level. by rewrite Ho.
Qed.

(** X9. On every book reached from the empty book by fewer than 2^32
    calls of [Apply] on events that each name a bid or ask side when they
    are a Modify, calls that threw included, [ValidateConsistency]
    returns true. *)
Theorem ValidateConsistency_two_sided_trace (records : list MBORecord.t) :
  Forall two_sided records →
  Z.of_nat (length records) < 2 ^ 32 →
  OrderBook.ValidateConsistency (OrderBook.apply_all records OrderBook.new)
  = true.
Proof.
  intros Htwo Hlen. apply ValidateConsistency_iff, coherent_consistent.
  by destruct (two_sided_trace_wf records Htwo Hlen) as (_ & Hco & _).
Qed.

Lemma ValidateConsistency_two_sided_trace_witness :
  OrderBook.ValidateConsistency
    (OrderBook.apply_all
       [event "A" "B" 1 (px 10) 5; event "A" "N" 2 (px 10) 5;
        event "M" "A" 1 (px 11) 7; event "C" "B" 1 (px 10) 1]
       OrderBook.new) = true.
Proof.
  apply ValidateConsistency_two_sided_trace; [| simpl; lia].
  apply Forall_cons_2; [by left |].
  apply Forall_cons_2; [by left |].
  apply Forall_cons_2; [right; by eexists |].
  apply Forall_cons_2; [by left |].
  apply Forall_nil_2.
Defined.

(** ** orderbook.cpp: statistics and best levels *)

Lemma iterate_bids_nil (b : OrderBook.t) :
  OrderBook.iterate_bids b = [] ↔ OrderBook.bids_ b = ∅.
Proof.
  split; [| apply iterate_bids_empty].
  intros Hnil. apply map_empty. intros p.
  destruct (OrderBook.bids_ b !! p) as [level |] eqn:Hl; [| done].
  apply iterate_bids_elem in Hl. rewrite Hnil in Hl. by apply elem_of_nil in Hl.
Qed.

Lemma iterate_asks_nil (b : OrderBook.t) :
  OrderBook.iterate_asks b = [] ↔ OrderBook.asks_ b = ∅.
Proof.
  split; [| apply iterate_asks_empty].
  intros Hnil. apply map_empty. intros p.
  destruct (OrderBook.asks_ b !! p) as [level |] eqn:Hl; [| done].
  apply iterate_asks_elem in Hl. rewrite Hnil in Hl. by apply elem_of_nil in Hl.
Qed.

(** The first entry of the iteration over the bids is the one of the
    highest price, over the asks the one of the lowest. *)
Lemma iterate_bids_head (b : OrderBook.t) p0 level0 rest :
  OrderBook.iterate_bids b = (p0, level0) :: rest →
  OrderBook.bids_ b !! p0 = Some level0
  ∧ ∀ p, is_Some (OrderBook.bids_ b !! p) → p ≤ p0.
Proof.
  intros Hit. split.
  - apply iterate_bids_elem. rewrite Hit. apply elem_of_cons. by left.
  - intros p [level Hl]. apply iterate_bids_elem in Hl.
    pose proof (iterate_bids_strictly_decreasing b) as Hsorted.
    rewrite Hit in Hl, Hsorted.
    apply elem_of_cons in Hl as [[= -> ->] | Hin]; [done |].
    apply StronglySorted_inv in Hsorted as [_ Hall].
    pose proof (proj1 (Forall_forall _ _) Hall _ Hin) as Hlt. simpl in Hlt. lia.
Qed.

Lemma iterate_asks_head (b : OrderBook.t) p0 level0 rest :
  OrderBook.iterate_asks b = (p0, level0) :: rest →
  OrderBook.asks_ b !! p0 = Some level0
  ∧ ∀ p, is_Some (OrderBook.asks_ b !! p) → p0 ≤ p.
Proof.
  intros Hit. split.
  - apply iterate_asks_elem. rewrite Hit. apply elem_of_cons. by left.
  - intros p [level Hl]. apply iterate_asks_elem in Hl.
    pose proof (iterate_asks_strictly_increasing b) as Hsorted.
    rewrite Hit in Hl, Hsorted.
    apply elem_of_cons in Hl as [[= -> ->] | Hin]; [done |].
    apply StronglySorted_inv in Hsorted as [_ Hall].
    pose proof (proj1 (Forall_forall _ _) Hall _ Hin) as Hlt. simpl in Hlt. lia.
Qed.

(** X10. [GetStatistics] reports as best bid the highest price that has
    a level in the bid book and as best ask the lowest price that has a
    level in the ask book, whether that level is empty or not, and
    [kUndefPrice] for a side without levels. *)
Theorem GetStatistics_best (b : OrderBook.t) :
  let stats := OrderBook.GetStatistics b in
  (OrderBook.bids_ b = ∅ → OrderBook.best_bid stats = kUndefPrice)
  ∧ (OrderBook.bids_ b ≠ ∅ →
     is_Some (OrderBook.bids_ b !! OrderBook.best_bid stats)
     ∧ ∀ p, is_Some (OrderBook.bids_ b !! p) → p ≤ OrderBook.best_bid stats)
  ∧ (OrderBook.asks_ b = ∅ → OrderBook.best_ask stats = kUndefPrice)
  ∧ (OrderBook.asks_ b ≠ ∅ →
     is_Some (OrderBook.asks_ b !! OrderBook.best_ask stats)
     ∧ ∀ p, is_Some (OrderBook.asks_ b !! p) → OrderBook.best_ask stats ≤ p).
Proof.
  intros stats. subst stats. unfold OrderBook.GetStatistics. simpl.
  split; [| split; [| split]].
  - intros He. by rewrite (iterate_bids_empty b He).
  - intros Hne. destruct (OrderBook.iterate_bids b) as [| [p0 l0] rest] eqn:Hit.
    { by apply iterate_bids_nil in Hit. }
    destruct (iterate_bids_head b p0 l0 rest Hit) as [Hl Hmax]. eauto.
  - intros He. by rewrite (iterate_asks_empty b He).
  - intros Hne. destruct (OrderBook.iterate_asks b) as [| [p0 l0] rest] eqn:Hit.
    { by apply iterate_asks_nil in Hit. }
    destruct (iterate_asks_head b p0 l0 rest Hit) as [Hl Hmin]. eauto.
Qed.

Lemma GetStatistics_best_witness :
  let b := OrderBook.apply_all
             [event "A" "B" 1 (px 10) 3; event "A" "B" 2 (px 11) 4;
              event "A" "B" 3 (px 9) 1] OrderBook.new in
  OrderBook.best_ask (OrderBook.GetStatistics b) = kUndefPrice
  ∧ px 10 ≤ OrderBook.best_bid (OrderBook.GetStatistics b).
Proof.
  intros b.
  destruct (GetStatistics_best b) as (_ & Hbid & Hask & _).
  split; [by apply Hask |].
  apply Hbid; [| vm_compute; eauto].
  intros Hempty. assert (OrderBook.bids_ b !! px 10 = None) as Hnone
    by (rewrite Hempty; apply lookup_empty).
  vm_compute in Hnone. discriminate.
Defined.

Lemma collect_levels_one (entries : list (Z * PriceLevel.t)) :
  Forall (λ e, PriceLevel.IsEmpty e.2 = false) entries →
  default CompactPriceLevel.new (head (OrderBook.collect_levels 1 entries []))
  = OrderBook.best_of entries.
Proof.
  intros Hfull. destruct entries as [| [p level] rest]; simpl; [done |].
  apply Forall_cons in Hfull as [He _]. simpl in He. rewrite He. simpl.
  rewrite collect_levels_take. done.
Qed.

(** X11. On a book in which no empty level rests, [GetBestBidAsk] returns
    on each side the level that [GetTopBids(1)] and [GetTopAsks(1)]
    return, or the empty level when they return none. *)
Theorem GetBestBidAsk_top (b : OrderBook.t) :
  no_empty_level (OrderBook.bids_ b) →
  no_empty_level (OrderBook.asks_ b) →
  (OrderBook.GetTopBids 1 b).1
  = inr (OrderBook.collect_levels 1 (OrderBook.iterate_bids b) [])
  ∧ (OrderBook.GetTopAsks 1 b).1
    = inr (OrderBook.collect_levels 1 (OrderBook.iterate_asks b) [])
  ∧ (OrderBook.GetBestBidAsk b).1
    = default CompactPriceLevel.new
        (head (OrderBook.collect_levels 1 (OrderBook.iterate_bids b) []))
  ∧ (OrderBook.GetBestBidAsk b).2
    = default CompactPriceLevel.new
        (head (OrderBook.collect_levels 1 (OrderBook.iterate_asks b) [])).
Proof.
  intros Hb Ha. split; [done |]. split; [done |].
  unfold OrderBook.GetBestBidAsk. simpl.
  split; symmetry; apply collect_levels_one; apply Forall_forall;
    intros [p level] Hin.
  - apply iterate_bids_elem in Hin. exact (Hb _ _ Hin).
  - apply iterate_asks_elem in Hin. exact (Ha _ _ Hin).
Qed.

Lemma GetBestBidAsk_top_witness :
  let b := OrderBook.apply_all
             [event "A" "B" 1 (px 10) 3; event "A" "B" 2 (px 11) 4]
             OrderBook.new in
  (OrderBook.GetBestBidAsk b).1
  = {| CompactPriceLevel.price := px 11; CompactPriceLevel.size := 4;
       CompactPriceLevel.count := 1 |}.
Proof.
  intros b.
  assert (no_empty_level (OrderBook.bids_ b)) as Hb
    by (apply (bool_decide_unpack _); vm_compute; exact I).
  assert (no_empty_level (OrderBook.asks_ b)) as Ha
    by (apply (bool_decide_unpack _); vm_compute; exact I).
  destruct (GetBestBidAsk_top b Hb Ha) as (_ & _ & Hbest & _).
  rewrite Hbest. vm_compute. reflexivity.
Defined.

(** ** orderbook.cpp: the top levels *)

Lemma StronglySorted_take {A} (R : relation A) (n : nat) (l : list A) :
  StronglySorted R l → StronglySorted R (take n l).
Proof.
  intros Hl. revert n. induction Hl as [| x l Hl IH Hx]; intros [| n]; simpl;
    try constructor; [apply IH | by apply Forall_take].
Qed.

Lemma top_levels_sorted (R : relation Z) (entries : list (Z * PriceLevel.t))
    (n : nat) :
  StronglySorted (λ x y, R x.1 y.1) entries →
  Forall (λ e, PriceLevel.price e.2 = e.1) entries →
  let top := OrderBook.collect_levels n entries [] in
  StronglySorted (λ c d, R (CompactPriceLevel.price c) (CompactPriceLevel.price d))
    top
  ∧ Forall (λ c, ∃ e, e ∈ entries ∧ c = CompactPriceLevel.of_level e.2
                      ∧ PriceLevel.IsEmpty e.2 = false) top
  ∧ (length top ≤ n)%nat.
Proof.
  intros Hsorted Hprice top. subst top. rewrite collect_levels_take. simpl.
  rewrite Nat.sub_0_r.
  assert (StronglySorted
            (λ c d, R (CompactPriceLevel.price c) (CompactPriceLevel.price d))
            (CompactPriceLevel.of_level
               <$> filter (λ level, PriceLevel.IsEmpty level = false) (entries.*2))
          ∧ Forall (λ c, ∃ e, e ∈ entries ∧ c = CompactPriceLevel.of_level e.2
                              ∧ PriceLevel.IsEmpty e.2 = false)
              (CompactPriceLevel.of_level
                 <$> filter (λ level, PriceLevel.IsEmpty level = false)
                       (entries.*2))) as [Hs Hf].
  { induction Hsorted as [| [p level] rest Hrest IH Hhd]; simpl.
    - split; constructor.
    - apply Forall_cons in Hprice as [Hp Hprice]. simpl in Hp.
      destruct (IH Hprice) as [IHs IHf].
      assert (Forall (λ c, ∃ e, e ∈ (p, level) :: rest
                                ∧ c = CompactPriceLevel.of_level e.2
                                ∧ PriceLevel.IsEmpty e.2 = false)
                (CompactPriceLevel.of_level
                   <$> filter (λ level, PriceLevel.IsEmpty level = false)
                         (rest.*2))) as IHf'.
      { eapply Forall_impl; [exact IHf |]. intros c (e & He & Hc).
        exists e. split; [by apply elem_of_cons; right | done]. }
      destruct (PriceLevel.IsEmpty level) eqn:He.
      + rewrite filter_cons_False by congruence. done.
      + rewrite filter_cons_True by done. simpl. split.
        * constructor; [done |]. apply Forall_forall. intros c Hc.
          destruct (proj1 (Forall_forall _ _) IHf c Hc) as (e & Hin & -> & _).
          pose proof (proj1 (Forall_forall _ _) Hhd e Hin) as Hrel.
          pose proof (proj1 (Forall_forall _ _) Hprice e Hin) as Hpe.
          simpl in *. by rewrite Hp, Hpe.
        * apply Forall_cons. split; [| done].
          exists (p, level). split; [apply elem_of_cons; by left | done]. }
  split; [by apply StronglySorted_take |].
  split; [by apply Forall_take |].
  rewrite length_take. lia.
Qed.

(** X12. On every book reached from the empty book by fewer than 2^32
    calls of [Apply], calls that threw included, [GetTopBids(n)] returns
    at most [n] levels, of strictly decreasing prices, and
    [GetTopAsks(n)] at most [n] levels of strictly increasing prices;
    each returned level has a price other than [kUndefPrice] and a
    positive order count. *)
Theorem GetTop_sorted_non_empty (records : list MBORecord.t) (n : nat) :
  Z.of_nat (length records) < 2 ^ 32 →
  let b := OrderBook.apply_all records OrderBook.new in
  ∃ bids asks,
    (OrderBook.GetTopBids n b).1 = inr bids
    ∧ (OrderBook.GetTopAsks n b).1 = inr asks
    ∧ (length bids ≤ n)%nat ∧ (length asks ≤ n)%nat
    ∧ StronglySorted
        (λ c d, CompactPriceLevel.price d < CompactPriceLevel.price c) bids
    ∧ StronglySorted
        (λ c d, CompactPriceLevel.price c < CompactPriceLevel.price d) asks
    ∧ Forall (λ c, CompactPriceLevel.price c ≠ kUndefPrice
                   ∧ 0 < CompactPriceLevel.count c) (bids ++ asks).
Proof.
  intros Hlen b.
  pose proof (apply_all_inv records Hlen) as Hinv. fold b in Hinv.
  assert (∀ s e, OrderBook.levels s b !! e.1 = Some e.2 →
                 PriceLevel.price e.2 = e.1
                 ∧ (PriceLevel.IsEmpty e.2 = false →
                    CompactPriceLevel.price (CompactPriceLevel.of_level e.2)
                      ≠ kUndefPrice
                    ∧ 0 < CompactPriceLevel.count
                            (CompactPriceLevel.of_level e.2))) as Hlevel.
  { intros s [p level] Hl. simpl in *.
    destruct (book_inv_shape _ _ s Hinv _ _ Hl) as (Hp & Hu & (_ & Hc) & _).
    split; [done |]. unfold PriceLevel.IsEmpty. intros He. simpl.
    apply orb_false_elim in He as [_ He].
    split; [congruence |].
    destruct (Z.eqb_spec (PriceLevel.order_count level) 0); [done | lia]. }
  destruct (top_levels_sorted (λ x y, y < x) (OrderBook.iterate_bids b) n)
    as (Hbs & Hbf & Hbl).
  { apply iterate_bids_strictly_decreasing. }
  { apply Forall_forall. intros [p level] Hin. apply iterate_bids_elem in Hin.
    exact (proj1 (Hlevel Bid (p, level) Hin)). }
  destruct (top_levels_sorted (λ x y, x < y) (OrderBook.iterate_asks b) n)
    as (Has & Haf & Hal).
  { apply iterate_asks_strictly_increasing. }
  { apply Forall_forall. intros [p level] Hin. apply iterate_asks_elem in Hin.
    exact (proj1 (Hlevel Ask (p, level) Hin)). }
  eexists _, _. split; [reflexivity |]. split; [reflexivity |].
  split; [done |]. split; [done |]. split; [done |]. split; [done |].
  apply Forall_app. split.
  - eapply Forall_impl; [exact Hbf |]. intros c ([p level] & Hin & -> & He).
    apply iterate_bids_elem in Hin. exact (proj2 (Hlevel Bid (p, level) Hin) He).
  - eapply Forall_impl; [exact Haf |]. intros c ([p level] & Hin & -> & He).
    apply iterate_asks_elem in Hin. exact (proj2 (Hlevel Ask (p, level) Hin) He).
Qed.

Lemma GetTop_sorted_non_empty_witness :
  let b := OrderBook.apply_all
             [event "A" "B" 1 (px 10) 3; event "A" "B" 2 (px 11) 4]
             OrderBook.new in
  ∃ bids, (OrderBook.GetTopBids 1 b).1 = inr bids ∧ (length bids ≤ 1)%nat.
Proof.
  intros b.
  destruct (GetTop_sorted_non_empty
              [event "A" "B" 1 (px 10) 3; event "A" "B" 2 (px 11) 4] 1)
    as (bids & asks & Hb & _ & Hl & _); [simpl; lia |].
  exists bids. by split.
Defined.

(** ** orderbook.cpp: what [Apply] returns or throws *)

Lemma AddOrder_outcome (r : MBORecord.t) (b : OrderBook.t) :
  (OrderBook.AddOrder r b).1 = add_outcome r b.
Proof.
  unfold_outcomes. unfold_book_ops. run_monad.
  destruct (OrderBook.order_lookup_ b !! MBORecord.order_id r); [done |].
  destruct (Ascii.eqb (MBORecord.side r) BID_SIDE); [done |].
  by destruct (Ascii.eqb (MBORecord.side r) ASK_SIDE).
Qed.

Lemma CancelOrder_outcome (r : MBORecord.t) (b : OrderBook.t) :
  (OrderBook.CancelOrder r b).1 = cancel_outcome r b.
Proof.
  unfold_outcomes. unfold_book_ops. run_monad.
  destruct (OrderBook.order_lookup_ b !! MBORecord.order_id r) as [loc |]; [| done].
  destruct (Ascii.eqb (OrderBook.side loc) BID_SIDE); [done |].
  by destruct (Ascii.eqb (OrderBook.side loc) ASK_SIDE).
Qed.

Lemma ModifyOrder_outcome (r : MBORecord.t) (b : OrderBook.t) :
  (OrderBook.ModifyOrder r b).1 = modify_outcome r b.
Proof.
  pose proof (AddOrder_outcome r b) as Hadd.
  unfold OrderBook.ModifyOrder, modify_outcome. run_monad.
  destruct (OrderBook.order_lookup_ b !! MBORecord.order_id r) as [loc |];
    [| exact Hadd].
  clear Hadd. unfold_book_ops. run_monad.
  destruct (negb (OrderBook.price loc =? MBORecord.price r)
            || negb (Ascii.eqb (OrderBook.side loc) (MBORecord.side r))); simpl.
  - destruct (Ascii.eqb (OrderBook.side loc) BID_SIDE);
      [| destruct (Ascii.eqb (OrderBook.side loc) ASK_SIDE); [| done]];
      (destruct (Ascii.eqb (MBORecord.side r) BID_SIDE); [done |]);
      by destruct (Ascii.eqb (MBORecord.side r) ASK_SIDE).
  - destruct (Ascii.eqb (MBORecord.side r) BID_SIDE); [done |].
    by destruct (Ascii.eqb (MBORecord.side r) ASK_SIDE).
Qed.

Lemma Apply_outcome (r : MBORecord.t) (b : OrderBook.t) :
  OrderBook.Apply r b = (outcome r b, step r b).
Proof.
  rewrite <- Apply_step. unfold state_after.
  rewrite (surjective_pairing (OrderBook.Apply r b)) at 1. f_equal.
  unfold OrderBook.Apply, outcome.
  destruct (negb (MBORecord.IsValid r)); [done |].
  destruct (Ascii.eqb (MBORecord.action r) ACTION_ADD); [apply AddOrder_outcome |].
  destruct (Ascii.eqb (MBORecord.action r) ACTION_CANCEL);
    [apply CancelOrder_outcome |].
  destruct (Ascii.eqb (MBORecord.action r) ACTION_MODIFY);
    [apply ModifyOrder_outcome |].
  destruct (Ascii.eqb (MBORecord.action r) ACTION_CLEAR); [done |].
  by destruct (Ascii.eqb (MBORecord.action r) ACTION_TRADE
               || Ascii.eqb (MBORecord.action r) ACTION_FILL
               || Ascii.eqb (MBORecord.action r) ACTION_NONE).
Qed.

(** X13. An event for which [AffectsOrderBook] is false leaves the whole
    book as it was, the dirty flag included, whether [Apply] returns or
    throws. *)
Theorem Apply_not_affecting (r : MBORecord.t) (b : OrderBook.t) :
  MBORecord.AffectsOrderBook r = false →
  state_after (OrderBook.Apply r b) = b.
Proof.
  unfold MBORecord.AffectsOrderBook. intros Hno.
  apply orb_false_elim in Hno as [Hno Hclear].
  apply orb_false_elim in Hno as [Hno Hmodify].
  apply orb_false_elim in Hno as [Hadd Hcancel].
  rewrite Apply_step. unfold step.
  rewrite Hadd, Hcancel, Hmodify, Hclear.
  by destruct (negb (MBORecord.IsValid r)).
Qed.

Lemma Apply_not_affecting_witness :
  let b := OrderBook.apply_all [event "A" "B" 1 (px 10) 5] OrderBook.new in
  state_after (OrderBook.Apply (event "F" "B" 1 (px 10) 5) b) = b.
Proof. intros b. by apply Apply_not_affecting. Defined.

(** X14. The exceptions of [Apply]. On a book reached by calls of
    [Apply], an event makes [Apply] throw in exactly three cases: it
    fails [IsValid]; it is an Add of an order id already in the index; it
    is an Add or a Modify whose side is neither the bid nor the ask side.
    Every other event, and so every valid Cancel, Clear, Trade, Fill and
    None, returns normally. *)
Theorem Apply_throws (n : Z) (r : MBORecord.t) (b : OrderBook.t) :
  book_inv n b →
  (OrderBook.Apply r b).1
  = if negb (MBORecord.IsValid r)
    then inl (invalid_argument "Invalid MBO record")
    else if Ascii.eqb (MBORecord.action r) ACTION_ADD
            && bool_decide (is_Some (OrderBook.order_lookup_ b
                                       !! MBORecord.order_id r))
    then inl (runtime_error "Order ID already exists")
    else if (Ascii.eqb (MBORecord.action r) ACTION_ADD
             || Ascii.eqb (MBORecord.action r) ACTION_MODIFY)
            && bool_decide (side_of_char (MBORecord.side r) = None)
    then inl (invalid_argument "Invalid side")
    else inr tt.
Proof.
  intros Hinv. rewrite Apply_outcome. simpl. unfold outcome.
  destruct (MBORecord.IsValid r) eqn:Hv; simpl; [| done].
  destruct (Ascii.eqb_spec (MBORecord.action r) ACTION_ADD) as [Ha | Ha]; simpl.
  { unfold add_outcome.
    destruct (OrderBook.order_lookup_ b !! MBORecord.order_id r) eqn:Hl.
    - by rewrite bool_decide_eq_true_2 by eauto.
    - rewrite bool_decide_eq_false_2 by (by intros [? ?]).
      destruct (side_of_char (MBORecord.side r)) eqn:Hs.
      + by rewrite bool_decide_eq_false_2.
      + by rewrite bool_decide_eq_true_2. }
  destruct (Ascii.eqb_spec (MBORecord.action r) ACTION_CANCEL) as [Hc | Hc].
  { rewrite Hc. simpl. unfold cancel_outcome.
    destruct (OrderBook.order_lookup_ b !! MBORecord.order_id r) as [loc |] eqn:Hl;
      [| done].
    destruct (index_entry_of n b _ loc Hinv Hl) as (s & Hs & _).
    by rewrite Hs. }
  destruct (Ascii.eqb_spec (MBORecord.action r) ACTION_MODIFY) as [Hm | Hm]; simpl.
  { unfold modify_outcome, add_outcome.
    destruct (OrderBook.order_lookup_ b !! MBORecord.order_id r) as [loc |] eqn:Hl.
    - destruct (index_entry_of n b _ loc Hinv Hl) as (s & Hs & _).
      rewrite Hs.
      destruct (side_of_char (MBORecord.side r)) eqn:Hside.
      + rewrite bool_decide_eq_false_2 by done.
        by destruct (negb _ || negb _).
      + rewrite bool_decide_eq_true_2 by done.
        by destruct (negb _ || negb _).
    - destruct (side_of_char (MBORecord.side r)) eqn:Hside.
      + by rewrite bool_decide_eq_false_2.
      + by rewrite bool_decide_eq_true_2. }
  destruct (Ascii.eqb (MBORecord.action r) ACTION_CLEAR) eqn:Hclear; [done |].
  unfold MBORecord.IsValid, utils.IsValidAction in Hv.
  apply andb_prop in Hv as [Hv _]. apply andb_prop in Hv as [Hv _].
  apply andb_prop in Hv as [Hact _].
  destruct (Ascii.eqb_spec (MBORecord.action r) ACTION_ADD); [done |].
  destruct (Ascii.eqb_spec (MBORecord.action r) ACTION_CANCEL); [done |].
  destruct (Ascii.eqb_spec (MBORecord.action r) ACTION_MODIFY); [done |].
  rewrite Hclear in Hact. simpl in Hact.
  destruct (Ascii.eqb (MBORecord.action r) ACTION_TRADE); [done |].
  destruct (Ascii.eqb (MBORecord.action r) ACTION_FILL); [done |].
  by destruct (Ascii.eqb (MBORecord.action r) ACTION_NONE).
Qed.

Lemma Apply_throws_witness :
  let b := OrderBook.apply_all [event "A" "B" 1 (px 10) 5] OrderBook.new in
  (OrderBook.Apply (event "A" "N" 2 (px 10) 5) b).1
  = inl (invalid_argument "Invalid side")
  ∧ (OrderBook.Apply (event "C" "N" 1 (px 3) 9) b).1 = inr tt.
Proof.
  intros b.
  assert (book_inv 1 b) as Hinv by (apply (apply_all_inv [_]); simpl; lia).
  split.
  - by rewrite (Apply_throws 1 _ b Hinv).
  - by rewrite (Apply_throws 1 _ b Hinv).
Defined.

(** X15. A call of [Apply] that throws has changed nothing, unless the
    event is a Modify of an order that is in the index: for every other
    event the book after the exception is the book before the call. *)
Theorem Apply_throw_leaves_book (r : MBORecord.t) (b : OrderBook.t)
    (e : exception) :
  (OrderBook.Apply r b).1 = inl e →
  MBORecord.action r ≠ ACTION_MODIFY
  ∨ OrderBook.order_lookup_ b !! MBORecord.order_id r = None →
  state_after (OrderBook.Apply r b) = b.
Proof.
  rewrite Apply_outcome. unfold state_after. simpl. unfold outcome, step.
  destruct (negb (MBORecord.IsValid r)); [done |].
  assert (add_outcome r b = inl e → add_step r b = b) as Hadd.
  { unfold add_outcome, add_step.
    destruct (OrderBook.order_lookup_ b !! MBORecord.order_id r); [done |].
    by destruct (side_of_char (MBORecord.side r)). }
  destruct (Ascii.eqb (MBORecord.action r) ACTION_ADD); [by intros ? _; auto |].
  destruct (Ascii.eqb (MBORecord.action r) ACTION_CANCEL).
  { unfold cancel_outcome, cancel_step.
    destruct (OrderBook.order_lookup_ b !! MBORecord.order_id r) as [loc |];
      [| done].
    by destruct (side_of_char (OrderBook.side loc)). }
  destruct (Ascii.eqb_spec (MBORecord.action r) ACTION_MODIFY) as [Hm | Hm].
  { intros Hout [Hne | Hnone]; [done |].
    unfold modify_outcome, modify_step in *. rewrite Hnone in *. auto. }
  destruct (Ascii.eqb (MBORecord.action r) ACTION_CLEAR); [done |].
  done.
Qed.

Lemma Apply_throw_leaves_book_witness :
  let b := OrderBook.apply_all [event "A" "B" 1 (px 10) 5] OrderBook.new in
  state_after (OrderBook.Apply (event "M" "N" 2 (px 10) 5) b) = b.
Proof.
  intros b.
  apply (Apply_throw_leaves_book _ b (invalid_argument "Invalid side")).
  - vm_compute. reflexivity.
  - right. vm_compute. reflexivity.
Defined.

(** ** orderbook.cpp: how the events act on the book *)

Lemma cancel_same_id (r1 r2 : MBORecord.t) (b : OrderBook.t) :
  MBORecord.action r1 = ACTION_CANCEL → MBORecord.action r2 = ACTION_CANCEL →
  MBORecord.IsValid r1 = true → MBORecord.IsValid r2 = true →
  MBORecord.order_id r1 = MBORecord.order_id r2 →
  OrderBook.Apply r1 b = OrderBook.Apply r2 b.
Proof.
  intros Ha1 Ha2 Hv1 Hv2 Hoid. rewrite !Apply_outcome.
  unfold outcome, step. rewrite Hv1, Hv2, Ha1, Ha2. simpl.
  unfold cancel_outcome, cancel_step. by rewrite Hoid.
Qed.

(** X16. A Cancel is carried out at the location the index records for
    the order, not at the price and side the event carries. On a book
    reached by calls of [Apply], a valid Cancel of an order that the
    index places at a side and a price removes the index entry, replaces
    the level at that side and price by what [RemoveOrder] leaves of it,
    or erases it when that is empty, and leaves every level at any other
    side or price as it was, the one at the event's own side and price
    included. Two valid Cancels of the same order id therefore do the
    same to the book and return the same, whatever price, side and size
    they carry. *)
Theorem Cancel_uses_stored_location (n : Z) (r : MBORecord.t)
    (b : OrderBook.t) (loc : OrderBook.OrderLocation) :
  book_inv n b →
  MBORecord.action r = ACTION_CANCEL →
  MBORecord.IsValid r = true →
  OrderBook.order_lookup_ b !! MBORecord.order_id r = Some loc →
  let b' := state_after (OrderBook.Apply r b) in
  ∃ s : book_side,
    side_of_char (OrderBook.side loc) = Some s
    ∧ OrderBook.order_lookup_ b'
      = delete (MBORecord.order_id r) (OrderBook.order_lookup_ b)
    ∧ OrderBook.levels s b' !! OrderBook.price loc
      = match OrderBook.levels s b !! OrderBook.price loc with
        | Some level =>
            let level' := PriceLevel.RemoveOrder (MBORecord.order_id r) level in
            if PriceLevel.IsEmpty level' then None else Some level'
        | None => None
        end
    ∧ (∀ (s' : book_side) (q : Z), (s', q) ≠ (s, OrderBook.price loc) →
         OrderBook.levels s' b' !! q = OrderBook.levels s' b !! q)
    ∧ (∀ r2 : MBORecord.t,
         MBORecord.action r2 = ACTION_CANCEL →
         MBORecord.IsValid r2 = true →
         MBORecord.order_id r2 = MBORecord.order_id r →
         OrderBook.Apply r2 b = OrderBook.Apply r b).
Proof.
  intros Hinv Ha Hv Hl b'. subst b'.
  destruct (index_entry_of n b _ loc Hinv Hl) as (s & Hs & _ & _).
  exists s. split; [done |].
  rewrite Apply_step. unfold step. rewrite Hv, Ha. simpl.
  unfold cancel_step. rewrite Hl, Hs.
  split; [| split; [| split]].
  - simpl. by rewrite order_lookup_take_order.
  - rewrite levels_changed, levels_forget_order, levels_take_order,
      decide_True by done.
    rewrite lookup_take_map, decide_True by done. cbv zeta.
    destruct (OrderBook.levels s b !! OrderBook.price loc) as [level |] eqn:Hlev.
    + pose proof (book_inv_shape n b s Hinv _ _ Hlev) as (Hp & Hne & _).
      rewrite init_level_Some by congruence. done.
    + rewrite init_level_None. unfold PriceLevel.RemoveOrder. simpl.
      rewrite lookup_empty. unfold PriceLevel.IsEmpty. simpl.
      by rewrite orb_true_r.
  - intros s' q Hne.
    rewrite levels_changed, levels_forget_order, levels_take_order.
    destruct (decide (s' = s)) as [-> | Hss]; [| done].
    rewrite lookup_take_map, decide_False; [done |]. congruence.
  - intros r2 Ha2 Hv2 Hoid. by apply cancel_same_id.
Qed.

Lemma Cancel_uses_stored_location_witness :
  let b := OrderBook.apply_all
             [event "A" "B" 1 (px 10) 5; event "A" "B" 2 (px 10) 1;
              event "A" "A" 3 (px 77) 4]
             OrderBook.new in
  let r := event "C" "A" 1 (px 77) 1 in
  let b' := state_after (OrderBook.Apply r b) in
  OrderBook.order_lookup_ b' !! 1 = None
  ∧ OrderBook.levels Ask b' !! px 77 = OrderBook.levels Ask b !! px 77
  ∧ OrderBook.Apply (event "C" "B" 1 (px 10) 5) b = OrderBook.Apply r b.
Proof.
  intros b r b'.
  assert (book_inv 3 b) as Hinv by (apply (apply_all_inv [_; _; _]); simpl; lia).
  destruct (Cancel_uses_stored_location 3 r b (OrderBook.Loc (px 10) "B") Hinv)
    as (s & Hs & Hindex & _ & Hother & Hsame); [done | done | by vm_compute |].
  assert (s = Bid) as -> by (vm_compute in Hs; congruence).
  split; [| split].
  - subst b'. rewrite Hindex. apply lookup_delete_eq.
  - by apply Hother.
  - by apply Hsame.
Defined.

Lemma IsValid_set_action (r : MBORecord.t) (a : ascii) :
  utils.IsValidAction a = true →
  Ascii.eqb a ACTION_CLEAR = false →
  Ascii.eqb (MBORecord.action r) ACTION_CLEAR = false →
  utils.IsValidAction (MBORecord.action r) = true →
  MBORecord.IsValid (MBORecord.set_action a r) = MBORecord.IsValid r.
Proof.
  intros Ha Hc Hrc Hra. unfold MBORecord.IsValid. simpl.
  by rewrite Ha, Hc, Hrc, Hra.
Qed.

(** X17. A Modify of an order id that is not in the index behaves exactly
    as the Add with the same fields: same book afterwards, same value or
    exception. *)
Theorem Modify_unknown_is_Add (r : MBORecord.t) (b : OrderBook.t) :
  MBORecord.action r = ACTION_MODIFY →
  OrderBook.order_lookup_ b !! MBORecord.order_id r = None →
  OrderBook.Apply r b = OrderBook.Apply (MBORecord.set_action ACTION_ADD r) b.
Proof.
  intros Ha Hnone. rewrite !Apply_outcome. unfold outcome, step.
  rewrite (IsValid_set_action r ACTION_ADD) by (by rewrite ?Ha).
  simpl. rewrite Ha. simpl.
  destruct (negb (MBORecord.IsValid r)); [done |].
  unfold modify_outcome, modify_step. by rewrite Hnone.
Qed.

Lemma Modify_unknown_is_Add_witness :
  OrderBook.Apply (event "M" "A" 7 (px 20) 5) OrderBook.new
  = OrderBook.Apply (event "A" "A" 7 (px 20) 5) OrderBook.new.
Proof. by apply (Modify_unknown_is_Add (event "M" "A" 7 (px 20) 5)). Defined.

(** The level a Modify at the same place leaves is the level a Cancel
    and an Add at that place leave. *)
Lemma ModifyOrder_as_remove_add n p level oid old sz :
  level_shape n p level → n < 2 ^ 32 →
  PriceLevel.orders level !! oid = Some old →
  PriceLevel.ModifyOrder oid sz level
  = PriceLevel.AddOrder oid sz
      (if PriceLevel.IsEmpty (PriceLevel.RemoveOrder oid level)
       then init_level p None
       else PriceLevel.RemoveOrder oid level).
Proof.
  intros (Hp & Hu & (Ht & Hc) & Hn & Hpos) Hbound Ho.
  destruct level as [pr total count orders]. simpl in *. subst pr.
  pose proof (map_size_delete oid orders) as Hsize.
  rewrite Ho in Hsize. simpl in Hsize.
  assert (size orders ≠ 0%nat) as Hne.
  { intros H0. apply map_size_empty_inv in H0. rewrite H0 in Ho.
    by rewrite lookup_empty in Ho. }
  unfold PriceLevel.ModifyOrder, PriceLevel.RemoveOrder. simpl. rewrite Ho.
  assert (u32 (count - 1) = count - 1) as Hcount by (apply u32_small; lia).
  rewrite Hcount.
  destruct (Z.eqb_spec (count - 1) 0) as [Hone | Hmore].
  - unfold PriceLevel.IsEmpty. simpl. rewrite init_level_None.
    unfold PriceLevel.AddOrder. simpl.
    assert (delete oid orders = ∅) as Hdel
      by (apply map_size_empty_inv; lia).
    assert (u32 (u32 (total - old) + sz) = u32 (0 + sz)) as ->.
    { rewrite Ht, (sum_sizes_delete _ _ _ Ho), Hdel, sum_sizes_empty.
      rewrite u32_sub_l, u32_add_l. f_equal. lia. }
    assert (count = u32 (0 + 1)) as -> by (rewrite u32_small; lia).
    by rewrite <- (insert_delete_eq orders), Hdel.
  - unfold PriceLevel.IsEmpty. simpl.
    destruct (Z.eqb_spec p kUndefPrice); [congruence |].
    destruct (Z.eqb_spec (count - 1) 0); [done |].
    simpl. unfold PriceLevel.AddOrder. simpl.
    rewrite insert_delete_eq.
    assert (u32 (count - 1 + 1) = count) as -> by (rewrite u32_small; lia).
    done.
Qed.

Lemma modify_as_cancel_add (r : MBORecord.t) (b : OrderBook.t) :
  book_wf b →
  MBORecord.action r = ACTION_MODIFY →
  MBORecord.IsValid r = true →
  is_Some (side_of_char (MBORecord.side r)) →
  is_Some (OrderBook.order_lookup_ b !! MBORecord.order_id r) →
  same_book
    (state_after (OrderBook.Apply r b))
    (OrderBook.apply_all
       [MBORecord.set_action ACTION_CANCEL r; MBORecord.set_action ACTION_ADD r]
       b).
Proof.
  intros (Hinv & Hco & Hfb & Hfa) Ha Hv [s Hs] [loc Hl].
  unfold OrderBook.apply_all. simpl. rewrite !Apply_step. unfold step.
  rewrite !IsValid_set_action by (by rewrite ?Ha).
  rewrite Hv, Ha. simpl.
  unfold modify_step, cancel_step. simpl. rewrite Hl.
  destruct (index_entry_of _ b _ loc Hinv Hl) as (s0 & Hs0 & Hloc & Hp0).
  rewrite Hs0, Hs.
  assert (add_step (MBORecord.set_action ACTION_ADD r)
            (changed (forget_order (MBORecord.order_id r)
                        (take_order s0 (OrderBook.price loc)
                           (MBORecord.order_id r) b)))
          = changed (put_order s (MBORecord.price r) (MBORecord.order_id r)
                       (MBORecord.size r) (MBORecord.side r)
                       (changed (forget_order (MBORecord.order_id r)
                                   (take_order s0 (OrderBook.price loc)
                                      (MBORecord.order_id r) b))))) as ->.
  { unfold add_step. simpl. rewrite order_lookup_take_order.
    by rewrite lookup_delete_eq, Hs. }
  assert (same_book
            (put_order s (MBORecord.price r) (MBORecord.order_id r)
               (MBORecord.size r) (MBORecord.side r)
               (take_order s0 (OrderBook.price loc) (MBORecord.order_id r) b))
            (changed (put_order s (MBORecord.price r) (MBORecord.order_id r)
                        (MBORecord.size r) (MBORecord.side r)
                        (changed (forget_order (MBORecord.order_id r)
                                    (take_order s0 (OrderBook.price loc)
                                       (MBORecord.order_id r) b))))))
    as Hmove.
  { unfold same_book, put_order, forget_order, changed. simpl.
    rewrite order_lookup_take_order, insert_delete_eq.
    by destruct s, s0. }
  destruct (Z.eqb_spec (OrderBook.price loc) (MBORecord.price r)) as [Hpe | Hpne];
    [destruct (Ascii.eqb_spec (OrderBook.side loc) (MBORecord.side r))
       as [Hse | Hsne] |]; simpl; [| by destruct Hmove | by destruct Hmove].
  (* the order stays where it is *)
  assert (s0 = s) as -> by congruence.
  destruct Hmove as (Hmb & Hma & Hml).
  pose proof (Hco) as (Hidx & _). specialize (Hidx _ _ Hl).
  apply index_entry_coherent_alt in Hidx
    as (s1 & level & old & Hs1 & Hlev & He & Hold & _).
  rewrite Hs0 in Hs1. injection Hs1 as <-. rewrite Hpe in Hlev.
  pose proof (book_inv_shape _ _ s Hinv _ _ Hlev) as Hshape.
  assert (OrderBook.levels s
            (resize_order s (MBORecord.price r) (MBORecord.order_id r)
               (MBORecord.size r) b)
          = OrderBook.levels s
              (put_order s (MBORecord.price r) (MBORecord.order_id r)
                 (MBORecord.size r) (MBORecord.side r)
                 (take_order s (MBORecord.price r) (MBORecord.order_id r) b)))
    as Hlevels.
  { rewrite levels_resize_order, (decide_True (P := s = s)) by done.
    rewrite levels_put_order, (decide_True (P := s = s)) by done.
    rewrite levels_take_order, (decide_True (P := s = s)) by done.
    apply map_eq. intros q.
    rewrite !lookup_alter_touch, !lookup_take_map.
    destruct (decide (MBORecord.price r = q)) as [<- | Hq]; [| done].
    rewrite decide_True by done. cbv zeta. rewrite Hlev.
    destruct Hshape as (Hpr & Hrest).
    rewrite init_level_Some by congruence. f_equal.
    rewrite (ModifyOrder_as_remove_add _ (MBORecord.price r) level _ old)
      by (first [by split | lia | done]).
    destruct (PriceLevel.IsEmpty
                (PriceLevel.RemoveOrder (MBORecord.order_id r) level)) eqn:Hem;
      [done |].
    rewrite init_level_Some; [done |].
    destruct (RemoveOrder_shape _ _ level (MBORecord.order_id r)
                (conj Hpr Hrest)) as (Hpr' & _); [lia | done | congruence]. }
  rewrite Hpe in *.
  unfold same_book. rewrite <- Hmb, <- Hma, <- Hml.
  assert (OrderBook.order_lookup_
            (changed (resize_order s (MBORecord.price r) (MBORecord.order_id r)
                        (MBORecord.size r) b))
          = OrderBook.order_lookup_
              (put_order s (MBORecord.price r) (MBORecord.order_id r)
                 (MBORecord.size r) (MBORecord.side r)
                 (take_order s (MBORecord.price r) (MBORecord.order_id r) b)))
    as Hlookup.
  { unfold put_order. simpl.
    rewrite order_lookup_resize_order, order_lookup_take_order.
    symmetry. apply insert_id. rewrite Hl. f_equal.
    destruct loc; simpl in *. by subst. }
  split; [| split; [| done]].
  - destruct s; simpl in *; [exact Hlevels | done].
  - destruct s; simpl in *; [done | exact Hlevels].
Qed.

(** X18. On a book that satisfies the data model, a valid Modify of an
    order that is in the index, to a bid or ask side, leaves the two side
    books and the index as a Cancel of that order followed by an Add with
    the Modify's fields leave them, whether the order moves or stays. *)
Theorem Modify_is_Cancel_then_Add (r : MBORecord.t) (b : OrderBook.t) :
  book_wf b →
  MBORecord.action r = ACTION_MODIFY →
  MBORecord.IsValid r = true →
  is_Some (side_of_char (MBORecord.side r)) →
  is_Some (OrderBook.order_lookup_ b !! MBORecord.order_id r) →
  same_book
    (state_after (OrderBook.Apply r b))
    (OrderBook.apply_all
       [MBORecord.set_action ACTION_CANCEL r; MBORecord.set_action ACTION_ADD r]
       b).
Proof. intros. by apply modify_as_cancel_add. Qed.

Lemma Modify_is_Cancel_then_Add_witness :
  let b := OrderBook.apply_all
             [event "A" "A" 1 (px 20) 5; event "A" "A" 2 (px 20) 1]
             OrderBook.new in
  let r := event "M" "A" 1 (px 21) 7 in
  same_book
    (state_after (OrderBook.Apply r b))
    (OrderBook.apply_all
       [MBORecord.set_action ACTION_CANCEL r; MBORecord.set_action ACTION_ADD r]
       b).
Proof.
  intros b r.
  assert (book_wf b) as Hwf by (apply (bool_decide_unpack _); vm_compute; exact I).
  by apply Modify_is_Cancel_then_Add.
Defined.

(** ** orderbook.cpp: where an order rests after an event *)

Lemma init_level_orders p (o : option PriceLevel.t) :
  PriceLevel.orders (init_level p o)
  = PriceLevel.orders (default PriceLevel.new o).
Proof.
  unfold init_level.
  by destruct (PriceLevel.price (default PriceLevel.new o) =? kUndefPrice).
Qed.

Lemma resting_size_alt (b : OrderBook.t) (oid : Z) :
  resting_size b oid
  = match OrderBook.order_lookup_ b !! oid with
    | None => None
    | Some loc =>
        match side_of_char (OrderBook.side loc) with
        | None => None
        | Some s =>
            match OrderBook.levels s b !! OrderBook.price loc with
            | None => None
            | Some level => PriceLevel.orders level !! oid
            end
        end
    end.
Proof.
  unfold resting_size, OrderBook.GetLevel, side_of_char.
  destruct (OrderBook.order_lookup_ b !! oid) as [loc |]; [| done].
  destruct (Ascii.eqb (OrderBook.side loc) BID_SIDE); simpl;
    [by destruct (OrderBook.bids_ b !! _) |].
  destruct (Ascii.eqb (OrderBook.side loc) ASK_SIDE); simpl;
    [by destruct (OrderBook.asks_ b !! _) | done].
Qed.

Lemma resting_size_same_book (b1 b2 : OrderBook.t) (oid : Z) :
  same_book b1 b2 → resting_size b1 oid = resting_size b2 oid.
Proof.
  intros (Hb & Ha & Hl). rewrite !resting_size_alt, Hl.
  destruct (OrderBook.order_lookup_ b2 !! oid) as [loc |]; [| done].
  destruct (side_of_char (OrderBook.side loc)) as [[] |]; simpl;
    by rewrite ?Hb, ?Ha.
Qed.

Lemma resting_size_changed (b : OrderBook.t) (oid : Z) :
  resting_size (changed b) oid = resting_size b oid.
Proof. by apply resting_size_same_book. Qed.

Lemma put_order_resting s p oid sz c b :
  side_of_char c = Some s →
  resting_size (put_order s p oid sz c b) oid = Some sz
  ∧ ∀ o, o ≠ oid →
      resting_size (put_order s p oid sz c b) o = resting_size b o.
Proof.
  intros Hc. split.
  - rewrite resting_size_alt. unfold put_order at 1. simpl.
    rewrite lookup_insert_eq. simpl. rewrite Hc.
    rewrite levels_put_order, decide_True by done.
    rewrite lookup_alter_touch, decide_True by done. simpl.
    apply lookup_insert_eq.
  - intros o Hne. rewrite !resting_size_alt. unfold put_order at 1. simpl.
    rewrite lookup_insert_ne by done.
    destruct (OrderBook.order_lookup_ b !! o) as [loc |]; [| done].
    destruct (side_of_char (OrderBook.side loc)) as [s' |]; [| done].
    rewrite levels_put_order.
    destruct (decide (s' = s)) as [-> | Hs]; [| done].
    rewrite lookup_alter_touch.
    destruct (decide (p = OrderBook.price loc)) as [<- | Hp]; [| done].
    simpl. rewrite lookup_insert_ne by done. rewrite init_level_orders.
    destruct (OrderBook.levels s b !! p); simpl; [done | apply lookup_empty].
Qed.

Lemma add_resting (r : MBORecord.t) (b : OrderBook.t) :
  MBORecord.action r = ACTION_ADD →
  MBORecord.IsValid r = true →
  is_Some (side_of_char (MBORecord.side r)) →
  OrderBook.order_lookup_ b !! MBORecord.order_id r = None →
  let b' := state_after (OrderBook.Apply r b) in
  (OrderBook.Apply r b).1 = inr tt
  ∧ OrderBook.HasChanges b' = true
  ∧ OrderBook.order_lookup_ b' !! MBORecord.order_id r
    = Some (OrderBook.Loc (MBORecord.price r) (MBORecord.side r))
  ∧ resting_size b' (MBORecord.order_id r) = Some (MBORecord.size r)
  ∧ ∀ o, o ≠ MBORecord.order_id r → resting_size b' o = resting_size b o.
Proof.
  intros Ha Hv [s Hs] Hnone b'. subst b'.
  rewrite Apply_outcome. unfold state_after. simpl.
  unfold outcome, step. rewrite Hv, Ha. simpl.
  unfold add_outcome, add_step. rewrite Hnone, Hs.
  destruct (put_order_resting s (MBORecord.price r) (MBORecord.order_id r)
              (MBORecord.size r) (MBORecord.side r) b Hs) as [Hmine Hothers].
  split; [done |]. split; [done |].
  split; [unfold put_order; simpl; apply lookup_insert_eq |].
  split; [by rewrite resting_size_changed |].
  intros o Hne. rewrite resting_size_changed. by apply Hothers.
Qed.

(** X19. A valid Add of an order id that is not in the index, on the bid
    or the ask side, returns normally and sets the dirty flag; afterwards
    the order rests with the size of the event, and every other order
    rests as it did before. *)
Theorem Add_rests_order (r : MBORecord.t) (b : OrderBook.t) :
  MBORecord.action r = ACTION_ADD →
  MBORecord.IsValid r = true →
  is_Some (side_of_char (MBORecord.side r)) →
  OrderBook.order_lookup_ b !! MBORecord.order_id r = None →
  let b' := state_after (OrderBook.Apply r b) in
  (OrderBook.Apply r b).1 = inr tt
  ∧ OrderBook.HasChanges b' = true
  ∧ OrderBook.order_lookup_ b' !! MBORecord.order_id r
    = Some (OrderBook.Loc (MBORecord.price r) (MBORecord.side r))
  ∧ resting_size b' (MBORecord.order_id r) = Some (MBORecord.size r)
  ∧ ∀ o, o ≠ MBORecord.order_id r → resting_size b' o = resting_size b o.
Proof. intros. by apply add_resting. Qed.

Lemma Add_rests_order_witness :
  let b := OrderBook.apply_all [event "A" "B" 1 (px 10) 3] OrderBook.new in
  let r := event "A" "B" 2 (px 10) 4 in
  resting_size (state_after (OrderBook.Apply r b)) 2 = Some 4
  ∧ resting_size (state_after (OrderBook.Apply r b)) 1 = resting_size b 1.
Proof.
  intros b r.
  destruct (Add_rests_order r b) as (_ & _ & _ & Hmine & Hothers);
    [done | done | by eexists | done |].
  split; [exact Hmine | by apply Hothers].
Defined.

Lemma take_order_resting n s p oid b :
  book_inv n b → n < 2 ^ 32 →
  ∀ o, o ≠ oid →
    resting_size (take_order s p oid b) o = resting_size b o.
Proof.
  intros Hinv Hbound o Hne. rewrite !resting_size_alt.
  rewrite order_lookup_take_order.
  destruct (OrderBook.order_lookup_ b !! o) as [loc |]; [| done].
  destruct (side_of_char (OrderBook.side loc)) as [s' |]; [| done].
  rewrite levels_take_order.
  destruct (decide (s' = s)) as [-> | Hs]; [| done].
  rewrite lookup_take_map.
  destruct (decide (p = OrderBook.price loc)) as [<- | Hp]; [| done].
  cbv zeta.
  destruct (OrderBook.levels s b !! p) as [level |] eqn:Hl.
  - pose proof (book_inv_shape n b s Hinv _ _ Hl) as Hshape.
    rewrite init_level_Some by (destruct Hshape as (? & ? & _); congruence).
    destruct (PriceLevel.orders level !! o) as [z |] eqn:Ho.
    + rewrite (RemoveOrder_not_empty n p level oid o z) by done.
      rewrite RemoveOrder_orders, decide_False by done. done.
    + destruct (PriceLevel.IsEmpty _); [done |].
      rewrite RemoveOrder_orders, decide_False by done. done.
  - rewrite init_level_None. by destruct (PriceLevel.IsEmpty _).
Qed.

Lemma cancel_resting (n : Z) (r : MBORecord.t) (b : OrderBook.t) :
  book_inv n b → n < 2 ^ 32 →
  MBORecord.action r = ACTION_CANCEL →
  MBORecord.IsValid r = true →
  is_Some (OrderBook.order_lookup_ b !! MBORecord.order_id r) →
  let b' := state_after (OrderBook.Apply r b) in
  (OrderBook.Apply r b).1 = inr tt
  ∧ OrderBook.HasChanges b' = true
  ∧ OrderBook.order_lookup_ b' !! MBORecord.order_id r = None
  ∧ not_resting (MBORecord.order_id r) b'
  ∧ ∀ o, o ≠ MBORecord.order_id r → resting_size b' o = resting_size b o.
Proof.
  intros Hinv Hbound Ha Hv [loc Hl] b'. subst b'.
  rewrite Apply_outcome. unfold state_after. simpl.
  unfold outcome, step. rewrite Hv, Ha. simpl.
  unfold cancel_outcome, cancel_step. rewrite Hl.
  destruct (index_entry_of n b _ loc Hinv Hl) as (s & Hs & Hloc & Hp).
  rewrite Hs.
  split; [done |]. split; [done |].
  split; [unfold forget_order; simpl; apply lookup_delete_eq |].
  split.
  - intros s' q level. rewrite levels_changed, levels_forget_order.
    eapply take_order_not_resting; [done |]. by rewrite Hl, Hloc at 1.
  - intros o Hne. rewrite resting_size_changed.
    rewrite <- (take_order_resting n s (OrderBook.price loc)
                  (MBORecord.order_id r) b Hinv Hbound o Hne).
    rewrite !resting_size_alt. unfold forget_order at 1. simpl.
    rewrite lookup_delete_ne by done.
    destruct (OrderBook.order_lookup_ _ !! o) as [loc' |]; [| done].
    destruct (side_of_char (OrderBook.side loc')); [| done].
    by rewrite levels_forget_order.
Qed.

(** X20. On a book reached by fewer than 2^32 calls of [Apply], a valid
    Cancel of an order that is in the index returns normally and sets the
    dirty flag; afterwards the order is neither in the index nor in any
    level, and every other order rests as it did before. *)
Theorem Cancel_removes_order (n : Z) (r : MBORecord.t) (b : OrderBook.t) :
  book_inv n b → n < 2 ^ 32 →
  MBORecord.action r = ACTION_CANCEL →
  MBORecord.IsValid r = true →
  is_Some (OrderBook.order_lookup_ b !! MBORecord.order_id r) →
  let b' := state_after (OrderBook.Apply r b) in
  (OrderBook.Apply r b).1 = inr tt
  ∧ OrderBook.HasChanges b' = true
  ∧ OrderBook.order_lookup_ b' !! MBORecord.order_id r = None
  ∧ not_resting (MBORecord.order_id r) b'
  ∧ ∀ o, o ≠ MBORecord.order_id r → resting_size b' o = resting_size b o.
Proof. intros. by apply (cancel_resting n). Qed.

Lemma Cancel_removes_order_witness :
  let b := OrderBook.apply_all
             [event "A" "B" 1 (px 10) 3; event "A" "B" 2 (px 10) 4]
             OrderBook.new in
  let r := event "C" "B" 1 (px 10) 3 in
  resting_size (state_after (OrderBook.Apply r b)) 1 = None
  ∧ resting_size (state_after (OrderBook.Apply r b)) 2 = Some 4.
Proof.
  intros b r.
  assert (book_inv 2 b) as Hinv by (apply (apply_all_inv [_; _]); simpl; lia).
  destruct (Cancel_removes_order 2 r b Hinv) as (_ & _ & Hgone & _ & Hothers);
    [lia | done | done | vm_compute; eauto |].
  split.
  - change (resting_size (state_after (OrderBook.Apply r b))
              (MBORecord.order_id r) = None).
    unfold resting_size. by rewrite Hgone.
  - rewrite Hothers by done. vm_compute. reflexivity.
Defined.

(** X21. On a book that satisfies the data model, a valid Modify of an
    order that is in the index, to a bid or ask side, leaves the order
    resting with the size of the event and every other order resting as
    it did before. *)
Theorem Modify_resizes_order (r : MBORecord.t) (b : OrderBook.t) :
  book_wf b →
  MBORecord.action r = ACTION_MODIFY →
  MBORecord.IsValid r = true →
  is_Some (side_of_char (MBORecord.side r)) →
  is_Some (OrderBook.order_lookup_ b !! MBORecord.order_id r) →
  let b' := state_after (OrderBook.Apply r b) in
  resting_size b' (MBORecord.order_id r) = Some (MBORecord.size r)
  ∧ ∀ o, o ≠ MBORecord.order_id r → resting_size b' o = resting_size b o.
Proof.
  intros Hwf Ha Hv Hs Hin b'. subst b'.
  pose proof (modify_as_cancel_add r b Hwf Ha Hv Hs Hin) as Hsame.
  destruct Hwf as (Hinv & _).
  set (cancel := MBORecord.set_action ACTION_CANCEL r) in *.
  set (add := MBORecord.set_action ACTION_ADD r) in *.
  assert (MBORecord.IsValid cancel = true) as Hvc
    by (unfold cancel; rewrite IsValid_set_action; by rewrite ?Ha).
  assert (MBORecord.IsValid add = true) as Hva
    by (unfold add; rewrite IsValid_set_action; by rewrite ?Ha).
  destruct (cancel_resting _ cancel b Hinv)
    as (_ & _ & Hgone & _ & Hrest1); [lia | done | done | done |].
  destruct (add_resting add (state_after (OrderBook.Apply cancel b)))
    as (_ & _ & _ & Hmine & Hrest2); [done | done | done | done |].
  unfold OrderBook.apply_all in Hsame. simpl in Hsame.
  split.
  - rewrite (resting_size_same_book _ _ _ Hsame). exact Hmine.
  - intros o Hne. rewrite (resting_size_same_book _ _ _ Hsame).
    rewrite (Hrest2 o Hne). by apply Hrest1.
Qed.

Lemma Modify_resizes_order_witness :
  let b := OrderBook.apply_all
             [event "A" "A" 1 (px 20) 5; event "A" "A" 2 (px 20) 1]
             OrderBook.new in
  let r := event "M" "A" 1 (px 20) 7 in
  resting_size (state_after (OrderBook.Apply r b)) 1 = Some 7.
Proof.
  intros b r.
  assert (book_wf b) as Hwf by (apply (bool_decide_unpack _); vm_compute; exact I).
  by apply (Modify_resizes_order r b Hwf).
Defined.

(** ** order.h: the operations of a level *)

(** X22. Looking an order up in a level after an update: [AddOrder]
    makes [HasOrder] true and [GetOrderSize] the size added;
    [RemoveOrder] makes [HasOrder] false and [GetOrderSize] 0;
    [ModifyOrder] sets [GetOrderSize] to the new size for an order of the
    level; none of the three changes what is stored for another order,
    and [RemoveOrder] and [ModifyOrder] of an order that is not in the
    level leave the whole level as it was. *)
Theorem PriceLevel_lookup_after_update (level : PriceLevel.t) (oid sz : Z) :
  (PriceLevel.HasOrder oid (PriceLevel.AddOrder oid sz level) = true
   ∧ PriceLevel.GetOrderSize oid (PriceLevel.AddOrder oid sz level) = sz)
  ∧ (PriceLevel.HasOrder oid (PriceLevel.RemoveOrder oid level) = false
     ∧ PriceLevel.GetOrderSize oid (PriceLevel.RemoveOrder oid level) = 0)
  ∧ (PriceLevel.HasOrder oid level = true →
     PriceLevel.GetOrderSize oid (PriceLevel.ModifyOrder oid sz level) = sz)
  ∧ (∀ o, o ≠ oid →
       PriceLevel.orders (PriceLevel.AddOrder oid sz level) !! o
       = PriceLevel.orders level !! o
       ∧ PriceLevel.orders (PriceLevel.RemoveOrder oid level) !! o
         = PriceLevel.orders level !! o
       ∧ PriceLevel.orders (PriceLevel.ModifyOrder oid sz level) !! o
         = PriceLevel.orders level !! o)
  ∧ (PriceLevel.HasOrder oid level = false →
     PriceLevel.RemoveOrder oid level = level
     ∧ PriceLevel.ModifyOrder oid sz level = level).
Proof.
  unfold PriceLevel.HasOrder, PriceLevel.GetOrderSize.
  split; [| split; [| split; [| split]]].
  - simpl. by rewrite lookup_insert_eq.
  - by rewrite RemoveOrder_orders, decide_True.
  - rewrite ModifyOrder_orders, decide_True by done.
    by destruct (PriceLevel.orders level !! oid).
  - intros o Hne. simpl. rewrite lookup_insert_ne by done.
    rewrite RemoveOrder_orders, ModifyOrder_orders, !decide_False by done.
    done.
  - unfold PriceLevel.RemoveOrder, PriceLevel.ModifyOrder.
    by destruct (PriceLevel.orders level !! oid).
Qed.

Lemma PriceLevel_lookup_after_update_witness :
  let level := {| PriceLevel.price := px 10; PriceLevel.total_size := 2;
                  PriceLevel.order_count := 1;
                  PriceLevel.orders := {[ 1 := 2 ]} |} in
  PriceLevel.GetOrderSize 1 (PriceLevel.ModifyOrder 1 9 level) = 9
  ∧ PriceLevel.RemoveOrder 5 level = level.
Proof.
  intros level.
  destruct (PriceLevel_lookup_after_update level 1 9) as (_ & _ & Hm & _).
  destruct (PriceLevel_lookup_after_update level 5 0) as (_ & _ & _ & _ & Hr).
  split; [by apply Hm | by apply Hr].
Defined.

(** X23. Removing the only order of a level whose aggregates agree with
    its orders leaves the level as [Clear] leaves it: no price, no size,
    no orders, and [IsEmpty]. *)
Theorem RemoveOrder_last_is_Clear (n p : Z) (level : PriceLevel.t) (oid : Z) :
  level_shape n p level →
  size (PriceLevel.orders level) = 1%nat →
  PriceLevel.HasOrder oid level = true →
  PriceLevel.RemoveOrder oid level = PriceLevel.Clear level
  ∧ PriceLevel.IsEmpty (PriceLevel.RemoveOrder oid level) = true.
Proof.
  intros (Hp & Hu & (Ht & Hc) & Hn & Hpos) Hone Hhas.
  unfold PriceLevel.HasOrder in Hhas.
  destruct (PriceLevel.orders level !! oid) as [sz |] eqn:Ho; [| done].
  unfold PriceLevel.RemoveOrder, PriceLevel.Clear, PriceLevel.IsEmpty.
  rewrite Ho, Hc, Hone. simpl.
  split; [| done]. f_equal.
  apply map_size_empty_inv. rewrite map_size_delete, Ho, Hone. done.
Qed.

Lemma RemoveOrder_last_is_Clear_witness :
  let level := {| PriceLevel.price := px 10; PriceLevel.total_size := 2;
                  PriceLevel.order_count := 1;
                  PriceLevel.orders := {[ 1 := 2 ]} |} in
  PriceLevel.RemoveOrder 1 level = PriceLevel.Clear level.
Proof.
  intros level.
  apply (RemoveOrder_last_is_Clear 1 (px 10) level 1); try done.
  apply (bool_decide_unpack _). vm_compute. exact I.
Defined.

(** ** mbo_processor.cpp: validation and emission *)

Lemma validate_levels_all r indices :
  (∀ i, i ∈ indices → MBOProcessor.validate_level r i = None) →
  MBOProcessor.validate_levels r indices = None.
Proof.
  induction indices as [| j rest IH]; intros H; [done |].
  simpl. rewrite (H j) by (apply elem_of_cons; by left).
  apply IH. intros i Hi. apply H. apply elem_of_cons. by right.
Qed.

(** X24. [ValidateMBPRecord] accepts a record exactly when its [rtype]
    is 10, its action and its side are among the known ones, and each of
    its twenty slots either holds no price or has a positive size and a
    positive count. *)
Theorem ValidateMBPRecord_accepts_iff (r : MBPRecord.t) :
  row_unsigned r →
  MBOProcessor.validation_error r = None
  ↔ MBPRecord.rtype r = 10
    ∧ utils.IsValidAction (MBPRecord.action r) = true
    ∧ utils.IsValidSide (MBPRecord.side r) = true
    ∧ row_well_formed r.
Proof.
  intros Hu. split.
  - intros Hv. split; [| split; [| split]];
      [| | | by apply validation_error_None].
    all: unfold MBOProcessor.validation_error in Hv.
    + destruct (Z.eqb_spec (MBPRecord.rtype r) 10); done.
    + destruct (negb (MBPRecord.rtype r =? 10)); [done |].
      by destruct (utils.IsValidAction (MBPRecord.action r)).
    + destruct (negb (MBPRecord.rtype r =? 10)); [done |].
      destruct (negb (utils.IsValidAction (MBPRecord.action r))); [done |].
      by destruct (utils.IsValidSide (MBPRecord.side r)).
  - intros (Ht & Ha & Hs & Hwf). unfold MBOProcessor.validation_error.
    rewrite Ht, Ha, Hs. cbn [negb Z.eqb Pos.eqb].
    apply validate_levels_all. intros i Hi. apply elem_of_seq in Hi.
    apply validate_level_None; [done |]. apply Hwf. lia.
Qed.

Lemma ValidateMBPRecord_accepts_iff_witness :
  MBOProcessor.validation_error
    (snapshot_of (event "A" "B" 1 (px 10) 3)
       (OrderBook.apply_all [event "A" "B" 1 (px 10) 3] OrderBook.new))
  = None
  ↔ MBPRecord.rtype
      (snapshot_of (event "A" "B" 1 (px 10) 3)
         (OrderBook.apply_all [event "A" "B" 1 (px 10) 3] OrderBook.new)) = 10
    ∧ utils.IsValidAction "A" = true
    ∧ utils.IsValidSide "B" = true
    ∧ row_well_formed
        (snapshot_of (event "A" "B" 1 (px 10) 3)
           (OrderBook.apply_all [event "A" "B" 1 (px 10) 3] OrderBook.new)).
Proof.
  apply (ValidateMBPRecord_accepts_iff
           (snapshot_of (event "A" "B" 1 (px 10) 3)
              (OrderBook.apply_all [event "A" "B" 1 (px 10) 3] OrderBook.new))).
  repeat split; vm_compute; repeat constructor; discriminate.
Defined.

Lemma ProcessRecord_exact (record : MBORecord.t) (p : MBOProcessor.t) :
  let b := MBOProcessor.order_book_ p in
  let after := state_after (MBOProcessor.ProcessRecord record p) in
  MBOProcessor.output after
  = (if writes_row record p
     then MBOProcessor.output p
            ++ [(MBOProcessor.mbp_record_count_ p,
                 snapshot_of record (book_after record b))]
     else MBOProcessor.output p)
  ∧ MBOProcessor.mbp_record_count_ after
    = (if writes_row record p
       then u64 (MBOProcessor.mbp_record_count_ p + 1)
       else MBOProcessor.mbp_record_count_ p)
  ∧ MBOProcessor.record_count_ after
    = (if Ascii.eqb (MBORecord.action record) ACTION_CLEAR
          || returns (outcome record b)
       then u64 (MBOProcessor.record_count_ p + 1)
       else MBOProcessor.record_count_ p)
  ∧ returns (MBOProcessor.ProcessRecord record p).1
    = (Ascii.eqb (MBORecord.action record) ACTION_CLEAR
       || returns (outcome record b))
      && (negb (attempts_row record p) || writes_row record p).
Proof.
  intros b after. subst after b.
  unfold writes_row, attempts_row, book_after, emitting.
  unfold MBOProcessor.ProcessRecord, MBOProcessor.HandleSpecialCase.
  unfold passes_validation, snapshot_of.
  unfold MBOProcessor.CreateMBPRecord, OrderBook.GetTopBids, OrderBook.GetTopAsks,
    MBOProcessor.WriteMBPRecord, MBOProcessor.ValidateMBPRecord,
    OrderBook.ResetChanges, OrderBook.iterate_bids, OrderBook.iterate_asks,
    OrderBook.HasChanges, OrderBook.Clear, OrderBook.MarkChanged.
  destruct p as [b out rc mc v]. simpl.
  destruct (Ascii.eqb (MBORecord.action record) ACTION_CLEAR) eqn:Hc.
  - run_monad. destruct v; simpl.
    + destruct (MBOProcessor.validation_error _) eqn:Hval; run_monad;
        repeat split; auto.
    + repeat split; auto.
  - rewrite <- (Apply_step record b).
    replace (outcome record b) with (OrderBook.Apply record b).1
      by (by rewrite Apply_outcome).
    unfold state_after.
    unfold mbind, M_bind, mret, M_ret, throw, get, gets, modify,
      MBOProcessor.on_book. simpl.
    destruct (OrderBook.Apply record b) as [[e | []] b1]; simpl;
      [repeat split; auto |].
    destruct (Ascii.eqb (MBORecord.action record) ACTION_ADD
              || Ascii.eqb (MBORecord.action record) ACTION_CANCEL
              || false
              || Ascii.eqb (MBORecord.action record) ACTION_TRADE);
      simpl; [| repeat split; auto].
    destruct (OrderBook.has_changes_ b1); simpl; [| repeat split; auto].
    destruct v; simpl; [| repeat split; auto].
    destruct (MBOProcessor.validation_error _); simpl; repeat split; auto.
Qed.

(** X25. What one call of [ProcessRecord] writes. It calls
    [WriteMBPRecord] for every Clear, and for an Add, Cancel or Trade for
    which [Apply] returned with the dirty flag set, and for nothing else;
    the call appends one row, the snapshot of the book the record left
    under the current row counter, unless the validation rejects it. The
    row counter moves exactly when a row is appended, the event counter
    exactly when [Apply] returned or the record is a Clear, and
    [ProcessRecord] returns normally unless [Apply] threw or the
    validation rejected the row. *)
Theorem ProcessRecord_emission (record : MBORecord.t) (p : MBOProcessor.t) :
  let b := MBOProcessor.order_book_ p in
  let after := state_after (MBOProcessor.ProcessRecord record p) in
  MBOProcessor.output after
  = (if writes_row record p
     then MBOProcessor.output p
            ++ [(MBOProcessor.mbp_record_count_ p,
                 snapshot_of record (book_after record b))]
     else MBOProcessor.output p)
  ∧ MBOProcessor.mbp_record_count_ after
    = (if writes_row record p
       then u64 (MBOProcessor.mbp_record_count_ p + 1)
       else MBOProcessor.mbp_record_count_ p)
  ∧ MBOProcessor.record_count_ after
    = (if Ascii.eqb (MBORecord.action record) ACTION_CLEAR
          || returns (outcome record b)
       then u64 (MBOProcessor.record_count_ p + 1)
       else MBOProcessor.record_count_ p)
  ∧ returns (MBOProcessor.ProcessRecord record p).1
    = (Ascii.eqb (MBORecord.action record) ACTION_CLEAR
       || returns (outcome record b))
      && (negb (attempts_row record p) || writes_row record p).
Proof. intros. by apply ProcessRecord_exact. Qed.

(** ** mbo_processor.cpp: the rows of a run *)

Lemma ProcessRecord_output_grows (r : MBORecord.t) (p : MBOProcessor.t) :
  MBOProcessor.output p
    `prefix_of` MBOProcessor.output (state_after (MBOProcessor.ProcessRecord r p))
  ∧ (length (MBOProcessor.output (state_after (MBOProcessor.ProcessRecord r p)))
     ≤ length (MBOProcessor.output p) + 1)%nat.
Proof.
  destruct (ProcessRecord_exact r p) as (-> & _).
  destruct (writes_row r p).
  - split; [by apply prefix_app_r | rewrite length_app; simpl; lia].
  - split; [done | lia].
Qed.

(** X26. A run never rewrites or drops a row that is already in the
    output, and appends at most one row per record. *)
Theorem ProcessFile_output_grows (records : list MBORecord.t)
    (p : MBOProcessor.t) :
  MBOProcessor.output p
    `prefix_of` MBOProcessor.output (MBOProcessor.ProcessFile records p)
  ∧ (length (MBOProcessor.output (MBOProcessor.ProcessFile records p))
     ≤ length (MBOProcessor.output p) + length records)%nat.
Proof.
  unfold MBOProcessor.ProcessFile. revert p.
  induction records as [| r rest IH]; intros p; simpl; [split; [done | lia] |].
  destruct (ProcessRecord_output_grows r p) as [Hpre Hlen].
  destruct (IH (state_after (MBOProcessor.ProcessRecord r p))) as [Hpre' Hlen'].
  split; [by etrans | lia].
Qed.

Lemma ProcessRecord_rows_numbered (r : MBORecord.t) (p : MBOProcessor.t) :
  rows_numbered p →
  Z.of_nat (length (MBOProcessor.output p)) + 1 < 2 ^ 64 →
  rows_numbered (state_after (MBOProcessor.ProcessRecord r p)).
Proof.
  intros [Hcount Hidx] Hbound. unfold rows_numbered.
  destruct (ProcessRecord_exact r p) as (-> & -> & _).
  destruct (writes_row r p); [| done].
  rewrite length_app, Nat.add_1_r, fmap_app, seq_S, fmap_app, <- Hidx.
  simpl. rewrite Hcount. split; [| done].
  unfold u64. rewrite Z.mod_small by lia. lia.
Qed.

(** X27. The rows of a run are numbered without gaps. If the rows
    written so far carry the indices 0, 1, 2, ... and the row counter is
    their number, as in a new processor, then the same holds after a run
    over any records, as long as the number of rows stays below 2^64. *)
Theorem ProcessFile_row_indices (records : list MBORecord.t)
    (p : MBOProcessor.t) :
  rows_numbered p →
  Z.of_nat (length (MBOProcessor.output p) + length records) < 2 ^ 64 →
  rows_numbered (MBOProcessor.ProcessFile records p).
Proof.
  unfold MBOProcessor.ProcessFile. revert p.
  induction records as [| r rest IH]; intros p Hnum Hbound; simpl; [done |].
  simpl in Hbound.
  destruct (ProcessRecord_output_grows r p) as [_ Hlen].
  apply IH; [apply ProcessRecord_rows_numbered; [done | lia] | lia].
Qed.

Lemma ProcessFile_row_indices_witness :
  rows_numbered
    (MBOProcessor.ProcessFile
       [event "A" "B" 1 (px 10) 3; event "M" "B" 1 (px 10) 4;
        event "C" "B" 1 (px 10) 4]
       MBOProcessor.new).
Proof.
  apply ProcessFile_row_indices; [by split | by vm_compute].
Defined.

Lemma ProcessRecord_silent (r : MBORecord.t) (p : MBOProcessor.t) :
  emitting (MBORecord.action r) = false →
  MBOProcessor.order_book_ (state_after (MBOProcessor.ProcessRecord r p))
  = state_after (OrderBook.Apply r (MBOProcessor.order_book_ p)).
Proof.
  unfold emitting. intros He.
  unfold MBOProcessor.ProcessRecord, MBOProcessor.HandleSpecialCase.
  destruct p as [b out rc mc v]. simpl.
  destruct (Ascii.eqb (MBORecord.action r) ACTION_CLEAR) eqn:Hc;
    [by rewrite !orb_true_r in He |].
  unfold state_after.
  unfold mbind, M_bind, mret, M_ret, throw, get, gets, modify,
    MBOProcessor.on_book. simpl.
  destruct (OrderBook.Apply r b) as [[e | []] b1]; simpl; [done |].
  by rewrite He.
Qed.

(** X28. Records whose action is none of Add, Cancel, Clear and Trade
    write nothing: a run over such records, Modify and Fill among them,
    leaves the output and the row counter as they were, whatever the
    records do to the book, and leaves the book as the calls of [Apply]
    leave it. *)
Theorem ProcessFile_silent_actions (records : list MBORecord.t)
    (p : MBOProcessor.t) :
  Forall (λ r, emitting (MBORecord.action r) = false) records →
  let after := MBOProcessor.ProcessFile records p in
  MBOProcessor.output after = MBOProcessor.output p
  ∧ MBOProcessor.mbp_record_count_ after = MBOProcessor.mbp_record_count_ p
  ∧ MBOProcessor.order_book_ after
    = OrderBook.apply_all records (MBOProcessor.order_book_ p).
Proof.
  unfold MBOProcessor.ProcessFile, OrderBook.apply_all. revert p.
  induction records as [| r rest IH]; intros p Hall; simpl; [done |].
  apply Forall_cons in Hall as [Hr Hrest].
  destruct (IH (state_after (MBOProcessor.ProcessRecord r p)) Hrest)
    as (-> & -> & ->).
  destruct (ProcessRecord_exact r p) as (-> & -> & _).
  rewrite (ProcessRecord_silent r p Hr).
  assert (writes_row r p = false) as ->; [| done].
  unfold writes_row, attempts_row. rewrite Hr.
  unfold emitting in Hr.
  destruct (Ascii.eqb (MBORecord.action r) ACTION_CLEAR);
    [by rewrite !orb_true_r in Hr |].
  by rewrite andb_false_r.
Qed.

Lemma ProcessFile_silent_actions_witness :
  let p := MBOProcessor.ProcessFile [event "A" "B" 1 (px 10) 3]
             MBOProcessor.new in
  let records := [event "M" "B" 1 (px 11) 4; event "F" "B" 1 (px 11) 4] in
  MBOProcessor.output (MBOProcessor.ProcessFile records p)
  = MBOProcessor.output p.
Proof.
  intros p records.
  apply (ProcessFile_silent_actions records p).
  repeat constructor.
Defined.

Lemma snapshot_of_same_book (record : MBORecord.t) (b1 b2 : OrderBook.t) :
  same_book b1 b2 → snapshot_of record b1 = snapshot_of record b2.
Proof.
  intros (Hb & Ha & _).
  unfold snapshot_of, OrderBook.iterate_bids, OrderBook.iterate_asks.
  by rewrite Hb, Ha.
Qed.

(** X29. A Clear record in the processor. Whatever its other fields,
    and even where [Apply] would reject it as invalid, it empties both
    side books and the index and leaves the dirty flag set. It appends
    one row, in which all twenty slots are empty, unless the validation
    is on and the record's side is none of the known ones; then nothing
    is written. *)
Theorem ProcessRecord_Clear (record : MBORecord.t) (p : MBOProcessor.t) :
  MBORecord.action record = ACTION_CLEAR →
  let after := state_after (MBOProcessor.ProcessRecord record p) in
  let row := snapshot_of record OrderBook.new in
  same_book (MBOProcessor.order_book_ after) OrderBook.new
  ∧ OrderBook.HasChanges (MBOProcessor.order_book_ after) = true
  ∧ MBOProcessor.output after
    = (if negb (MBOProcessor.validate_output_ p)
          || utils.IsValidSide (MBORecord.side record)
       then MBOProcessor.output p ++ [(MBOProcessor.mbp_record_count_ p, row)]
       else MBOProcessor.output p)
  ∧ ∀ i : nat, (i < MBP_LEVELS)%nat →
      MBPRecord.GetBidLevel (Z.of_nat i) row = CompactPriceLevel.new
      ∧ MBPRecord.GetAskLevel (Z.of_nat i) row = CompactPriceLevel.new.
Proof.
  intros Ha after row.
  assert (same_book (changed (clear_book (MBOProcessor.order_book_ p)))
            OrderBook.new) as Hsame by done.
  split; [| split; [| split]].
  - destruct (ProcessRecord_cases record p) as (_ & Hb & Hk & Hl & _).
    rewrite Ha in Hb, Hk, Hl. by repeat split.
  - subst after.
    unfold MBOProcessor.ProcessRecord, MBOProcessor.HandleSpecialCase.
    rewrite Ha.
    unfold MBOProcessor.CreateMBPRecord, OrderBook.GetTopBids,
      OrderBook.GetTopAsks, MBOProcessor.WriteMBPRecord,
      MBOProcessor.ValidateMBPRecord, OrderBook.Clear.
    destruct p as [b out rc mc v]. run_monad.
    destruct v; simpl; [| done].
    by destruct (MBOProcessor.validation_error _).
  - subst after. destruct (ProcessRecord_exact record p) as (-> & _).
    unfold writes_row, attempts_row, book_after. rewrite Ha. simpl.
    rewrite (snapshot_of_same_book record _ _ Hsame). fold row.
    assert (passes_validation p row
            = negb (MBOProcessor.validate_output_ p)
              || utils.IsValidSide (MBORecord.side record)) as ->; [| done].
    unfold passes_validation. f_equal.
    subst row. unfold snapshot_of.
    rewrite iterate_bids_empty, iterate_asks_empty by done.
    unfold MBOProcessor.validation_error. simpl. rewrite Ha. simpl.
    by destruct (utils.IsValidSide (MBORecord.side record)).
  - intros i Hi. subst row. unfold snapshot_of.
    rewrite iterate_bids_empty, iterate_asks_empty by done.
    destruct (FromOrderBook_projection record [] []) as (Hslots & _).
    destruct (Hslots i Hi) as [Hbid Hask]. split; [exact Hbid | exact Hask].
Qed.

Lemma ProcessRecord_Clear_witness :
  let p := MBOProcessor.ProcessFile [event "A" "B" 1 (px 10) 3]
             MBOProcessor.new in
  let after :=
    state_after (MBOProcessor.ProcessRecord (event "R" "X" 0 0 0) p) in
  same_book (MBOProcessor.order_book_ after) OrderBook.new
  ∧ MBOProcessor.output after = MBOProcessor.output p.
Proof.
  intros p after.
  destruct (ProcessRecord_Clear (event "R" "X" 0 0 0) p) as (Hb & _ & Ho & _);
    [done |].
  split; [exact Hb | exact Ho].
Defined.
